(** * Clinical Guidance Monitor: the crawl-and-diff pipeline, embedded in Rocq

    Shallow embedding of [scripts/poll-rss.js] (NICE scraping and RSS feeds),
    of the ARTP HTML poller and of the browser data client, followed by the
    properties of the change-detection pipeline that the specification
    states.

    Layout: JavaScript strings and the regular-expression matcher the
    scripts rely on, SHA-256 (for [hashString]), the scripts themselves,
    concrete documents used in examples, and finally the theorems. *)

From Stdlib Require Import NArith ZArith List String Ascii Bool Lia.
From stdpp Require Import gmap list fin_maps.

Set Default Proof Using "Type".

(** ** JavaScript strings

    A JavaScript string is a sequence of UTF-16 code units; [length],
    [substring], [indexOf] and the regular expressions below all count and
    match code units. *)

Abbreviation jsstring := (list N).

Fixpoint js (s : string) : jsstring :=
  match s with
  | EmptyString => []
  | String a r => N_of_ascii a :: js r
  end.
Arguments js s%_string.

Module JS.

Definition isDigit (c : N) : bool := ((48 <=? c) && (c <=? 57))%N.
Definition isUpperAZ (c : N) : bool := ((65 <=? c) && (c <=? 90))%N.
Definition isLowerAZ (c : N) : bool := ((97 <=? c) && (c <=? 122))%N.

(** [\w] *)
Definition isWord (c : N) : bool :=
  isDigit c || isUpperAZ c || isLowerAZ c || (c =? 95)%N.

(** [\s], which is also the set [String.prototype.trim] strips:
    WhiteSpace and LineTerminator of ECMA-262. *)
Definition isSpace (c : N) : bool :=
  ((9 <=? c) && (c <=? 13) || (c =? 32) || (c =? 160) || (c =? 5760)
   || (8192 <=? c) && (c <=? 8202) || (c =? 8232) || (c =? 8233)
   || (c =? 8239) || (c =? 8287) || (c =? 12288) || (c =? 65279))%N.

(** ASCII case mapping, the only one a regular expression with the [i]
    flag (and without the [u] flag) applies to a pattern letter: a code
    unit above 127 never canonicalises to an ASCII one. *)
Definition asciiUpper (c : N) : N := if isLowerAZ c then (c - 32)%N else c.
Definition asciiLower (c : N) : N := if isUpperAZ c then (c + 32)%N else c.

Definition eqCI (a c : N) : bool := (asciiUpper a =? asciiUpper c)%N.

Fixpoint eqb (a b : jsstring) : bool :=
  match a, b with
  | [], [] => true
  | x :: a', y :: b' => (x =? y)%N && eqb a' b'
  | _, _ => false
  end.

Fixpoint startsWith (p s : jsstring) : bool :=
  match p, s with
  | [], _ => true
  | x :: p', y :: s' => (x =? y)%N && startsWith p' s'
  | _ :: _, [] => false
  end.

(** [s.indexOf(p)] *)
Fixpoint indexOf (p s : jsstring) : option nat :=
  if startsWith p s then Some 0
  else match s with
       | [] => None
       | _ :: s' => S <$> indexOf p s'
       end.

(** [s.includes(p)] *)
Definition includes (p s : jsstring) : bool := bool_decide (is_Some (indexOf p s)).

(** [s.substring(a, b)] for [0 <= a <= b] *)
Definition substring (a b : nat) (s : jsstring) : jsstring := take (b - a) (drop a s).

Fixpoint trimStart (s : jsstring) : jsstring :=
  match s with
  | c :: s' => if isSpace c then trimStart s' else s
  | [] => []
  end.

Definition trimEnd (s : jsstring) : jsstring := rev (trimStart (rev s)).

Definition trim (s : jsstring) : jsstring := trimEnd (trimStart s).

(** JavaScript truthiness of a string: only the empty string is falsy. *)
Definition truthy (s : jsstring) : bool :=
  match s with [] => false | _ => true end.

(** [a || b] on strings *)
Definition or (a b : jsstring) : jsstring := if truthy a then a else b.

(** [o || b] where [o] may be [null] or [undefined] *)
Definition orElse (o : option jsstring) (b : jsstring) : jsstring :=
  match o with
  | Some a => or a b
  | None => b
  end.

(** [s.split(sep)[0]] for a one-character separator *)
Fixpoint beforeSep (sep : N) (s : jsstring) : jsstring :=
  match s with
  | [] => []
  | c :: s' => if (c =? sep)%N then [] else c :: beforeSep sep s'
  end.

(** [l.join(sep)] *)
Fixpoint join (sep : jsstring) (l : list jsstring) : jsstring :=
  match l with
  | [] => []
  | [x] => x
  | x :: l' => x ++ sep ++ join sep l'
  end.

(** Comparison of strings by code units, the order of [Array.prototype.sort]
    without a comparator: [ltb a b] is [a < b]. *)
Fixpoint ltb (a b : jsstring) : bool :=
  match a, b with
  | _, [] => false
  | [], _ :: _ => true
  | x :: a', y :: b' => (x <? y)%N || ((x =? y)%N && ltb a' b')
  end.

Fixpoint insertSorted (x : jsstring) (l : list jsstring) : list jsstring :=
  match l with
  | [] => [x]
  | y :: l' => if ltb x y then x :: l else y :: insertSorted x l'
  end.

(** [l.sort()]: stable, ascending by code units *)
Definition sort (l : list jsstring) : list jsstring :=
  foldr insertSorted [] l.

(** Decimal digits of a number, as template literals print an integer. *)
Fixpoint digitsFuel (fuel : nat) (n : N) (acc : jsstring) : jsstring :=
  match fuel with
  | O => acc
  | S f =>
      let acc' := (48 + n mod 10)%N :: acc in
      if (n <? 10)%N then acc' else digitsFuel f (n / 10)%N acc'
  end.

Definition decimal (n : N) : jsstring := digitsFuel (S (N.to_nat (N.log2 n))) n [].

End JS.

(** ** Regular expressions

    The constructs the scripts use, with the backtracking semantics of
    ECMA-262: alternatives are tried left to right, a greedy star tries one
    more iteration before the continuation and a lazy star the continuation
    first, and an iteration that consumes nothing is rejected.  The matcher
    is written in continuation-passing style; [prev] is the code unit before
    the current position (for [\b]). *)

Module Regex.

Inductive regex : Type :=
| Eps
| Cls (p : N -> bool)
| Cat (r1 r2 : regex)
| Alt (r1 r2 : regex)
| Star (greedy : bool) (r : regex)
| Grp (i : nat) (r : regex)
| WordB
| EndIn.

(** Captures: group number and captured text, most recent first. *)
Definition caps : Type := list (nat * jsstring).

Fixpoint getcap (i : nat) (c : caps) : option jsstring :=
  match c with
  | [] => None
  | (j, t) :: c' => if Nat.eqb i j then Some t else getcap i c'
  end.

Definition isWordO (o : option N) : bool :=
  match o with Some c => JS.isWord c | None => false end.

(** The loop of a star: [body] matches one iteration, [k] is what follows
    the star.  A greedy star tries one more iteration first, a lazy star
    the continuation first; an iteration that consumes nothing is
    rejected. *)
Fixpoint loopStar {R : Type}
    (body : option N -> jsstring -> caps ->
            (option N -> jsstring -> caps -> option R) -> option R)
    (greedy : bool) (k : option N -> jsstring -> caps -> option R)
    (fuel : nat) (prev : option N) (s : jsstring) (c : caps) {struct fuel} : option R :=
  let iter := fun _ : unit =>
    match fuel with
    | O => None
    | S fuel' =>
        body prev s c
          (fun p' s' c' =>
             if Nat.ltb (length s') (length s)
             then loopStar body greedy k fuel' p' s' c' else None)
    end in
  if greedy then match iter tt with Some x => Some x | None => k prev s c end
  else match k prev s c with Some x => Some x | None => iter tt end.

Fixpoint rmatch {R : Type} (r : regex) (prev : option N) (s : jsstring) (c : caps)
    (k : option N -> jsstring -> caps -> option R) {struct r} : option R :=
  match r with
  | Eps => k prev s c
  | Cls p =>
      match s with
      | x :: s' => if p x then k (Some x) s' c else None
      | [] => None
      end
  | Cat r1 r2 => rmatch r1 prev s c (fun p' s' c' => rmatch r2 p' s' c' k)
  | Alt r1 r2 =>
      match rmatch r1 prev s c k with
      | Some x => Some x
      | None => rmatch r2 prev s c k
      end
  | Star g r1 => loopStar (rmatch r1) g k (length s) prev s c
  | Grp i r1 =>
      rmatch r1 prev s c
        (fun p' s' c' => k p' s' ((i, take (length s - length s') s) :: c'))
  | WordB =>
      if xorb (isWordO prev) (isWordO (head s)) then k prev s c else None
  | EndIn =>
      match s with
      | [] => k prev s c
      | _ :: _ => None
      end
  end.

(** One successful match: the matched text, what follows it, the code
    unit before what follows, and the captures. *)
Record found : Type := Found {
  matched : jsstring;
  rest : jsstring;
  lastcu : option N;
  groups : caps
}.

(** [group m i] is [m[i]]; group 0 is the whole match. *)
Definition group (m : found) (i : nat) : option jsstring :=
  match i with
  | O => Some (matched m)
  | _ => getcap i (groups m)
  end.

(** A match that starts exactly at the current position. *)
Definition matchAt (r : regex) (prev : option N) (s : jsstring) : option found :=
  rmatch r prev s []
    (fun p' s' c' => Some (Found (take (length s - length s') s) s' p' c')).

(** The leftmost match at or after the current position, with the text
    skipped before it: [RegExp.prototype.exec] on a fresh expression. *)
Fixpoint execFrom (r : regex) (prev : option N) (s : jsstring) : option (jsstring * found) :=
  match matchAt r prev s with
  | Some m => Some ([], m)
  | None =>
      match s with
      | [] => None
      | x :: s' =>
          match execFrom r (Some x) s' with
          | Some (skipped, m) => Some (x :: skipped, m)
          | None => None
          end
      end
  end.

(** [s.match(r)] for [r] without the [g] flag *)
Definition exec (r : regex) (s : jsstring) : option found :=
  snd <$> execFrom r None s.

(** [s.replace(r, f)] for [r] with the [g] flag; [f] receives the matched
    text.  After an empty match the scan moves on by one code unit. *)
Fixpoint replaceFrom (r : regex) (f : jsstring -> jsstring) (fuel : nat)
    (prev : option N) (s : jsstring) : jsstring :=
  match fuel with
  | O => s
  | S fuel' =>
      let step := fun _ : unit =>
        match s with
        | [] => []
        | x :: s' => x :: replaceFrom r f fuel' (Some x) s'
        end in
      match matchAt r prev s with
      | Some m =>
          if Nat.ltb (length (rest m)) (length s)
          then f (matched m) ++ replaceFrom r f fuel' (lastcu m) (rest m)
          else f (matched m) ++ step tt
      | None => step tt
      end
  end.

Definition replaceAllWith (r : regex) (f : jsstring -> jsstring) (s : jsstring) : jsstring :=
  replaceFrom r f (S (length s)) None s.

(** [s.replace(r, t)] with the [g] flag and a replacement text without [$] *)
Definition replaceAll (r : regex) (t : jsstring) (s : jsstring) : jsstring :=
  replaceAllWith r (fun _ => t) s.

(** [s.replace(r, t)] without the [g] flag: the first match only *)
Definition replaceFirst (r : regex) (t : jsstring) (s : jsstring) : jsstring :=
  match execFrom r None s with
  | Some (skipped, m) => skipped ++ t ++ rest m
  | None => s
  end.

(** [[...s.matchAll(r)]]: every match, left to right. *)
Fixpoint matchAllFrom (r : regex) (fuel : nat) (prev : option N) (s : jsstring) : list found :=
  match fuel with
  | O => []
  | S fuel' =>
      let step := fun _ : unit =>
        match s with
        | [] => []
        | x :: s' => matchAllFrom r fuel' (Some x) s'
        end in
      match matchAt r prev s with
      | Some m =>
          if Nat.ltb (length (rest m)) (length s)
          then m :: matchAllFrom r fuel' (lastcu m) (rest m)
          else m :: step tt
      | None => step tt
      end
  end.

Definition matchAll (r : regex) (s : jsstring) : list found :=
  matchAllFrom r (S (length s)) None s.

(** [s.split(r)] for an expression without capture groups. [piece] holds,
    reversed, the code units since the end of the last separator. *)
Fixpoint splitFrom (r : regex) (fuel : nat) (prev : option N) (piece : jsstring)
    (s : jsstring) : list jsstring :=
  match fuel with
  | O => [rev piece ++ s]
  | S fuel' =>
      match s with
      | [] => [rev piece]
      | x :: s' =>
          let step := fun _ : unit => splitFrom r fuel' (Some x) (x :: piece) s' in
          match matchAt r prev s with
          | Some m =>
              match matched m, piece with
              | [], [] => step tt
              | _, _ => rev piece :: splitFrom r fuel' (lastcu m) [] (rest m)
              end
          | None => step tt
          end
      end
  end.

Definition split (r : regex) (s : jsstring) : list jsstring :=
  match s with
  | [] => match matchAt r None [] with Some _ => [] | None => [[]] end
  | _ :: _ => splitFrom r (2 * length s + 1) None [] s
  end.

(** *** Pattern combinators *)

Definition chr (c : N) : regex := Cls (N.eqb c).
Definition chrCI (c : N) : regex := Cls (JS.eqCI c).
Definition notChr (c : N) : regex := Cls (fun x => negb (N.eqb c x)).
Definition anyCU : regex := Cls (fun _ => true).
Definition space : regex := Cls JS.isSpace.
Definition digit : regex := Cls JS.isDigit.
Definition word : regex := Cls JS.isWord.

Fixpoint seq (l : list regex) : regex :=
  match l with
  | [] => Eps
  | [r] => r
  | r :: l' => Cat r (seq l')
  end.

Fixpoint alts (l : list regex) : regex :=
  match l with
  | [] => Cls (fun _ => false)
  | [r] => r
  | r :: l' => Alt r (alts l')
  end.

(** A literal, case-sensitive and under the [i] flag. *)
Definition lit (s : jsstring) : regex := seq (map chr s).
Definition litCI (s : jsstring) : regex := seq (map chrCI s).

Definition star (r : regex) : regex := Star true r.
Definition lazy (r : regex) : regex := Star false r.
Definition plus (r : regex) : regex := Cat r (Star true r).
Definition opt (r : regex) : regex := Alt r Eps.

Fixpoint times (n : nat) (r : regex) : regex :=
  match n with
  | O => Eps
  | S O => r
  | S n' => Cat r (times n' r)
  end.

End Regex.

(** ** SHA-256 and [hashString]

    [crypto.createHash('sha256').update(str).digest('hex')]: the string is
    encoded as UTF-8 (an unpaired surrogate as U+FFFD) and hashed as FIPS
    180-4 prescribes; words are 32-bit values held in [N]. *)

Module Sha256.

Definition w32 (x : N) : N := N.land x 0xffffffff.
Definition add32 (x y : N) : N := w32 (x + y).
Definition not32 (x : N) : N := N.lxor x 0xffffffff.
Definition rotr (n x : N) : N := N.lor (N.shiftr x n) (w32 (N.shiftl x (32 - n))).

Definition Ch (x y z : N) : N := N.lxor (N.land x y) (N.land (not32 x) z).
Definition Maj (x y z : N) : N :=
  N.lxor (N.lxor (N.land x y) (N.land x z)) (N.land y z).
Definition bigSigma0 (x : N) : N := N.lxor (N.lxor (rotr 2 x) (rotr 13 x)) (rotr 22 x).
Definition bigSigma1 (x : N) : N := N.lxor (N.lxor (rotr 6 x) (rotr 11 x)) (rotr 25 x).
Definition sigma0 (x : N) : N := N.lxor (N.lxor (rotr 7 x) (rotr 18 x)) (N.shiftr x 3).
Definition sigma1 (x : N) : N := N.lxor (N.lxor (rotr 17 x) (rotr 19 x)) (N.shiftr x 10).

(** The constants are derived as FIPS 180-4 defines them: the first 32
    bits of the fractional parts of the cube roots (for [K]) and of the
    square roots (for [H0]) of the first primes. *)
Fixpoint isPrimeFrom (fuel : nat) (d n : N) : bool :=
  match fuel with
  | O => true
  | S f =>
      if (n <? d * d)%N then true
      else if (n mod d =? 0)%N then false
      else isPrimeFrom f (d + 1)%N n
  end.

Fixpoint primesFrom (fuel count : nat) (n : N) : list N :=
  match fuel, count with
  | S f, S c =>
      if isPrimeFrom (N.to_nat n) 2 n then n :: primesFrom f c (n + 1)%N
      else primesFrom f (S c) (n + 1)%N
  | _, _ => []
  end.

(** The largest [x] below [2 ^ bits] with [x ^ k <= n]. *)
Fixpoint rootBits (k n : N) (bits : nat) (x : N) : N :=
  match bits with
  | O => x
  | S b =>
      let y := (x + 2 ^ N.of_nat b)%N in
      rootBits k n b (if (y ^ k <=? n)%N then y else x)
  end.

Definition K : list N :=
  Eval vm_compute in
    map (fun p => w32 (rootBits 3 (p * 2 ^ 96) 40 0))%N (primesFrom 400 64 2).

Definition H0 : list N :=
  Eval vm_compute in
    map (fun p => w32 (rootBits 2 (p * 2 ^ 64) 40 0))%N (primesFrom 400 8 2).

(** UTF-8 encoding of a sequence of UTF-16 code units. *)
Definition isHighSurrogate (c : N) : bool := ((0xd800 <=? c) && (c <=? 0xdbff))%N.
Definition isLowSurrogate (c : N) : bool := ((0xdc00 <=? c) && (c <=? 0xdfff))%N.

Definition utf8OfCodePoint (p : N) : list N :=
  (if p <? 0x80 then [p]
   else if p <? 0x800 then [0xc0 + p / 64; 0x80 + p mod 64]
   else if p <? 0x10000 then [0xe0 + p / 4096; 0x80 + (p / 64) mod 64; 0x80 + p mod 64]
   else [0xf0 + p / 262144; 0x80 + (p / 4096) mod 64; 0x80 + (p / 64) mod 64; 0x80 + p mod 64])%N.

Fixpoint utf8 (s : jsstring) : list N :=
  match s with
  | [] => []
  | c :: s' =>
      if isHighSurrogate c then
        match s' with
        | d :: s'' =>
            if isLowSurrogate d
            then utf8OfCodePoint (0x10000 + (c - 0xd800) * 1024 + (d - 0xdc00))%N ++ utf8 s''
            else utf8OfCodePoint 0xfffd ++ utf8 s'
        | [] => utf8OfCodePoint 0xfffd
        end
      else if isLowSurrogate c then utf8OfCodePoint 0xfffd ++ utf8 s'
      else utf8OfCodePoint c ++ utf8 s'
  end.

(** Padding: a 1 bit, zeros up to 56 modulo 64 bytes, then the length of
    the message in bits as a 64-bit big-endian number. *)
Definition bigEndian (bytes : nat) (x : N) : list N :=
  map (fun i => (N.shiftr x (8 * N.of_nat i) mod 256)%N) (rev (seq 0 bytes)).

Definition pad (m : list N) : list N :=
  let n := length m in
  m ++ [128%N] ++ repeat 0%N ((119 - n mod 64) mod 64) ++ bigEndian 8 (8 * N.of_nat n).

Fixpoint wordsOf (fuel : nat) (bytes : list N) : list N :=
  match fuel, bytes with
  | S f, a :: b :: c :: d :: tl =>
      (a * 16777216 + b * 65536 + c * 256 + d)%N :: wordsOf f tl
  | _, _ => []
  end.

(** Message schedule; [w] lists the words computed so far, newest first. *)
Fixpoint schedule (n : nat) (w : list N) : list N :=
  match n with
  | O => w
  | S n' =>
      let x := add32 (add32 (sigma1 (nth 1 w 0%N)) (nth 6 w 0%N))
                     (add32 (sigma0 (nth 14 w 0%N)) (nth 15 w 0%N)) in
      schedule n' (x :: w)
  end.

Record regs : Type := Regs { ra : N; rb : N; rc : N; rd : N; re : N; rf : N; rg : N; rh : N }.

Definition round (v : regs) (kw : N * N) : regs :=
  let t1 := add32 (add32 (add32 (rh v) (bigSigma1 (re v))) (add32 (Ch (re v) (rf v) (rg v)) (fst kw))) (snd kw) in
  let t2 := add32 (bigSigma0 (ra v)) (Maj (ra v) (rb v) (rc v)) in
  Regs (add32 t1 t2) (ra v) (rb v) (rc v) (add32 (rd v) t1) (re v) (rf v) (rg v).

Definition addRegs (x y : regs) : regs :=
  Regs (add32 (ra x) (ra y)) (add32 (rb x) (rb y)) (add32 (rc x) (rc y)) (add32 (rd x) (rd y))
       (add32 (re x) (re y)) (add32 (rf x) (rf y)) (add32 (rg x) (rg y)) (add32 (rh x) (rh y)).

Definition compress (h : regs) (block : list N) : regs :=
  let w := rev (schedule 48 (rev (wordsOf 16 block))) in
  addRegs h (fold_left round (combine K w) h).

Fixpoint blocks (fuel : nat) (h : regs) (bytes : list N) : regs :=
  match fuel with
  | O => h
  | S f =>
      match bytes with
      | [] => h
      | _ :: _ => blocks f (compress h (take 64 bytes)) (drop 64 bytes)
      end
  end.

Definition initial : regs :=
  Regs (nth 0 H0 0%N) (nth 1 H0 0%N) (nth 2 H0 0%N) (nth 3 H0 0%N)
       (nth 4 H0 0%N) (nth 5 H0 0%N) (nth 6 H0 0%N) (nth 7 H0 0%N).

Definition digest (bytes : list N) : regs :=
  let p := pad bytes in blocks (length p) initial p.

Definition hexDigit (d : N) : N := (if d <? 10 then 48 + d else 87 + d)%N.

Definition hexWord (x : N) : jsstring :=
  [hexDigit (N.shiftr x 28 mod 16); hexDigit (N.shiftr x 24 mod 16);
   hexDigit (N.shiftr x 20 mod 16); hexDigit (N.shiftr x 16 mod 16);
   hexDigit (N.shiftr x 12 mod 16); hexDigit (N.shiftr x 8 mod 16);
   hexDigit (N.shiftr x 4 mod 16); hexDigit (x mod 16)]%N.

(** [.digest('hex')] *)
Definition hex (v : regs) : jsstring :=
  hexWord (ra v) ++ hexWord (rb v) ++ hexWord (rc v) ++ hexWord (rd v) ++
  hexWord (re v) ++ hexWord (rf v) ++ hexWord (rg v) ++ hexWord (rh v).

Definition sha256hex (s : jsstring) : jsstring := hex (digest (utf8 s)).

End Sha256.

(** [hashString]: the first 16 hexadecimal digits of the SHA-256 digest. *)
Definition hashString (str : jsstring) : jsstring :=
  JS.substring 0 16 (Sha256.sha256hex str).

(** ** Functions the two polling scripts share

    [cleanHTML], [extractTitle] and [parsePublishedDate] appear verbatim in
    both scripts; they are embedded once.  Each regular expression of the
    source is written out as a [regex] value next to the call that uses
    it; in these comments [Q] stands for the double-quote character. *)

Module Html.
Import Regex.

Definition quote : N := 34%N.
Definition newline : jsstring := [10%N].
Definition blank : jsstring := [32%N].

(** [/<script\b[\s\S]*?<\/script>/gi] and its six siblings *)
Definition blockRe (tag : jsstring) : regex :=
  seq [litCI (js "<" ++ tag); WordB; lazy anyCU; litCI (js "</" ++ tag ++ js ">")].

Definition blockTags : list jsstring :=
  [js "script"; js "style"; js "nav"; js "header"; js "footer"; js "aside"; js "noscript"].

Definition removeBlock (tag : jsstring) (s : jsstring) : jsstring :=
  replaceAll (blockRe tag) [] s.

(** The seven removals, in the order of the source. *)
Definition removeBlocks (s : jsstring) : jsstring :=
  fold_left (fun acc tag => removeBlock tag acc) blockTags s.

(** [/<\/(?:p|div|h[1-6]|li|tr|br|hr)[^>]*>/gi] *)
Definition closingBlockRe : regex :=
  seq [lit (js "</");
       alts [litCI (js "p"); litCI (js "div");
             Cat (chrCI 104) (Cls (fun c => (49 <=? c) && (c <=? 54))%N);
             litCI (js "li"); litCI (js "tr"); litCI (js "br"); litCI (js "hr")];
       star (notChr 62); chr 62].

(** [/<(?:br|hr)\s*\/?>/gi] *)
Definition lineBreakRe : regex :=
  seq [chr 60; alts [litCI (js "br"); litCI (js "hr")]; star space; opt (chr 47); chr 62].

(** [/<[^>]+>/g] *)
Definition tagRe : regex := seq [chr 60; plus (notChr 62); chr 62].

(** The named and numeric entities that are decoded, in source order. *)
Definition entities : list (jsstring * jsstring) :=
  [(js "&nbsp;", blank); (js "&amp;", js "&"); (js "&lt;", js "<"); (js "&gt;", js ">");
   (js "&quot;", [quote]); (js "&#39;", js "'"); (js "&rsquo;", js "'");
   (js "&lsquo;", js "'"); (js "&rdquo;", [quote]); (js "&ldquo;", [quote]);
   (js "&mdash;", [8212%N]); (js "&ndash;", [8211%N])].

Definition decodeEntities (s : jsstring) : jsstring :=
  fold_left (fun acc e => replaceAll (litCI (fst e)) (snd e) acc) entities s.

(** [/&#\d+;/gi] *)
Definition numericEntityRe : regex := seq [lit (js "&#"); plus digit; chr 59].

Definition spaceOrTab : regex := Cls (fun c => (c =? 32) || (c =? 9))%N.

(** Everything [cleanHTML] does after the seven block removals. *)
Definition cleanTail (s : jsstring) : jsstring :=
  let s := replaceAll closingBlockRe newline s in
  let s := replaceAll lineBreakRe newline s in
  let s := replaceAll tagRe blank s in
  let s := decodeEntities s in
  let s := replaceAll numericEntityRe [] s in
  let s := replaceAll (plus spaceOrTab) blank s in             (* /[ \t]+/g *)
  let s := replaceAll (Cat (chr 10) (plus spaceOrTab)) newline s in  (* /\n[ \t]+/g *)
  let s := replaceAll (seq [times 3 (chr 10); star (chr 10)]) (newline ++ newline) s in (* /\n{3,}/g *)
  JS.trim s.

Definition cleanHTML (html : jsstring) : jsstring := cleanTail (removeBlocks html).

(** [.replace(/<[^>]+>/g, '').replace(/\s+/g, ' ').trim()] *)
Definition plainText (s : jsstring) : jsstring :=
  JS.trim (replaceAll (plus space) blank (replaceAll tagRe [] s)).

(** [/<name[^>]*>([\s\S]*?)<\/name>/i] *)
Definition elementRe (name : jsstring) : regex :=
  seq [litCI (js "<" ++ name); star (notChr 62); chr 62; Grp 1 (lazy anyCU);
       litCI (js "</" ++ name ++ js ">")].

(** [.] : any code unit but a line terminator *)
Definition dot : regex :=
  Cls (fun c => negb ((c =? 10) || (c =? 13) || (c =? 8232) || (c =? 8233)))%N.

(** [/\s*[\|–—-]\s*(NICE|NHS|England|ARTP|NCL).*$/i] *)
Definition siteSuffixRe : regex :=
  seq [star space;
       Cls (fun c => (c =? 124) || (c =? 8211) || (c =? 8212) || (c =? 45))%N;
       star space;
       Grp 1 (alts [litCI (js "NICE"); litCI (js "NHS"); litCI (js "England");
                    litCI (js "ARTP"); litCI (js "NCL")]);
       star dot; EndIn].

Definition extractTitle (html : jsstring) : jsstring :=
  match exec (elementRe (js "title")) html with
  | Some titleTag =>
      JS.trim (replaceFirst siteSuffixRe [] (plainText (default [] (group titleTag 1))))
  | None =>
      match exec (elementRe (js "h1")) html with
      | Some h1 => plainText (default [] (group h1 1))
      | None => js "Untitled"
      end
  end.

(** [/<meta[^>]*(?:name|property)=Q(?:article:published_time|datePublished|date)Q[^>]*content=Q([^Q]+)Q/i] *)
Definition metaDateRe : regex :=
  seq [litCI (js "<meta"); star (notChr 62);
       alts [litCI (js "name"); litCI (js "property")]; chr 61; chr quote;
       alts [litCI (js "article:published_time"); litCI (js "datePublished"); litCI (js "date")];
       chr quote; star (notChr 62); litCI (js "content="); chr quote;
       Grp 1 (plus (notChr quote)); chr quote].

(** [/<time[^>]*datetime=Q([^Q]+)Q/i] *)
Definition timeRe : regex :=
  seq [litCI (js "<time"); star (notChr 62); litCI (js "datetime="); chr quote;
       Grp 1 (plus (notChr quote)); chr quote].

(** [null] is [None]. *)
Definition parsePublishedDate (html : jsstring) : option jsstring :=
  match exec metaDateRe html with
  | Some metaDate => Some (JS.beforeSep 84 (default [] (group metaDate 1)))
  | None =>
      match exec timeRe html with
      | Some timeEl => Some (JS.beforeSep 84 (default [] (group timeEl 1)))
      | None => None
      end
  end.

(** [/<div[^>]*class=Q[^Q]*NAME[^Q]*Q[^>]*>([\s\S]*?)<\/div>\s*<(?:div|footer|nav)/i] *)
Definition divAfter (attr : regex) : regex :=
  seq [litCI (js "<div"); star (notChr 62); attr; star (notChr 62); chr 62;
       Grp 1 (lazy anyCU); litCI (js "</div>"); star space; chr 60;
       alts [litCI (js "div"); litCI (js "footer"); litCI (js "nav")]].

Definition divClassRe (name : jsstring) : regex :=
  divAfter (seq [litCI (js "class="); chr quote; star (notChr quote); litCI name;
                 star (notChr quote); chr quote]).

(** [/<div[^>]*id=QcontentQ[^>]*>([\s\S]*?)<\/div>\s*<(?:div|footer|nav)/i] *)
Definition divIdContentRe : regex :=
  divAfter (seq [litCI (js "id="); chr quote; litCI (js "content"); chr quote]).

(** The loop over content patterns: the first pattern that matches with
    more than 100 captured code units decides. *)
Fixpoint firstLongMatch (patterns : list regex) (html : jsstring) : option jsstring :=
  match patterns with
  | [] => None
  | pattern :: more =>
      match exec pattern html with
      | Some m =>
          let inner := default [] (group m 1) in
          if Nat.ltb 100 (length inner) then Some inner else firstLongMatch more html
      | None => firstLongMatch more html
      end
  end.

(** [bodyMatch ? cleanHTML(bodyMatch[1]) : cleanHTML(html)] *)
Definition bodyOrDocument (html : jsstring) : jsstring :=
  match exec (elementRe (js "body")) html with
  | Some bodyMatch => cleanHTML (default [] (group bodyMatch 1))
  | None => cleanHTML html
  end.

End Html.

(** ** Persisted documents

    The five JSON documents under [data/].  Each is a JavaScript object used
    as a map from string keys to records. *)

Inductive Source : Type := nice | ncl | nhs | artp.

#[global] Instance Source_eq_dec : EqDecision Source.
Proof. solve_decision. Defined.

Definition sourceName (s : Source) : jsstring :=
  match s with
  | nice => js "nice"
  | ncl => js "ncl"
  | nhs => js "nhs"
  | artp => js "artp"
  end.

Record Metadata : Type := {
  wordCount : N;
  estimatedReadTime : N;
  description : jsstring
}.

(** An entry of [guidance.json]. *)
Record StoredArticle : Type := {
  id : jsstring;
  url : jsstring;
  title : jsstring;
  source : Source;
  type : jsstring;
  publishedDate : jsstring;
  fetchedDate : jsstring;
  contentHash : jsstring;
  content : jsstring;
  parentUrl : option jsstring;
  metadata : Metadata
}.

Inductive ChangeType : Type := new_guidance | content_update.

(** An entry of [changes.json]; [previousHash] is [null] when [None]. *)
Record ChangeEvent : Type := {
  ce_id : jsstring;
  ce_url : jsstring;
  ce_title : jsstring;
  ce_source : Source;
  changeType : ChangeType;
  detectedAt : jsstring;
  previousHash : option jsstring;
  newHash : jsstring;
  acknowledged : bool
}.

(** An entry of [seen.json].  Only the feed pipeline records a description
    and a publication date (which may itself be [null]). *)
Record SeenEntry : Type := {
  se_url : jsstring;
  se_title : jsstring;
  se_description : option jsstring;
  se_discovered : jsstring;
  se_publishedDate : option (option jsstring);
  se_source : Source
}.

(** An entry of [page-hashes.json]. *)
Record PageFingerprint : Type := {
  pf_url : jsstring;
  pf_hash : jsstring;
  lastChecked : jsstring;
  lastChanged : jsstring;
  articlesFound : nat;
  newArticlesFound : nat
}.

Record SourceConfig : Type := {
  enabled : option bool;
  keywords : option (list jsstring);
  excludeKeywords : option (list jsstring);
  rssOnly : option bool
}.

Record Sources : Type := {
  src_nice : option SourceConfig;
  src_ncl : option SourceConfig;
  src_nhs : option SourceConfig;
  src_artp : option SourceConfig
}.

Record PollerResults : Type := {
  res_nice : nat;
  res_ncl : nat;
  res_nhs : nat;
  res_total : nat
}.

Record RunStats : Type := {
  rssPoller : option jsstring;
  rssPollerResults : option PollerResults;
  htmlPoller : option jsstring
}.

(** [config.json] *)
Record Config : Type := {
  sources : option Sources;
  lastRunStats : option RunStats;
  unreadChanges : option N
}.

(** The documents a run holds in memory between reading and writing them. *)
Record Store : Type := {
  seen : gmap jsstring SeenEntry;
  guidance : gmap jsstring StoredArticle;
  changes : gmap jsstring ChangeEvent;
  pageHashes : gmap jsstring PageFingerprint;
  config : Config
}.

Definition setSeen (f : gmap jsstring SeenEntry -> gmap jsstring SeenEntry) (s : Store) : Store :=
  {| seen := f (seen s); guidance := guidance s; changes := changes s;
     pageHashes := pageHashes s; config := config s |}.

Definition setGuidance (f : gmap jsstring StoredArticle -> gmap jsstring StoredArticle)
    (s : Store) : Store :=
  {| seen := seen s; guidance := f (guidance s); changes := changes s;
     pageHashes := pageHashes s; config := config s |}.

Definition setChanges (f : gmap jsstring ChangeEvent -> gmap jsstring ChangeEvent)
    (s : Store) : Store :=
  {| seen := seen s; guidance := guidance s; changes := f (changes s);
     pageHashes := pageHashes s; config := config s |}.

Definition setPageHashes (f : gmap jsstring PageFingerprint -> gmap jsstring PageFingerprint)
    (s : Store) : Store :=
  {| seen := seen s; guidance := guidance s; changes := changes s;
     pageHashes := f (pageHashes s); config := config s |}.

Definition setConfig (f : Config -> Config) (s : Store) : Store :=
  {| seen := seen s; guidance := guidance s; changes := changes s;
     pageHashes := pageHashes s; config := f (config s) |}.

(** [config.sources?.[source]] *)
Definition sourceConfig (c : Config) (s : Source) : option SourceConfig :=
  match sources c with
  | Some ss =>
      match s with
      | nice => src_nice ss
      | ncl => src_ncl ss
      | nhs => src_nhs ss
      | artp => src_artp ss
      end
  | None => None
  end.

(** [config.sources?.[source]?.enabled !== false] *)
Definition isEnabled (c : Config) (s : Source) : bool :=
  match sourceConfig c s with
  | Some sc => match enabled sc with Some false => false | _ => true end
  | None => true
  end.

(** [config.unreadChanges = (config.unreadChanges || 0) + 1] *)
Definition bumpUnread (c : Config) : Config :=
  {| sources := sources c; lastRunStats := lastRunStats c;
     unreadChanges := Some (default 0%N (unreadChanges c) + 1)%N |}.

(** ** The world outside and the effects of a run

    A run reads the clock and fetches pages.  [World] answers the [t]-th
    such request of a run; every request advances [t], so that the same
    address may answer differently later.  The built-in functions whose
    tables are not part of the repository are the fields of [Runtime]. *)

Record Runtime : Type := {
  (** [String.prototype.toLowerCase] *)
  toLowerCase : jsstring -> jsstring;
  (** [new Date(ms).toISOString()] *)
  toISOString : Z -> jsstring;
  (** [new Date(text)]: its time value, [None] for an invalid date *)
  parseDate : jsstring -> option Z
}.

Inductive Response : Type :=
| Page (body : jsstring)       (** a 2xx response and its text *)
| HttpError (status : jsstring) (** [!response.ok] *)
| NetworkError (message : jsstring). (** [fetch] itself rejected *)

Record World : Type := {
  respond : nat -> jsstring -> Response;
  clock : nat -> Z
}.

Inductive Completion (A : Type) : Type :=
| Normal (a : A)
| Throw (error : jsstring).
Arguments Normal {A} a.
Arguments Throw {A} error.

(** A computation over a state [St]: from the request counter and the state
    to a completion with the new counter and state.  What was assigned
    before an exception stays assigned. *)
Definition Eff (St A : Type) : Type := nat -> St -> Completion A * nat * St.

Definition ret {St A : Type} (a : A) : Eff St A := fun t s => (Normal a, t, s).

Definition bind {St A B : Type} (m : Eff St A) (f : A -> Eff St B) : Eff St B :=
  fun t s =>
    match m t s with
    | (Normal a, t', s') => f a t' s'
    | (Throw e, t', s') => (Throw e, t', s')
    end.

Definition throw {St A : Type} (e : jsstring) : Eff St A := fun t s => (Throw e, t, s).

(** [try { m } catch (err) { h err }] *)
Definition tryCatch {St A : Type} (m : Eff St A) (h : jsstring -> Eff St A) : Eff St A :=
  fun t s =>
    match m t s with
    | (Normal a, t', s') => (Normal a, t', s')
    | (Throw e, t', s') => h e t' s'
    end.

Definition get {St : Type} : Eff St St := fun t s => (Normal s, t, s).
Definition modify {St : Type} (f : St -> St) : Eff St unit := fun t s => (Normal tt, t, f s).

(** The computations of the polling scripts, over the five documents. *)
Abbreviation M := (Eff Store).

Declare Scope js_scope.
Delimit Scope js_scope with js.
Notation "x <- m ;; k" := (bind m (fun x => k))
  (at level 100, m at next level, right associativity) : js_scope.
Notation "m ;;; k" := (bind m (fun _ => k))
  (at level 100, right associativity) : js_scope.
Open Scope js_scope.

(** [for (const x of l) { f x }] *)
Fixpoint forEach {St A : Type} (f : A -> Eff St unit) (l : list A) : Eff St unit :=
  match l with
  | [] => ret tt
  | x :: l' => f x ;;; forEach f l'
  end.

(** A loop that carries local variables [B] from one round to the next. *)
Fixpoint forEachWith {St A B : Type} (f : A -> B -> Eff St B) (l : list A) (b : B)
    : Eff St B :=
  match l with
  | [] => ret b
  | x :: l' => b' <- f x b ;; forEachWith f l' b'
  end.

Section Effects.
Variable rt : Runtime.
Variable w : World.

(** [fetchPage]: rejects on a network error or a response that is not 2xx. *)
Definition fetchPage (url : jsstring) : M jsstring :=
  fun t s =>
    match respond w t url with
    | Page body => (Normal body, S t, s)
    | HttpError status => (Throw (js "HTTP " ++ status ++ js " for " ++ url), S t, s)
    | NetworkError message => (Throw message, S t, s)
    end.

(** [Date.now()] *)
Definition dateNow : M Z := fun t s => (Normal (clock w t), S t, s).

(** [new Date().toISOString()] *)
Definition nowISO : M jsstring := fun t s => (Normal (toISOString rt (clock w t)), S t, s).

End Effects.

(** [${n}] for an integer time value *)
Definition decimalZ (z : Z) : jsstring :=
  match z with
  | Zneg p => 45%N :: JS.decimal (Npos p)
  | _ => JS.decimal (Z.to_N z)
  end.

(** [content.split(/\s+/).length] *)
Definition countWords (content : jsstring) : N :=
  N.of_nat (length (Regex.split (Regex.plus Regex.space) content)).

(** [Math.ceil(wordCount / 250)] *)
Definition readTime (wordCount : N) : N := ((wordCount + 249) / 250)%N.

(** The files under [data/]; [None] is a file that is missing or does not
    parse, which [readData] replaces with its default. *)
Record Files : Type := {
  seen_json : option (gmap jsstring SeenEntry);
  guidance_json : option (gmap jsstring StoredArticle);
  changes_json : option (gmap jsstring ChangeEvent);
  page_hashes_json : option (gmap jsstring PageFingerprint);
  config_json : option Config
}.

(** [hasChanged]: [existing && existing.contentHash !== contentHash] *)
Definition hashDiffers (existing : option StoredArticle) (h : jsstring) : bool :=
  match existing with
  | Some e => bool_decide (contentHash e ≠ h)
  | None => false
  end.

(** [existing?.contentHash || null] *)
Definition priorHash (existing : option StoredArticle) : option jsstring :=
  match existing with
  | Some e => if JS.truthy (contentHash e) then Some (contentHash e) else None
  | None => None
  end.

(** [kws.some(kw => text.includes(kw.toLowerCase()))] *)
Definition someKeyword (rt : Runtime) (kws : list jsstring) (text : jsstring) : bool :=
  existsb (fun kw => JS.includes (toLowerCase rt kw) text) kws.

(** ** [scripts/poll-rss.js] *)

Module PollRss.
Import Regex Html.

Definition PRIMARY_CARE_KEYWORDS : list jsstring :=
  [js "diabetes"; js "hypertension"; js "ckd"; js "chronic kidney"; js "cardiovascular";
   js "lipids"; js "cholesterol"; js "respiratory"; js "asthma"; js "copd";
   js "mental health"; js "depression"; js "anxiety"; js "infection"; js "antibiotic";
   js "contraception"; js "thyroid"; js "anticoagulation"; js "warfarin";
   js "cancer screening"; js "cervical"; js "bowel screening"; js "breast screening";
   js "heart failure"; js "atrial fibrillation"; js "stroke"; js "obesity";
   js "dementia"; js "osteoporosis"; js "primary care"].

Definition PA_INCLUDE_KEYWORDS : list jsstring :=
  [js "guideline"; js "guidance"; js "pathway"; js "protocol"; js "recommendation";
   js "clinical"; js "diagnosis"; js "treatment"; js "management"; js "referral";
   js "screening"; js "monitoring"; js "alert"; js "safety"; js "update"; js "bulletin";
   js "reminder";
   js "diabetes"; js "hypertension"; js "ckd"; js "chronic kidney"; js "cardiovascular";
   js "lipids"; js "cholesterol"; js "respiratory"; js "asthma"; js "copd";
   js "mental health"; js "depression"; js "anxiety"; js "infection"; js "antibiotic";
   js "contraception"; js "thyroid"; js "anticoagulation"; js "warfarin";
   js "cancer"; js "heart failure"; js "atrial fibrillation"; js "stroke"; js "obesity";
   js "dementia"; js "osteoporosis"; js "metabolic"; js "musculoskeletal";
   js "arthritis"; js "gout"; js "eczema"; js "dermatology"; js "epilepsy";
   js "patient"; js "primary care"; js "gp "].

Definition PA_EXCLUDE_KEYWORDS : list jsstring :=
  [js "student training"; js "sample container"; js "proficiency testing";
   js "external quality"; js "practice manager"; js "practice vacancy";
   js "job vacancy"; js "phlebotomy training"; js "gpit"; js "it support";
   js "protected learning time"; js "webinar registration"; js "training event";
   js "training course"; js "staff survey"; js "practice administrator";
   js "workforce planning"; js "greener nhs"; js "carbon footprint";
   js "information governance"; js "systems & facilitation"; js "buying group";
   js "digital innovation"; js "practice vacancies"; js "research opportunities";
   js "ambulance"; js "handover"; js "waiting list";
   js "medicines supply"; js "supply notification"; js "medicines shortage"].

Record ChapterLink : Type := { ch_url : jsstring; ch_title : jsstring }.

(** [patternSets[source] || patternSets.nhs] *)
Definition patternSet (source : Source) : list regex :=
  match source with
  | nice => [divClassRe (js "chapter"); divIdContentRe; elementRe (js "main");
             elementRe (js "article")]
  | ncl => [elementRe (js "article"); divClassRe (js "content"); elementRe (js "main")]
  | _ => [divClassRe (js "entry-content"); elementRe (js "article"); elementRe (js "main")]
  end.

(** [/<a[^>]*href=Q(\/guidance\/[^\/]+\/chapter\/[^Q]+)Q[^>]*>([\s\S]*?)<\/a>/gi] *)
Definition chapterPattern : regex :=
  seq [litCI (js "<a"); star (notChr 62); litCI (js "href="); chr quote;
       Grp 1 (seq [litCI (js "/guidance/"); plus (notChr 47); litCI (js "/chapter/");
                   plus (notChr quote)]);
       chr quote; star (notChr 62); chr 62; Grp 2 (lazy anyCU); litCI (js "</a>")].

Fixpoint chapterLoop (chapterMatches : list found) (seenUrls : gset jsstring) : list ChapterLink :=
  match chapterMatches with
  | [] => []
  | m :: more =>
      let chapterUrl := js "https://www.nice.org.uk" ++ default [] (group m 1) in
      if decide (chapterUrl ∈ seenUrls) then chapterLoop more seenUrls
      else
        let title := plainText (default [] (group m 2)) in
        if JS.truthy title
        then {| ch_url := chapterUrl; ch_title := title |}
               :: chapterLoop more ({[chapterUrl]} ∪ seenUrls)
        else chapterLoop more ({[chapterUrl]} ∪ seenUrls)
  end.

Definition extractContent (html : jsstring) (source : Source) : jsstring * list ChapterLink :=
  let content :=
    match firstLongMatch (patternSet source) html with
    | Some inner => cleanHTML inner
    | None => []
    end in
  let content := if JS.truthy content then content else bodyOrDocument html in
  let chapterLinks :=
    match source with
    | nice => chapterLoop (matchAll chapterPattern html) ∅
    | _ => []
    end in
  (content, chapterLinks).

(** The [metadata] argument of [crawlAndStore]. *)
Record CrawlMeta : Type := {
  m_title : option jsstring;
  m_publishedDate : option jsstring;
  m_description : option jsstring
}.

Definition titleOnly (t : jsstring) : CrawlMeta :=
  {| m_title := Some t; m_publishedDate := None; m_description := None |}.

Section Scripts.
Variable rt : Runtime.
Variable w : World.

(** [crawlAndStore].  The recursion into chapters is guarded by
    [crawlDepth < maxDepth]; the function recurses on the gap
    [maxDepth - crawlDepth], which is all it uses of the two numbers. *)
Fixpoint crawlAndStoreGap (gap : nat) (url : jsstring) (source : Source) (type : jsstring)
    (metadata : CrawlMeta) (parentUrl : option jsstring) {struct gap} : M unit :=
  fetched <- tryCatch (html <- fetchPage w url ;; ret (Some html)) (fun _ => ret None) ;;
  match fetched with
  | None => ret tt
  | Some html =>
      let (content, chapterLinks) := extractContent html source in
      let title := JS.orElse (m_title metadata) (extractTitle html) in
      if negb (JS.truthy content) || Nat.ltb (length content) 50 then ret tt
      else
        let contentHash := hashString content in
        let urlHash := hashString url in
        let storageKey := js "content:" ++ urlHash in
        s <- get ;;
        let existing := guidance s !! storageKey in
        let isNew := bool_decide (existing = None) in
        let hasChanged := hashDiffers existing contentHash in
        if negb isNew && negb hasChanged then ret tt
        else
          now <- nowISO rt w ;;
          let wordCount := countWords content in
          modify (setGuidance (insert storageKey
            {| id := storageKey;
               url := url;
               title := title;
               source := source;
               type := JS.or type (js "article");
               publishedDate :=
                 JS.orElse (m_publishedDate metadata)
                   (JS.orElse (parsePublishedDate html) (JS.beforeSep 84 now));
               fetchedDate := now;
               contentHash := contentHash;
               content := content;
               parentUrl :=
                 match parentUrl with
                 | Some p => if JS.truthy p then Some p else None
                 | None => None
                 end;
               metadata :=
                 {| wordCount := wordCount;
                    estimatedReadTime := readTime wordCount;
                    description :=
                      JS.orElse (m_description metadata) (JS.substring 0 200 content) |}
            |})) ;;;
          let changeType := if isNew then new_guidance else content_update in
          ms <- dateNow w ;;
          let changeKey := js "change:" ++ decimalZ ms ++ js ":" ++ urlHash in
          modify (setChanges (insert changeKey
            {| ce_id := changeKey;
               ce_url := url;
               ce_title := title;
               ce_source := source;
               changeType := changeType;
               detectedAt := now;
               previousHash := priorHash existing;
               newHash := contentHash;
               acknowledged := false |})) ;;;
          modify (setConfig bumpUnread) ;;;
          match source, gap with
          | nice, S gap' =>
              forEach (fun chapter =>
                         crawlAndStoreGap gap' (ch_url chapter) nice (js "chapter")
                           (titleOnly (title ++ js " " ++ [8212%N] ++ js " " ++ ch_title chapter))
                           (Some url))
                      chapterLinks
          | _, _ => ret tt
          end
  end.

Definition crawlAndStore (url : jsstring) (source : Source) (type : jsstring)
    (metadata : CrawlMeta) (crawlDepth maxDepth : nat) (parentUrl : option jsstring) : M unit :=
  crawlAndStoreGap (maxDepth - crawlDepth) url source type metadata parentUrl.

(** The last statement of [crawlAndStore] on its own: the crawl of the
    chapters of a page stored under [url] with title [title]. *)
Definition crawlChapters (gap : nat) (source : Source) (title url : jsstring)
    (chapterLinks : list ChapterLink) : M unit :=
  match source, gap with
  | nice, S gap' =>
      forEach (fun chapter =>
                 crawlAndStoreGap gap' (ch_url chapter) nice (js "chapter")
                   (titleOnly (title ++ js " " ++ [8212%N] ++ js " " ++ ch_title chapter))
                   (Some url))
              chapterLinks
  | _, _ => ret tt
  end.

(** [/<a[^>]*href=Q(\/guidance\/(?:ng|cg|ph|qs|ta|dg|ipg|hst|es|mtg)\d+)Q[^>]*>([\s\S]*?)<\/a>/gi] *)
Definition guidancePattern : regex :=
  seq [litCI (js "<a"); star (notChr 62); litCI (js "href="); chr quote;
       Grp 1 (seq [litCI (js "/guidance/");
                   alts [litCI (js "ng"); litCI (js "cg"); litCI (js "ph"); litCI (js "qs");
                         litCI (js "ta"); litCI (js "dg"); litCI (js "ipg"); litCI (js "hst");
                         litCI (js "es"); litCI (js "mtg")];
                   plus digit]);
       chr quote; star (notChr 62); chr 62; Grp 2 (lazy anyCU); litCI (js "</a>")].

(** One round of the loop of [fetchNICEGuidance]; the local variables
    are the set [seenUrls] and [count]. *)
Definition niceItem (keywords : list jsstring) (m : found)
    (loc : gset jsstring * nat) : M (gset jsstring * nat) :=
  let (seenUrls, count) := loc in
  let path := default [] (group m 1) in
  if decide (path ∈ seenUrls) then ret loc
  else
    let seenUrls := {[path]} ∪ seenUrls in
    let guidanceUrl := js "https://www.nice.org.uk" ++ path in
    let title := plainText (default [] (group m 2)) in
    if negb (JS.truthy title) then ret (seenUrls, count)
    else
      let titleLower := toLowerCase rt title in
      if Nat.ltb 0 (length keywords) && negb (someKeyword rt keywords titleLower)
      then ret (seenUrls, count)
      else
        let hash := hashString guidanceUrl in
        let seenKey := js "nice:" ++ hash in
        s <- get ;;
        if bool_decide (is_Some (seen s !! seenKey)) then ret (seenUrls, count)
        else
          discovered <- nowISO rt w ;;
          modify (setSeen (insert seenKey
            {| se_url := guidanceUrl; se_title := title; se_description := None;
               se_discovered := discovered; se_publishedDate := None;
               se_source := nice |})) ;;;
          crawlAndStore guidanceUrl nice (js "guidance") (titleOnly title) 0 1 None ;;;
          ret (seenUrls, S count).

Definition fetchNICEGuidance : M nat :=
  fetched <- tryCatch
               (html <- fetchPage w (js "https://www.nice.org.uk/guidance/published?ngt=Guidelines&ps=50") ;;
                ret (Some html))
               (fun _ => ret None) ;;
  match fetched with
  | None => ret 0
  | Some html =>
      s <- get ;;
      let keywords :=
        match sourceConfig (config s) nice with
        | Some sc => default PRIMARY_CARE_KEYWORDS (keywords sc)
        | None => PRIMARY_CARE_KEYWORDS
        end in
      loc <- forEachWith (niceItem keywords) (matchAll guidancePattern html) (∅, 0) ;;
      ret (snd loc)
  end.

(** A feed item after the four extractions: title, link, publication
    date ([null] when absent or blank) and description. *)
Record FeedItem : Type := {
  fi_title : jsstring;
  fi_link : jsstring;
  fi_pubDate : option jsstring;
  fi_description : jsstring
}.

(** [/<tag><!\[CDATA\[([\s\S]*?)\]\]><\/tag>/i] *)
Definition cdataRe (tag : jsstring) : regex :=
  seq [litCI (js "<" ++ tag ++ js "><![CDATA["); Grp 1 (lazy anyCU);
       litCI (js "]]></" ++ tag ++ js ">")].

(** [/<tag>([\s\S]*?)<\/tag>/i] *)
Definition plainRe (tag : jsstring) : regex :=
  seq [litCI (js "<" ++ tag ++ js ">"); Grp 1 (lazy anyCU); litCI (js "</" ++ tag ++ js ">")].

(** [(m?.[1] || '')] *)
Definition captured (m : option found) : jsstring :=
  match m with
  | Some f => default [] (group f 1)
  | None => []
  end.

(** [a || b] on match results: a match, even of nothing, is truthy. *)
Definition orMatch (a b : option found) : option found :=
  match a with
  | Some _ => a
  | None => b
  end.

Definition parseItem (itemXml : jsstring) : FeedItem :=
  let titleMatch := orMatch (exec (cdataRe (js "title")) itemXml)
                            (exec (plainRe (js "title")) itemXml) in
  let linkMatch := exec (plainRe (js "link")) itemXml in
  let pubDateMatch := exec (plainRe (js "pubDate")) itemXml in
  let descMatch := orMatch (exec (cdataRe (js "description")) itemXml)
                           (exec (plainRe (js "description")) itemXml) in
  {| fi_title := JS.trim (replaceAll tagRe [] (captured titleMatch));
     fi_link := JS.trim (captured linkMatch);
     fi_pubDate :=
       (let d := JS.trim (captured pubDateMatch) in
        if JS.truthy d then Some d else None);
     fi_description := JS.trim (replaceAll tagRe [] (captured descMatch)) |}.

(** [(title + ' ' + description).toLowerCase()] *)
Definition textToCheck (item : FeedItem) : jsstring :=
  toLowerCase rt (fi_title item ++ js " " ++ fi_description item).

(** The relevance filter of the feed pipeline: [true] when the item goes
    on to the seen check. *)
Definition relevant (includeKeywords excludeKeywords : list jsstring) (item : FeedItem) : bool :=
  if someKeyword rt excludeKeywords (textToCheck item) then false
  else if Nat.ltb 0 (length includeKeywords)
          && negb (someKeyword rt includeKeywords (textToCheck item)) then false
  else true.

(** The [rssOnly] branch: the description of the item is stored as it
    is, without fetching the page.  [toISOString] of an invalid date
    throws a RangeError. *)
Definition storeRssOnly (source : Source) (item : FeedItem) (hash : jsstring)
    (count : nat) : M nat :=
  let storageKey := js "content:" ++ hash in
  let content := JS.or (fi_description item) (fi_title item) in
  let contentHash := hashString content in
  s <- get ;;
  let existing := guidance s !! storageKey in
  let isNew := bool_decide (existing = None) in
  let hasChanged := hashDiffers existing contentHash in
  if isNew || hasChanged then
    now <- nowISO rt w ;;
    let wordCount := countWords content in
    published <-
      match fi_pubDate item with
      | Some pubDate =>
          match parseDate rt pubDate with
          | Some time => ret (JS.beforeSep 84 (toISOString rt time))
          | None => throw (js "RangeError: Invalid time value")
          end
      | None => ret (JS.beforeSep 84 now)
      end ;;
    modify (setGuidance (insert storageKey
      {| id := storageKey;
         url := fi_link item;
         title := fi_title item;
         source := source;
         type := js "article";
         publishedDate := published;
         fetchedDate := now;
         contentHash := contentHash;
         content := content;
         parentUrl := None;
         metadata :=
           {| wordCount := wordCount;
              estimatedReadTime := N.max 1 (readTime wordCount);
              description := JS.substring 0 200 content |}
      |})) ;;;
    ms <- dateNow w ;;
    let changeKey := js "change:" ++ decimalZ ms ++ js ":" ++ hash in
    modify (setChanges (insert changeKey
      {| ce_id := changeKey;
         ce_url := fi_link item;
         ce_title := fi_title item;
         ce_source := source;
         changeType := if isNew then new_guidance else content_update;
         detectedAt := now;
         previousHash := priorHash existing;
         newHash := contentHash;
         acknowledged := false |})) ;;;
    modify (setConfig bumpUnread) ;;;
    ret (S count)
  else ret count.

(** One round of the loop of [fetchRSSSource]; [count] is the local
    variable. *)
Definition rssItem (source : Source) (includeKeywords excludeKeywords : list jsstring)
    (rssOnly : bool) (itemMatch : found) (count : nat) : M nat :=
  let item := parseItem (default [] (group itemMatch 1)) in
  if negb (JS.truthy (fi_title item)) || negb (JS.truthy (fi_link item)) then ret count
  else if negb (relevant includeKeywords excludeKeywords item) then ret count
  else
    let hash := hashString (fi_link item) in
    let seenKey := sourceName source ++ js ":" ++ hash in
    s <- get ;;
    if bool_decide (is_Some (seen s !! seenKey)) then ret count
    else
      discovered <- nowISO rt w ;;
      modify (setSeen (insert seenKey
        {| se_url := fi_link item; se_title := fi_title item;
           se_description := Some (JS.substring 0 500 (fi_description item));
           se_discovered := discovered;
           se_publishedDate := Some (fi_pubDate item);
           se_source := source |})) ;;;
      if rssOnly then storeRssOnly source item hash count
      else
        crawlAndStore (fi_link item) source (js "article")
          {| m_title := Some (fi_title item);
             m_publishedDate := fi_pubDate item;
             m_description := Some (JS.substring 0 500 (fi_description item)) |}
          0 0 None ;;;
        ret (S count).

Definition fetchRSSSource (url : jsstring) (source : Source) : M nat :=
  fetched <- tryCatch (xml <- fetchPage w url ;; ret (Some xml)) (fun _ => ret None) ;;
  match fetched with
  | None => ret 0
  | Some xml =>
      let items := matchAll (plainRe (js "item")) xml in
      s <- get ;;
      let sc := sourceConfig (config s) source in
      let includeKeywords :=
        match sc with
        | Some c => default PA_INCLUDE_KEYWORDS (keywords c)
        | None => PA_INCLUDE_KEYWORDS
        end in
      let excludeKeywords :=
        match sc with
        | Some c => default PA_EXCLUDE_KEYWORDS (excludeKeywords c)
        | None => PA_EXCLUDE_KEYWORDS
        end in
      let rssOnly :=
        match sc with
        | Some c => bool_decide (rssOnly c = Some true)
        | None => false
        end in
      forEachWith (rssItem source includeKeywords excludeKeywords rssOnly) items 0
  end.

(** The configuration used when [config.json] cannot be read. *)
Definition defaultConfig : Config :=
  let on := {| enabled := Some true; keywords := None; excludeKeywords := None;
               rssOnly := None |} in
  {| sources :=
       Some {| src_nice := Some {| enabled := Some true;
                                   keywords := Some PRIMARY_CARE_KEYWORDS;
                                   excludeKeywords := None; rssOnly := None |};
               src_ncl := Some on; src_nhs := Some on; src_artp := Some on |};
     lastRunStats := Some {| rssPoller := None; rssPollerResults := None;
                             htmlPoller := None |};
     unreadChanges := Some 0%N |}.

(** The body of [main] between reading and writing the documents. *)
Definition run : M unit :=
  _ <- nowISO rt w ;;
  s <- get ;;
  rNice <- (if isEnabled (config s) nice then fetchNICEGuidance else ret 0) ;;
  s <- get ;;
  rNcl <- (if isEnabled (config s) ncl
           then fetchRSSSource (js "https://gps.northcentrallondon.icb.nhs.uk/news/rss") ncl
           else ret 0) ;;
  s <- get ;;
  rNhs <- (if isEnabled (config s) nhs
           then fetchRSSSource (js "https://www.england.nhs.uk/feed/") nhs
           else ret 0) ;;
  finished <- nowISO rt w ;;
  modify (setConfig (fun c =>
    let stats := default {| rssPoller := None; rssPollerResults := None;
                            htmlPoller := None |} (lastRunStats c) in
    {| sources := sources c;
       lastRunStats :=
         Some {| rssPoller := Some finished;
                 rssPollerResults :=
                   Some {| res_nice := rNice; res_ncl := rNcl; res_nhs := rNhs;
                           res_total := rNice + rNcl + rNhs |};
                 htmlPoller := htmlPoller stats |};
       unreadChanges := unreadChanges c |})).

(** [main]: read the documents, run, write them back.  An exception
    ends the process with exit code 1 before anything is written;
    [page-hashes.json] is not touched by this script. *)
Definition main (files : Files) : nat * Files :=
  let s0 := {| seen := default ∅ (seen_json files);
               guidance := default ∅ (guidance_json files);
               changes := default ∅ (changes_json files);
               pageHashes := ∅;
               config := default defaultConfig (config_json files) |} in
  match run 0 s0 with
  | (Normal _, _, s) =>
      (0, {| seen_json := Some (seen s);
             guidance_json := Some (guidance s);
             changes_json := Some (changes s);
             page_hashes_json := page_hashes_json files;
             config_json := Some (config s) |})
  | (Throw _, _, _) => (1, files)
  end.

End Scripts.
End PollRss.

(** ** The ARTP HTML poller *)

Module PollArtp.
Import Regex Html.

Definition PA_EXCLUDE_KEYWORDS : list jsstring :=
  [js "student training"; js "student scheme"; js "sample container";
   js "proficiency testing"; js "external quality"; js "eqa"; js "quality control";
   js "qc scheme"; js "technician training"; js "training scheme"; js "training course";
   js "job vacancy"; js "practice vacancy"; js "workforce"].

Definition extractARTPContent (html : jsstring) : jsstring :=
  match firstLongMatch [divClassRe (js "article-body"); elementRe (js "article");
                        divClassRe (js "content"); elementRe (js "main")] html with
  | Some inner => cleanHTML inner
  | None => bodyOrDocument html
  end.

Record ArticleLink : Type := {
  al_url : jsstring;
  al_id : jsstring;
  al_title : jsstring;
  al_date : option jsstring
}.

(** [/<a[^>]*href=Q(\/news\/(\d+)\/([^Q]+))Q[^>]*>([\s\S]*?)<\/a>/gi] *)
Definition articlePattern : regex :=
  seq [litCI (js "<a"); star (notChr 62); litCI (js "href="); chr quote;
       Grp 1 (seq [litCI (js "/news/"); Grp 2 (plus digit); chr 47;
                   Grp 3 (plus (notChr quote))]);
       chr quote; star (notChr 62); chr 62; Grp 4 (lazy anyCU); litCI (js "</a>")].

(** [/(\d{2}\/\d{2}\/\d{4})/] *)
Definition datePattern : regex :=
  Grp 1 (seq [times 2 digit; chr 47; times 2 digit; chr 47; times 4 digit]).

(** [slug.replace(/_/g, ' ').replace(/\b\w/g, c => c.toUpperCase())] *)
Definition titleFromSlug (slug : jsstring) : jsstring :=
  replaceAllWith (Cat WordB word) (map JS.asciiUpper) (replaceAll (chr 95) blank slug).

(** The text within 500 code units of the first occurrence of the path;
    [indexOf] answers -1 when there is none. *)
Definition surrounding (html articlePath : jsstring) : jsstring :=
  match JS.indexOf articlePath html with
  | Some i => JS.substring (i - 500) (Nat.min (length html) (i + 500)) html
  | None => JS.substring 0 (Nat.min (length html) 499) html
  end.

Fixpoint articleLoop (html : jsstring) (matches : list found) (seen : gset jsstring)
    : list ArticleLink :=
  match matches with
  | [] => []
  | m :: more =>
      let articlePath := default [] (group m 1) in
      let id := default [] (group m 2) in
      let slug := default [] (group m 3) in
      if decide (id ∈ seen) then articleLoop html more seen
      else
        let fullUrl := js "https://www.artp.org.uk" ++ articlePath in
        let title := plainText (default [] (group m 4)) in
        let title :=
          if negb (JS.truthy title) || Nat.ltb (length title) 3
          then titleFromSlug slug else title in
        let date :=
          match exec datePattern (surrounding html articlePath) with
          | Some dateMatch => group dateMatch 1
          | None => None
          end in
        {| al_url := fullUrl; al_id := id; al_title := title; al_date := date |}
          :: articleLoop html more ({[id]} ∪ seen)
  end.

Definition extractARTPArticleLinks (html : jsstring) : list ArticleLink :=
  articleLoop html (matchAll articlePattern html) ∅.

Section Scripts.
Variable rt : Runtime.
Variable w : World.

(** [crawlAndStoreARTP]; its [seen] argument is not used. *)
Definition crawlAndStoreARTP (url title : jsstring) (date : option jsstring) : M unit :=
  fetched <- tryCatch (html <- fetchPage w url ;; ret (Some html)) (fun _ => ret None) ;;
  match fetched with
  | None => ret tt
  | Some html =>
      let content := extractARTPContent html in
      let resolvedTitle := JS.or title (extractTitle html) in
      if negb (JS.truthy content) || Nat.ltb (length content) 50 then ret tt
      else
        let contentHash := hashString content in
        let urlHash := hashString url in
        let storageKey := js "content:" ++ urlHash in
        s <- get ;;
        let existing := guidance s !! storageKey in
        let isNew := bool_decide (existing = None) in
        let hasChanged := hashDiffers existing contentHash in
        if negb isNew && negb hasChanged then ret tt
        else
          now <- nowISO rt w ;;
          let wordCount := countWords content in
          modify (setGuidance (insert storageKey
            {| id := storageKey;
               url := url;
               title := resolvedTitle;
               source := artp;
               type := js "article";
               publishedDate :=
                 JS.orElse date (JS.orElse (parsePublishedDate html) (JS.beforeSep 84 now));
               fetchedDate := now;
               contentHash := contentHash;
               content := content;
               parentUrl := None;
               metadata :=
                 {| wordCount := wordCount;
                    estimatedReadTime := readTime wordCount;
                    description := JS.substring 0 200 content |}
            |})) ;;;
          let changeType := if isNew then new_guidance else content_update in
          ms <- dateNow w ;;
          let changeKey := js "change:" ++ decimalZ ms ++ js ":" ++ urlHash in
          modify (setChanges (insert changeKey
            {| ce_id := changeKey;
               ce_url := url;
               ce_title := resolvedTitle;
               ce_source := artp;
               changeType := changeType;
               detectedAt := now;
               previousHash := priorHash existing;
               newHash := contentHash;
               acknowledged := false |})) ;;;
          modify (setConfig bumpUnread)
  end.

(** One round of the loop of [checkARTPNews]; [newCount] is the local
    variable and [now] the timestamp taken before the loop. *)
Definition artpItem (excludeKeywords : list jsstring) (now : jsstring)
    (article : ArticleLink) (newCount : nat) : M nat :=
  let hash := hashString (al_url article) in
  let seenKey := js "artp:" ++ hash in
  s <- get ;;
  if bool_decide (is_Some (seen s !! seenKey)) then ret newCount
  else
    let titleLower := toLowerCase rt (al_title article) in
    if someKeyword rt excludeKeywords titleLower then ret newCount
    else
      modify (setSeen (insert seenKey
        {| se_url := al_url article; se_title := al_title article;
           se_description := None; se_discovered := now;
           se_publishedDate := None; se_source := artp |})) ;;;
      crawlAndStoreARTP (al_url article) (al_title article) (al_date article) ;;;
      ret (S newCount).

(** The key of the listing page in [page-hashes.json]. *)
Definition pageKey : jsstring := js "artp-news".

(** [articleLinks.map(a => a.url).sort().join('|')], hashed *)
Definition listingHash (articleLinks : list ArticleLink) : jsstring :=
  hashString (JS.join (js "|") (JS.sort (map al_url articleLinks))).

(** [stored?.hash || null] *)
Definition cachedHash (stored : option PageFingerprint) : option jsstring :=
  match stored with
  | Some pf => if JS.truthy (pf_hash pf) then Some (pf_hash pf) else None
  | None => None
  end.

(** [{ ...stored, lastChecked: now }] *)
Definition touch (stored : PageFingerprint) (now : jsstring) : PageFingerprint :=
  {| pf_url := pf_url stored; pf_hash := pf_hash stored; lastChecked := now;
     lastChanged := lastChanged stored; articlesFound := articlesFound stored;
     newArticlesFound := newArticlesFound stored |}.

(** [previousHash && currentHash === previousHash] *)
Definition listingUnchanged (previousHash : option jsstring) (currentHash : jsstring) : bool :=
  match previousHash with
  | Some h => bool_decide (currentHash = h)
  | None => false
  end.

(** [checkARTPNews].  When the listing is unchanged [previousHash] is
    not [null], so that [stored] is an entry. *)
Definition checkARTPNews : M unit :=
  let url := js "https://www.artp.org.uk/news" in
  fetched <- tryCatch (html <- fetchPage w url ;; ret (Some html)) (fun _ => ret None) ;;
  match fetched with
  | None => ret tt
  | Some html =>
      let articleLinks := extractARTPArticleLinks html in
      let currentHash := listingHash articleLinks in
      s <- get ;;
      let stored := pageHashes s !! pageKey in
      let previousHash := cachedHash stored in
      now <- nowISO rt w ;;
      match listingUnchanged previousHash currentHash, stored with
      | true, Some pf => modify (setPageHashes (insert pageKey (touch pf now)))
      | _, _ =>
          let excludeKeywords :=
            match sourceConfig (config s) artp with
            | Some sc => default PA_EXCLUDE_KEYWORDS (excludeKeywords sc)
            | None => PA_EXCLUDE_KEYWORDS
            end in
          newCount <- forEachWith (artpItem excludeKeywords now) articleLinks 0 ;;
          modify (setPageHashes (insert pageKey
            {| pf_url := url;
               pf_hash := currentHash;
               lastChecked := now;
               lastChanged :=
                 if Nat.ltb 0 newCount then now
                 else match stored with
                      | Some pf => JS.or (lastChanged pf) now
                      | None => now
                      end;
               articlesFound := length articleLinks;
               newArticlesFound := newCount |}))
      end
  end.

Definition defaultConfig : Config :=
  {| sources :=
       Some {| src_nice := None; src_ncl := None; src_nhs := None;
               src_artp := Some {| enabled := Some true; keywords := None;
                                   excludeKeywords := None; rssOnly := None |} |};
     lastRunStats := Some {| rssPoller := None; rssPollerResults := None;
                             htmlPoller := None |};
     unreadChanges := Some 0%N |}.

(** The body of [main] between reading and writing the documents. *)
Definition run : M unit :=
  _ <- nowISO rt w ;;
  s <- get ;;
  (if isEnabled (config s) artp then checkARTPNews else ret tt) ;;;
  finished <- nowISO rt w ;;
  modify (setConfig (fun c =>
    let stats := default {| rssPoller := None; rssPollerResults := None;
                            htmlPoller := None |} (lastRunStats c) in
    {| sources := sources c;
       lastRunStats :=
         Some {| rssPoller := rssPoller stats;
                 rssPollerResults := rssPollerResults stats;
                 htmlPoller := Some finished |};
       unreadChanges := unreadChanges c |})).

(** [main]: all five documents are read and, unless an exception ends
    the process, written back. *)
Definition main (files : Files) : nat * Files :=
  let s0 := {| seen := default ∅ (seen_json files);
               guidance := default ∅ (guidance_json files);
               changes := default ∅ (changes_json files);
               pageHashes := default ∅ (page_hashes_json files);
               config := default defaultConfig (config_json files) |} in
  match run 0 s0 with
  | (Normal _, _, s) =>
      (0, {| seen_json := Some (seen s);
             guidance_json := Some (guidance s);
             changes_json := Some (changes s);
             page_hashes_json := Some (pageHashes s);
             config_json := Some (config s) |})
  | (Throw _, _, _) => (1, files)
  end.

End Scripts.
End PollArtp.

(** ** The data client of the dashboard

    [loadData] and [Api.search].  The client keeps the parsed documents in
    module-level variables; a JSON object is kept as the list of its
    entries, in document order, which is the order of [Object.values]. *)

Module Client.

Record Cache : Type := {
  _guidance : option (list (jsstring * StoredArticle));
  _changes : option (list (jsstring * ChangeEvent));
  _config : option Config;
  _lastFetch : Z
}.

(** What a [fetch] of a data file, followed by [.json()], comes to. *)
Inductive JsonResponse (A : Type) : Type :=
| Json (doc : A)     (** [res.ok], and the body parses *)
| NotOk              (** [!res.ok] *)
| Malformed          (** [res.ok], but [res.json()] rejects *)
| Unreachable.       (** [fetch] itself rejects *)
Arguments Json {A} doc.
Arguments NotOk {A}.
Arguments Malformed {A}.
Arguments Unreachable {A}.

Record Browser : Type := {
  now : nat -> Z;
  guidanceFile : nat -> JsonResponse (list (jsstring * StoredArticle));
  changesFile : nat -> JsonResponse (list (jsstring * ChangeEvent));
  configFile : nat -> JsonResponse Config
}.

(** The computations of the client, over its module-level variables. *)
Abbreviation C := (Eff Cache).

Definition CACHE_TTL : Z := 5 * 60 * 1000.

Definition isUnreachable {A : Type} (r : JsonResponse A) : bool :=
  match r with Unreachable => true | _ => false end.

Definition emptyConfig : Config :=
  {| sources := None; lastRunStats := None; unreadChanges := None |}.

Inductive MatchType : Type := byTitle | byContent.

Record SearchItem : Type := {
  r_id : jsstring;
  r_url : jsstring;
  r_title : jsstring;
  r_source : Source;
  r_publishedDate : jsstring;
  r_fetchedDate : jsstring;
  excerpt : jsstring;
  r_wordCount : N;
  matchType : MatchType
}.

Record SearchResult : Type := {
  items : list SearchItem;
  total : nat;
  query : jsstring
}.

(** [Array.prototype.sort] with a comparator: stable; a comparator
    result of [NaN] ([None]) counts as 0.  Where the comparator is not a
    consistent order the engine may arrange the elements differently, but
    always returns a permutation. *)
Fixpoint insertBy {A : Type} (cmp : A -> A -> option Z) (x : A) (l : list A) : list A :=
  match l with
  | [] => [x]
  | y :: l' =>
      if (0 <? default 0 (cmp x y))%Z then y :: insertBy cmp x l' else x :: l
  end.

Definition sortBy {A : Type} (cmp : A -> A -> option Z) (l : list A) : list A :=
  foldr (insertBy cmp) [] l.

Section Api.
Variable rt : Runtime.
Variable b : Browser.

Definition loadData (force : bool) : C unit :=
  fun t c =>
    let time := now b t in
    if negb force && bool_decide (is_Some (_guidance c))
       && (time - _lastFetch c <? CACHE_TTL)%Z
    then (Normal tt, S t, c)
    else
      let guidanceRes := guidanceFile b (S t) in
      let changesRes := changesFile b (S t) in
      let configRes := configFile b (S t) in
      let t' := S (S t) in
      if isUnreachable guidanceRes || isUnreachable changesRes || isUnreachable configRes
      then (Throw (js "TypeError: Failed to fetch"), t', c)
      else
        match guidanceRes with
        | Malformed => (Throw (js "SyntaxError"), t', c)
        | _ =>
            let g := match guidanceRes with Json d => d | _ => [] end in
            let c1 := {| _guidance := Some g; _changes := _changes c;
                         _config := _config c; _lastFetch := _lastFetch c |} in
            match changesRes with
            | Malformed => (Throw (js "SyntaxError"), t', c1)
            | _ =>
                let ch := match changesRes with Json d => d | _ => [] end in
                let c2 := {| _guidance := Some g; _changes := Some ch;
                             _config := _config c; _lastFetch := _lastFetch c |} in
                match configRes with
                | Malformed => (Throw (js "SyntaxError"), t', c2)
                | _ =>
                    let cf := match configRes with Json d => d | _ => emptyConfig end in
                    (Normal tt, t',
                     {| _guidance := Some g; _changes := Some ch;
                        _config := Some cf; _lastFetch := time |})
                end
            end
        end.

(** [new Date(a.publishedDate || a.fetchedDate)] as a time value *)
Definition dateOf (a : SearchItem) : option Z :=
  parseDate rt (JS.or (r_publishedDate a) (r_fetchedDate a)).

(** The comparator of the sort in [search]. *)
Definition byRelevance (x y : SearchItem) : option Z :=
  match matchType x, matchType y with
  | byTitle, byContent => Some (-1)%Z
  | byContent, byTitle => Some 1%Z
  | _, _ =>
      match dateOf y, dateOf x with
      | Some dateB, Some dateA => Some (dateB - dateA)%Z
      | _, _ => None
      end
  end.

(** One round of the loop of [search]: the entry it pushes, if any.
    [wanted] is the [source] argument, [None] for ['all']. *)
Definition searchItem (q : jsstring) (wanted : option Source) (item : StoredArticle)
    : option SearchItem :=
  if match wanted with
     | Some src => bool_decide (source item ≠ src)
     | None => false
     end
  then None
  else
    let titleMatch := JS.includes q (toLowerCase rt (title item)) in
    let contentMatch := JS.includes q (toLowerCase rt (content item)) in
    if negb titleMatch && negb contentMatch then None
    else
      let excerpt :=
        if contentMatch && JS.truthy (content item) then
          let idx := default 0 (JS.indexOf q (toLowerCase rt (content item))) in
          let start := idx - 100 in
          let stop := Nat.min (length (content item)) (idx + length q + 100) in
          (if Nat.ltb 0 start then js "..." else [])
            ++ JS.substring start stop (content item)
            ++ (if Nat.ltb stop (length (content item)) then js "..." else [])
        else description (metadata item) in
      Some {| r_id := id item;
              r_url := url item;
              r_title := title item;
              r_source := source item;
              r_publishedDate := publishedDate item;
              r_fetchedDate := fetchedDate item;
              excerpt := excerpt;
              r_wordCount := wordCount (metadata item);
              matchType := if titleMatch then byTitle else byContent |}.

Definition emptyResult : SearchResult := {| items := []; total := 0; query := [] |}.

(** [Api.search(query, source)] *)
Definition search (query : jsstring) (wanted : option Source) : C SearchResult :=
  fun t c =>
    match loadData false t c with
    | (Throw e, t', c') => (Throw e, t', c')
    | (Normal _, t', c') =>
        let q := JS.trim (toLowerCase rt query) in
        if negb (JS.truthy q) || Nat.ltb (length q) 2 then (Normal emptyResult, t', c')
        else
          let results :=
            omap (fun kv => searchItem q wanted (snd kv)) (default [] (_guidance c')) in
          let results := sortBy byRelevance results in
          (Normal {| items := take 50 results; total := length results; query := query |},
           t', c')
    end.

End Api.
End Client.

(** The key under which the page at [url] is stored. *)
Definition storageKey (url : jsstring) : jsstring := js "content:" ++ hashString url.

(** ** The rest of the data client

    [Api.getStats], the lists, the acknowledgements and the saved items.
    Besides the cache of [loadData] the client keeps two items in
    [localStorage], each a JSON object from ids to flags.  The client only
    tests a flag for truthiness and only ever writes [true], so a flag is
    kept as its truth value; [setItem] is taken to succeed. *)

Module Dashboard.
Import Client.

(** The state of the page: the cache, and the items [cgm-acknowledged] and
    [cgm-saved]; [None] is an item that is absent or does not parse. *)
Record Tab : Type := {
  cache : Cache;
  cgm_acknowledged : option (gmap jsstring bool);
  cgm_saved : option (gmap jsstring bool)
}.

Abbreviation T := (Eff Tab).

Definition setCache (c : Cache) (s : Tab) : Tab :=
  {| cache := c; cgm_acknowledged := cgm_acknowledged s; cgm_saved := cgm_saved s |}.

(** [JSON.parse(localStorage.getItem('cgm-acknowledged') || '{}')], with
    [{}] when parsing throws *)
Definition getAcknowledged : T (gmap jsstring bool) :=
  fun t s => (Normal (default ∅ (cgm_acknowledged s)), t, s).

Definition setAcknowledged (data : gmap jsstring bool) : T unit :=
  modify (fun s => {| cache := cache s; cgm_acknowledged := Some data;
                      cgm_saved := cgm_saved s |}).

Definition getSavedIds : T (gmap jsstring bool) :=
  fun t s => (Normal (default ∅ (cgm_saved s)), t, s).


(** [obj[id]] as a condition: a missing flag is [undefined] *)
Definition flagged (obj : gmap jsstring bool) (id : jsstring) : bool :=
  default false (obj !! id).

(** [Object.values(doc)] and [Object.keys(doc)] need an object: [null]
    makes them throw. *)
Definition entriesOf {A : Type} (doc : option (list (jsstring * A)))
    : T (list (jsstring * A)) :=
  match doc with
  | Some d => ret d
  | None => throw (js "TypeError: Cannot convert undefined or null to object")
  end.

Record GuidanceCount : Type := {
  n_nice : nat;
  n_ncl : nat;
  n_nhs : nat;
  n_artp : nat;
  n_total : nat
}.

Record Stats : Type := {
  guidanceCount : GuidanceCount;
  totalChanges : nat;
  st_unreadChanges : nat;
  lastUpdate : RunStats;
  st_sources : Sources
}.

(** One round of the first loop of [getStats]. *)
Definition countItem (counts : GuidanceCount) (item : StoredArticle) : GuidanceCount :=
  match source item with
  | nice => {| n_nice := S (n_nice counts); n_ncl := n_ncl counts; n_nhs := n_nhs counts;
               n_artp := n_artp counts; n_total := S (n_total counts) |}
  | ncl => {| n_nice := n_nice counts; n_ncl := S (n_ncl counts); n_nhs := n_nhs counts;
              n_artp := n_artp counts; n_total := S (n_total counts) |}
  | nhs => {| n_nice := n_nice counts; n_ncl := n_ncl counts; n_nhs := S (n_nhs counts);
              n_artp := n_artp counts; n_total := S (n_total counts) |}
  | artp => {| n_nice := n_nice counts; n_ncl := n_ncl counts; n_nhs := n_nhs counts;
               n_artp := S (n_artp counts); n_total := S (n_total counts) |}
  end.

(** One round of the second loop; the pair is [totalChanges] and
    [unreadChanges]. *)
Definition countChange (ack : gmap jsstring bool) (n : nat * nat) (change : ChangeEvent)
    : nat * nat :=
  (S (fst n),
   if negb (acknowledged change) && negb (flagged ack (ce_id change))
   then S (snd n) else snd n).

(** The summary of an article in the list view. *)
Record Summary : Type := {
  s_id : jsstring;
  s_url : jsstring;
  s_title : jsstring;
  s_source : Source;
  s_type : jsstring;
  s_publishedDate : jsstring;
  s_fetchedDate : jsstring;
  s_excerpt : jsstring;
  s_wordCount : N;
  s_estimatedReadTime : N;
  s_parentUrl : option jsstring
}.

Definition summary (item : StoredArticle) : Summary :=
  {| s_id := id item;
     s_url := url item;
     s_title := title item;
     s_source := source item;
     s_type := type item;
     s_publishedDate := publishedDate item;
     s_fetchedDate := fetchedDate item;
     s_excerpt := JS.or (description (metadata item)) (JS.substring 0 200 (content item));
     s_wordCount := wordCount (metadata item);
     s_estimatedReadTime := estimatedReadTime (metadata item);
     s_parentUrl := parentUrl item |}.

Record GuidancePage : Type := {
  g_items : list Summary;
  g_total : nat;
  g_limit : nat;
  g_offset : nat
}.

Record ChangesPage : Type := {
  c_items : list ChangeEvent;
  c_total : nat;
  c_unread : nat;
  c_limit : nat;
  c_offset : nat
}.

Record SavedList : Type := {
  sv_items : list StoredArticle;
  sv_total : nat
}.

(** [{ ...change, acknowledged: change.acknowledged || !!acknowledged[change.id] }] *)
Definition merged (ack : gmap jsstring bool) (change : ChangeEvent) : ChangeEvent :=
  {| ce_id := ce_id change; ce_url := ce_url change; ce_title := ce_title change;
     ce_source := ce_source change; changeType := changeType change;
     detectedAt := detectedAt change; previousHash := previousHash change;
     newHash := newHash change;
     acknowledged := acknowledged change || flagged ack (ce_id change) |}.

(** [l.slice(offset, offset + limit)] for natural numbers, as the
    dashboard passes them *)
Definition slice {A : Type} (offset limit : nat) (l : list A) : list A :=
  take limit (drop offset l).

(** [doc[id]]: the value of the entry with this key *)
Definition entry {A : Type} (doc : list (jsstring * A)) (key : jsstring) : option A :=
  snd <$> List.find (fun kv => bool_decide (fst kv = key)) doc.

Section Api.
Variable rt : Runtime.
Variable b : Browser.

(** [await loadData()] *)
Definition load : T unit :=
  fun t s =>
    match loadData b false t (cache s) with
    | (r, t', c') => (r, t', setCache c' s)
    end.

(** [_lastFetch = 0] *)
Definition forceRefresh : T unit :=
  modify (fun s =>
    setCache {| _guidance := _guidance (cache s); _changes := _changes (cache s);
                _config := _config (cache s); _lastFetch := 0 |} s).

(** The comparator [(a, b) => new Date(b...) - new Date(a...)]: newest
    first; the difference is [NaN] when either date is invalid. *)
Definition newestFirst {A : Type} (date : A -> jsstring) (x y : A) : option Z :=
  match parseDate rt (date y), parseDate rt (date x) with
  | Some dateB, Some dateA => Some (dateB - dateA)%Z
  | _, _ => None
  end.

(** [a.publishedDate || a.fetchedDate] *)
Definition articleDate (a : StoredArticle) : jsstring :=
  JS.or (publishedDate a) (fetchedDate a).

Definition getStats : T Stats :=
  load ;;;
  ack <- getAcknowledged ;;
  s <- get ;;
  guidance <- entriesOf (_guidance (cache s)) ;;
  let counts :=
    fold_left countItem (map snd guidance)
      {| n_nice := 0; n_ncl := 0; n_nhs := 0; n_artp := 0; n_total := 0 |} in
  changes <- entriesOf (_changes (cache s)) ;;
  let n := fold_left (countChange ack) (map snd changes) (0, 0) in
  match _config (cache s) with
  | None => throw (js "TypeError: Cannot read properties of null")
  | Some cfg =>
      ret {| guidanceCount := counts;
             totalChanges := fst n;
             st_unreadChanges := snd n;
             lastUpdate :=
               default {| rssPoller := None; rssPollerResults := None; htmlPoller := None |}
                       (lastRunStats cfg);
             st_sources :=
               default {| src_nice := None; src_ncl := None; src_nhs := None;
                          src_artp := None |} (sources cfg) |}
  end.

(** [Api.getGuidance({ source, limit, offset })]; [wanted] is [None] for
    ['all']. *)
Definition getGuidance (wanted : option Source) (limit offset : nat) : T GuidancePage :=
  load ;;;
  s <- get ;;
  guidance <- entriesOf (_guidance (cache s)) ;;
  let items := map snd guidance in
  let items :=
    match wanted with
    | Some src => List.filter (fun i => bool_decide (source i = src)) items
    | None => items
    end in
  let items := sortBy (newestFirst articleDate) items in
  let mapped := map summary items in
  ret {| g_items := slice offset limit mapped;
         g_total := length mapped;
         g_limit := limit;
         g_offset := offset |}.


Definition getChanges (limit offset : nat) : T ChangesPage :=
  load ;;;
  ack <- getAcknowledged ;;
  s <- get ;;
  changes <- entriesOf (_changes (cache s)) ;;
  let items := map (merged ack) (map snd changes) in
  let items := sortBy (newestFirst detectedAt) items in
  let unread := length (List.filter (fun i => negb (acknowledged i)) items) in
  ret {| c_items := slice offset limit items;
         c_total := length items;
         c_unread := unread;
         c_limit := limit;
         c_offset := offset |}.

(** [Api.acknowledgeChange(id)]; the answer [{ success: true }] is [tt]. *)
Definition acknowledgeChange (key : jsstring) : T unit :=
  ack <- getAcknowledged ;;
  setAcknowledged (<[key := true]> ack) ;;;
  forceRefresh.

Definition acknowledgeAll : T unit :=
  load ;;;
  ack <- getAcknowledged ;;
  s <- get ;;
  changes <- entriesOf (_changes (cache s)) ;;
  setAcknowledged (fold_left (fun ack key => <[key := true]> ack) (map fst changes) ack) ;;;
  forceRefresh.




Definition getSavedGuidance : T SavedList :=
  load ;;;
  saved <- getSavedIds ;;
  s <- get ;;
  guidance <- entriesOf (_guidance (cache s)) ;;
  let items := List.filter (fun item => flagged saved (id item)) (map snd guidance) in
  let items := sortBy (newestFirst articleDate) items in
  ret {| sv_items := items; sv_total := length items |}.


End Api.
End Dashboard.

(** ** Sample documents

    A runtime, a few pages and feeds and the worlds that serve them; the
    examples below are evaluated on these. *)

Module Samples.

(** Lowercasing of ASCII letters, which is what [toLowerCase] does on
    ASCII text; every date prints as the same instant. *)
Definition runtime : Runtime :=
  {| toLowerCase := map JS.asciiLower;
     toISOString := fun _ => js "2026-11-02T09:00:00.000Z";
     parseDate := fun _ => None |}.

Definition emptyConfig : Config :=
  {| sources := None; lastRunStats := None; unreadChanges := None |}.

Definition emptyStore : Store :=
  {| seen := ∅; guidance := ∅; changes := ∅; pageHashes := ∅; config := emptyConfig |}.

Definition startOfTime : Z := 1700000000000.

(** *** A NICE guideline with one chapter *)

Definition guidelineUrl : jsstring := js "https://www.nice.org.uk/guidance/ng136".

Definition chapterUrl : jsstring :=
  js "https://www.nice.org.uk/guidance/ng136/chapter/Recommendations".

Definition guidelinePage : jsstring :=
  js "<html><head><title>Hypertension in adults | NICE</title></head><body><main><p>This guideline covers identifying and treating primary hypertension (high blood pressure) in people aged 18 and over. It aims to reduce the risk of cardiovascular problems.</p><a href="
  ++ [34%N] ++ js "/guidance/ng136/chapter/Recommendations" ++ [34%N]
  ++ js ">Recommendations</a></main></body></html>".

Definition chapterPage : jsstring :=
  js "<html><body><main><h1>Recommendations</h1><p>Measure blood pressure in both arms when considering a diagnosis of hypertension, and repeat the measurements if the difference is more than 15 mmHg.</p></main></body></html>".

(** A page that redirects: hardly any text. *)
Definition stubPage : jsstring := js "<html><body><p>Moved</p></body></html>".

Definition stubUrl : jsstring := js "https://www.england.nhs.uk/moved".

Definition web : World :=
  {| respond := fun _ u =>
       if bool_decide (u = guidelineUrl) then Page guidelinePage
       else if bool_decide (u = chapterUrl) then Page chapterPage
       else if bool_decide (u = stubUrl) then Page stubPage
       else HttpError (js "404");
     clock := fun t => (startOfTime + Z.of_nat t)%Z |}.

Definition offline : World :=
  {| respond := fun _ _ => NetworkError (js "fetch failed");
     clock := fun t => (startOfTime + Z.of_nat t)%Z |}.

(** *** A feed with the item of the end-to-end scenario *)

Definition feedUrl : jsstring := js "https://gps.northcentrallondon.icb.nhs.uk/news/rss".

Definition feed : jsstring :=
  js "<rss><channel><item><title>New CKD Pathway</title><link>https://x/ckd</link><description>update to chronic kidney disease monitoring</description></item></channel></rss>".

Definition feedWorld : World :=
  {| respond := fun _ u =>
       if bool_decide (u = feedUrl) then Page feed else HttpError (js "404");
     clock := fun t => (startOfTime + Z.of_nat t)%Z |}.

(** A configuration that stores the NCL feed without fetching pages. *)
Definition rssOnlyStore : Store :=
  {| seen := ∅; guidance := ∅; changes := ∅; pageHashes := ∅;
     config :=
       {| sources :=
            Some {| src_nice := None;
                    src_ncl := Some {| enabled := None; keywords := None;
                                       excludeKeywords := None; rssOnly := Some true |};
                    src_nhs := None; src_artp := None |};
          lastRunStats := None; unreadChanges := None |} |}.

(** The first item of the feed, as [matchAll] delivers it, and the
    documents after the feed has been polled once. *)
Definition feedItem : Regex.found :=
  hd (Regex.Found [] [] None []) (Regex.matchAll (PollRss.plainRe (js "item")) feed).

Definition afterFeed : Store :=
  (PollRss.fetchRSSSource runtime feedWorld feedUrl ncl 0 rssOnlyStore).2.

(** *** The ARTP news listing with two articles *)

Definition newsUrl : jsstring := js "https://www.artp.org.uk/news".

Definition listing : jsstring :=
  js "<html><body><ul><li>12/03/2024 <a href=" ++ [34%N] ++ js "/news/101/spirometry_update"
  ++ [34%N] ++ js ">Spirometry guidance update</a></li><li><a href=" ++ [34%N]
  ++ js "/news/102/eqa_scheme" ++ [34%N] ++ js ">EQA scheme results</a></li></ul></body></html>".

Definition articlePage : jsstring :=
  js "<html><body><article><p>The spirometry guidance has been updated to reflect the new reference equations and quality criteria for primary care.</p></article></body></html>".

Definition artpWorld : World :=
  {| respond := fun _ u =>
       if bool_decide (u = newsUrl) then Page listing
       else if bool_decide (u = js "https://www.artp.org.uk/news/101/spirometry_update")
       then Page articlePage
       else HttpError (js "404");
     clock := fun t => (startOfTime + Z.of_nat t)%Z |}.

(** The documents after the listing has been checked once. *)
Definition afterListing : Store := (PollArtp.checkARTPNews runtime artpWorld 0 emptyStore).2.

(** *** The dashboard: a browser that cannot reach the data files, and one
    that is served a single article *)

Definition emptyCache : Client.Cache :=
  {| Client._guidance := None; Client._changes := None; Client._config := None;
     Client._lastFetch := 0 |}.

Definition offlineBrowser : Client.Browser :=
  {| Client.now := fun _ => startOfTime;
     Client.guidanceFile := fun _ => Client.Unreachable;
     Client.changesFile := fun _ => Client.Unreachable;
     Client.configFile := fun _ => Client.Unreachable |}.

Definition article : StoredArticle :=
  {| id := storageKey guidelineUrl;
     url := guidelineUrl;
     title := js "Hypertension in adults";
     source := nice;
     type := js "guidance";
     publishedDate := js "2026-11-02";
     fetchedDate := js "2026-11-02T09:00:00.000Z";
     contentHash := hashString (js "Measure blood pressure in both arms.");
     content := js "Measure blood pressure in both arms.";
     parentUrl := None;
     metadata := {| wordCount := 6; estimatedReadTime := 1;
                    description := js "Measure blood pressure" |} |}.

Definition library : Client.Browser :=
  {| Client.now := fun _ => startOfTime;
     Client.guidanceFile := fun _ => Client.Json [(storageKey guidelineUrl, article)];
     Client.changesFile := fun _ => Client.Json [];
     Client.configFile := fun _ => Client.NotOk |}.

End Samples.

(** ** Vocabulary of the statements *)

(** The key of a change event detected at time [ms] for the page at [url]. *)
Definition changeKey (ms : Z) (url : jsstring) : jsstring :=
  js "change:" ++ decimalZ ms ++ js ":" ++ hashString url.

(** The documents after one article and one change event are recorded. *)
Definition afterStoring (s : Store) (key : jsstring) (article : StoredArticle)
    (ck : jsstring) (event : ChangeEvent) : Store :=
  {| seen := seen s;
     guidance := <[key := article]> (guidance s);
     changes := <[ck := event]> (changes s);
     pageHashes := pageHashes s;
     config := bumpUnread (config s) |}.

(** What every stored article is expected to satisfy. *)
Definition wellKeyed (key : jsstring) (e : StoredArticle) : Prop :=
  id e = key /\ key = storageKey (url e) /\ contentHash e = hashString (content e)
  /\ (1 <= estimatedReadTime (metadata e))%N.

(** Every article of [s'] is one of [s], untouched, or is well keyed. *)
Definition writesWellKeyed (s s' : Store) : Prop :=
  forall k e, guidance s' !! k = Some e -> guidance s !! k = Some e \/ wellKeyed k e.

(** The entry under [key], if it carries the address [u], carries the
    fingerprint [h]. *)
Definition ownEntryHas (key u h : jsstring) (s : Store) : Prop :=
  exists e, guidance s !! key = Some e /\ (url e = u -> contentHash e = h).

(** What a run may do to the documents: seen entries are only added, and
    articles are left alone or written well keyed. *)
Definition orderly (s s' : Store) : Prop :=
  seen s ⊆ seen s' /\ writesWellKeyed s s'.

(** [p] is a prefix of [s], ASCII letters compared without case. *)
Fixpoint startsCI (p s : jsstring) : bool :=
  match p, s with
  | [], _ => true
  | a :: p', x :: s' => JS.eqCI a x && startsCI p' s'
  | _ :: _, [] => false
  end.

(** [p] occurs somewhere in [s], letters compared without case. *)
Fixpoint occursCI (p s : jsstring) : bool :=
  startsCI p s || match s with [] => false | _ :: s' => occursCI p s' end.

(** The last code unit of [l], or [prev] when [l] is empty. *)
Definition lastCU (prev : option N) (l : jsstring) : option N :=
  foldl (fun _ x => Some x) prev l.











(** [R] relates the documents before and after [m], however [m] ends. *)
Definition keeps {St A : Type} (R : St -> St -> Prop) (m : Eff St A) : Prop :=
  forall t s, R s (m t s).2.

(** [m] never throws. *)
Definition completes {St A : Type} (m : Eff St A) : Prop :=
  forall t s, exists a, (m t s).1.1 = Normal a.

(** A lowercase hexadecimal digit. *)
Definition isHexDigit (c : N) : bool :=
  JS.isDigit c || ((97 <=? c) && (c <=? 102))%N.

(** What the engine and the pipelines leave alone: seen entries (the
    engine), page fingerprints, the configuration of the sources and the
    statistics of the runs. *)
Definition sameSettings (s s' : Store) : Prop :=
  sources (config s') = sources (config s)
  /\ lastRunStats (config s') = lastRunStats (config s).

(** The unread counter, [undefined] counting as 0. *)
Definition unread (s : Store) : N := default 0%N (unreadChanges (config s)).

(** Nothing is deleted: every article and every change event of [s] still
    has an entry in [s'], and the unread counter has grown by at least the
    number of change events added. *)
Definition growsOnly (s s' : Store) : Prop :=
  dom (guidance s) ⊆ dom (guidance s')
  /\ dom (changes s) ⊆ dom (changes s')
  /\ (unread s <= unread s')%N
  /\ (N.of_nat (size (changes s')) + unread s <= N.of_nat (size (changes s)) + unread s')%N.

(** The engine touches nothing but articles, change events and the unread
    counter. *)
Definition untouched (s s' : Store) : Prop :=
  seen s' = seen s /\ pageHashes s' = pageHashes s /\ sameSettings s s'.

(** What a whole run does to the documents it read. *)
Definition tidy (s s' : Store) : Prop :=
  growsOnly s s' /\ sources (config s') = sources (config s).

(** The documents a script holds after reading the files: a missing or
    unreadable file is replaced with its default. *)
Definition held (defaultConfig : Config) (files : Files) : Store :=
  {| seen := default ∅ (seen_json files);
     guidance := default ∅ (guidance_json files);
     changes := default ∅ (changes_json files);
     pageHashes := default ∅ (page_hashes_json files);
     config := default defaultConfig (config_json files) |}.

(** A feed whose item carries a publication date that [Date] cannot
    parse. *)
Module DatedFeed.

Definition feed : jsstring :=
  js "<rss><channel><item><title>New CKD Pathway</title><link>https://x/ckd</link><pubDate>next week</pubDate><description>update to chronic kidney disease monitoring</description></item></channel></rss>".

Definition feedItem : Regex.found :=
  hd (Regex.Found [] [] None []) (Regex.matchAll (PollRss.plainRe (js "item")) feed).

End DatedFeed.

(** [config.sources?.[source]?.rssOnly === true] *)
Definition storesFeedOnly (c : Config) (src : Source) : bool :=
  match sourceConfig c src with
  | Some sc => bool_decide (rssOnly sc = Some true)
  | None => false
  end.

(** No feed is configured to be stored without fetching the pages. *)
Definition fetchesPages (s : Store) : Prop :=
  storesFeedOnly (config s) ncl = false /\ storesFeedOnly (config s) nhs = false.

(** From a state that satisfies [I], [m] never throws and ends in a state
    that satisfies [I]. *)
Definition completesFrom {St A : Type} (I : St -> Prop) (m : Eff St A) : Prop :=
  forall t s, I s -> (exists a, (m t s).1.1 = Normal a) /\ I (m t s).2.

(** All three documents of the client are loaded. *)
Definition loaded (c : Client.Cache) : Prop :=
  is_Some (Client._guidance c) /\ is_Some (Client._changes c) /\ is_Some (Client._config c).

(** [_lastFetch] is 0 unless all three documents are loaded. *)
Definition coherent (c : Client.Cache) : Prop :=
  Client._lastFetch c = 0%Z \/ loaded c.

(** The clock of the browser is at least [CACHE_TTL] past the epoch. *)
Definition pastEpoch (b : Client.Browser) : Prop :=
  forall t, (Client.CACHE_TTL <= Client.now b t)%Z.

(** The errors with which [loadData] rejects. *)
Definition loadError (e : jsstring) : Prop :=
  e = js "TypeError: Failed to fetch" \/ e = js "SyntaxError".


(** An article is a hit for the query [q] (lowercased and trimmed) among
    the articles of [wanted]. *)
Definition hit (rt : Runtime) (q : jsstring) (wanted : option Source) (item : StoredArticle)
    : bool :=
  match wanted with
  | Some src => bool_decide (source item = src)
  | None => true
  end
  && (JS.includes q (toLowerCase rt (title item))
      || JS.includes q (toLowerCase rt (content item))).

(** Every element of [l] is related to all elements after it. *)
Fixpoint ordered {A : Type} (R : A -> A -> Prop) (l : list A) : Prop :=
  match l with
  | [] => True
  | x :: l' => Forall (R x) l' /\ ordered R l'
  end.

(** The time value of a date that parses. *)
Definition timeOf (rt : Runtime) (text : jsstring) : Z := default 0%Z (parseDate rt text).

(** [x] may stand before [y] in a list that shows the newest first. *)
Definition notOlder {A : Type} (rt : Runtime) (date : A -> jsstring) (x y : A) : Prop :=
  (timeOf rt (date y) <= timeOf rt (date x))%Z.

(** [x] may stand before [y] in the results of a search: title matches
    first, and the newest first among matches of the same kind. *)
Definition ranksBefore (rt : Runtime) (x y : Client.SearchItem) : Prop :=
  (Client.matchType x = Client.byTitle /\ Client.matchType y = Client.byContent)
  \/ (Client.matchType x = Client.matchType y
      /\ notOlder rt (fun i => JS.or (Client.r_publishedDate i) (Client.r_fetchedDate i)) x y).

(** The date by which a summary is listed. *)
Definition summaryDate (i : Dashboard.Summary) : jsstring :=
  JS.or (Dashboard.s_publishedDate i) (Dashboard.s_fetchedDate i).

(** Every article of [docs] carries a date that [new Date] can parse. *)
Definition datesParse (rt : Runtime) (docs : list StoredArticle) : Prop :=
  forall a, In a docs -> is_Some (parseDate rt (JS.or (publishedDate a) (fetchedDate a))).

(** A runtime that can read dates, two articles, two change events and
    the browser that serves them. *)
Module Desk.

(** Reads the digits of a text as one number: later dates of the form
    YYYY-MM-DD give larger numbers. *)
Definition digits (text : jsstring) : Z :=
  fold_left (fun acc c => if JS.isDigit c then (acc * 10 + (Z.of_N c - 48))%Z else acc) text 0%Z.

Definition runtime : Runtime :=
  {| toLowerCase := map JS.asciiLower;
     toISOString := fun _ => js "2026-11-02T09:00:00.000Z";
     parseDate := fun text => Some (digits text) |}.

Definition asthmaUrl : jsstring := js "https://www.nice.org.uk/guidance/ng80".

Definition asthma : StoredArticle :=
  {| id := storageKey asthmaUrl;
     url := asthmaUrl;
     title := js "Asthma: diagnosis and monitoring";
     source := nice;
     type := js "guidance";
     publishedDate := js "2026-10-01";
     fetchedDate := js "2026-11-02T09:00:00.000Z";
     contentHash := hashString (js "Check inhaler technique; hypertension is not a contraindication.");
     content := js "Check inhaler technique; hypertension is not a contraindication.";
     parentUrl := None;
     metadata := {| wordCount := 8; estimatedReadTime := 1;
                    description := js "Check inhaler technique" |} |}.

Definition found (a : StoredArticle) (ms : Z) (seenBefore : bool) : ChangeEvent :=
  {| ce_id := changeKey ms (url a);
     ce_url := url a;
     ce_title := title a;
     ce_source := source a;
     changeType := new_guidance;
     detectedAt := fetchedDate a;
     previousHash := None;
     newHash := contentHash a;
     acknowledged := seenBefore |}.

Definition guidanceDoc : list (jsstring * StoredArticle) :=
  [(id asthma, asthma); (id Samples.article, Samples.article)].

Definition changesDoc : list (jsstring * ChangeEvent) :=
  [(changeKey 1 (url asthma), found asthma 1 false);
   (changeKey 2 (url Samples.article), found Samples.article 2 true)].

Definition browser : Client.Browser :=
  {| Client.now := fun _ => Samples.startOfTime;
     Client.guidanceFile := fun _ => Client.Json guidanceDoc;
     Client.changesFile := fun _ => Client.Json changesDoc;
     Client.configFile := fun _ => Client.NotOk |}.

(** The page as it is first opened. *)
Definition tab : Dashboard.Tab :=
  {| Dashboard.cache := Samples.emptyCache;
     Dashboard.cgm_acknowledged := None;
     Dashboard.cgm_saved := None |}.

End Desk.

(** [items.filter(i => i.source === source)] unless the source is ['all'] *)
Definition ofSource (wanted : option Source) (items : list StoredArticle) : list StoredArticle :=
  match wanted with
  | Some src => List.filter (fun i => bool_decide (source i = src)) items
  | None => items
  end.

(** A change event that neither the poller nor the reader has
    acknowledged. *)
Definition isUnread (ack : gmap jsstring bool) (change : ChangeEvent) : bool :=
  negb (acknowledged change) && negb (Dashboard.flagged ack (ce_id change)).

(** After [i] rounds of the loop of a pipeline that started from [s0]: the
    page fingerprints are as they were and [n] seen entries have been
    added, at most one a round. *)
Definition counted (s0 : Store) (i n : nat) (s : Store) : Prop :=
  pageHashes s = pageHashes s0 /\ size (seen s) = size (seen s0) + n /\ n <= i.

(** [s'] is what is left of [s] after a prefix. *)
Definition leftOf (s s' : jsstring) : Prop := exists pre, s = pre ++ s'.

(** * Properties *)

(** ** Fingerprints *)

Lemma hexWord_length (x : N) : length (Sha256.hexWord x) = 8.
Proof. reflexivity. Qed.

Lemma hashString_length (str : jsstring) : length (hashString str) = 16.
Proof.
  unfold hashString, JS.substring, Sha256.sha256hex, Sha256.hex.
  rewrite drop_0, length_take, !length_app, !hexWord_length. lia.
Qed.

Lemma hashString_truthy (str : jsstring) : JS.truthy (hashString str) = true.
Proof.
  pose proof (hashString_length str) as H.
  destruct (hashString str); [discriminate H | reflexivity].
Qed.

(** ** Word counts *)

Lemma splitFrom_nonempty r fuel prev piece s : Regex.splitFrom r fuel prev piece s <> [].
Proof.
  revert prev piece s. induction fuel as [|fuel IH]; intros prev piece s; simpl; [done|].
  destruct s as [|x s']; [done|].
  destruct (Regex.matchAt r prev (x :: s')) as [m|]; [|apply IH].
  destruct (Regex.matched m); [destruct piece; [apply IH | done] | done].
Qed.

Lemma countWords_pos (content : jsstring) : (1 <= countWords content)%N.
Proof.
  unfold countWords, Regex.split. destruct content as [|c content].
  - vm_compute. discriminate.
  - pose proof (splitFrom_nonempty (Regex.plus Regex.space) (2 * length (c :: content) + 1)
                  None [] (c :: content)) as H.
    destruct (Regex.splitFrom _ _ _ _ _); [done | simpl; lia].
Qed.

Lemma readTime_pos (n : N) : (1 <= n)%N -> (1 <= readTime n)%N.
Proof.
  intros H. unfold readTime.
  apply N.div_le_lower_bound; lia.
Qed.

(** ** The effect monad *)

Section Keeps.
Context {St : Type} (R : St -> St -> Prop).
Hypothesis R_refl : forall s, R s s.
Hypothesis R_trans : forall s1 s2 s3, R s1 s2 -> R s2 s3 -> R s1 s3.

Lemma keeps_ret {A : Type} (a : A) : keeps R (ret a).
Proof using R_refl. intros t s. apply R_refl. Qed.

Lemma keeps_throw {A : Type} (e : jsstring) : keeps R (throw (A := A) e).
Proof using R_refl. intros t s. apply R_refl. Qed.

Lemma keeps_get : keeps R get.
Proof using R_refl. intros t s. apply R_refl. Qed.

Lemma keeps_bind {A B : Type} (m : Eff St A) (f : A -> Eff St B) :
  keeps R m -> (forall a, keeps R (f a)) -> keeps R (bind m f).
Proof using R_trans.
  intros Hm Hf t s. unfold bind. specialize (Hm t s).
  destruct (m t s) as [[[a|e] t'] s']; simpl in *; [|exact Hm].
  eapply R_trans; [exact Hm | apply Hf].
Qed.

Lemma keeps_tryCatch {A : Type} (m : Eff St A) (h : jsstring -> Eff St A) :
  keeps R m -> (forall e, keeps R (h e)) -> keeps R (tryCatch m h).
Proof using R_trans.
  intros Hm Hh t s. unfold tryCatch. specialize (Hm t s).
  destruct (m t s) as [[[a|e] t'] s']; simpl in *; [exact Hm|].
  eapply R_trans; [exact Hm | apply Hh].
Qed.

Lemma keeps_forEach {A : Type} (f : A -> Eff St unit) (l : list A) :
  (forall x, keeps R (f x)) -> keeps R (forEach f l).
Proof using R_refl R_trans.
  intros Hf. induction l as [|x l IH]; simpl.
  - apply keeps_ret.
  - apply keeps_bind; [apply Hf | intros _; exact IH].
Qed.

Lemma keeps_forEachWith {A B : Type} (f : A -> B -> Eff St B) (l : list A) (b : B) :
  (forall x b, keeps R (f x b)) -> keeps R (forEachWith f l b).
Proof using R_refl R_trans.
  intros Hf. revert b. induction l as [|x l IH]; intros b; simpl.
  - apply keeps_ret.
  - apply keeps_bind; [apply Hf | intros b'; apply IH].
Qed.

Lemma keeps_modify (f : St -> St) : (forall s, R s (f s)) -> keeps R (modify f).
Proof. intros Hf t s. apply Hf. Qed.

Lemma keeps_if {A : Type} (c : bool) (m1 m2 : Eff St A) :
  keeps R m1 -> keeps R m2 -> keeps R (if c then m1 else m2).
Proof. destruct c; auto. Qed.
End Keeps.

Section Completes.
Context {St : Type}.

Lemma completes_ret {A : Type} (a : A) : completes (ret (St := St) a).
Proof. intros t s. eexists. reflexivity. Qed.

Lemma completes_get : completes (get (St := St)).
Proof. intros t s. eexists. reflexivity. Qed.

Lemma completes_modify (f : St -> St) : completes (modify f).
Proof. intros t s. eexists. reflexivity. Qed.

Lemma completes_bind {A B : Type} (m : Eff St A) (f : A -> Eff St B) :
  completes m -> (forall a, completes (f a)) -> completes (bind m f).
Proof.
  intros Hm Hf t s. unfold bind. destruct (Hm t s) as [a Ha].
  destruct (m t s) as [[c t'] s']; simpl in Ha; subst c. apply Hf.
Qed.

Lemma completes_tryCatch {A : Type} (m : Eff St A) (h : jsstring -> Eff St A) :
  (forall e, completes (h e)) -> completes (tryCatch m h).
Proof.
  intros Hh t s. unfold tryCatch.
  destruct (m t s) as [[[a|e] t'] s']; [eexists; reflexivity | apply Hh].
Qed.

Lemma completes_forEach {A : Type} (f : A -> Eff St unit) (l : list A) :
  (forall x, completes (f x)) -> completes (forEach f l).
Proof.
  intros Hf. induction l as [|x l IH]; simpl.
  - apply completes_ret.
  - apply completes_bind; [apply Hf | intros _; exact IH].
Qed.

Lemma completes_forEachWith {A B : Type} (f : A -> B -> Eff St B) (l : list A) (b : B) :
  (forall x b, completes (f x b)) -> completes (forEachWith f l b).
Proof.
  intros Hf. revert b. induction l as [|x l IH]; intros b; simpl.
  - apply completes_ret.
  - apply completes_bind; [apply Hf | intros b'; apply IH].
Qed.

Lemma completes_if {A : Type} (c : bool) (m1 m2 : Eff St A) :
  completes m1 -> completes m2 -> completes (if c then m1 else m2).
Proof. destruct c; auto. Qed.
End Completes.

Lemma keeps_fetchPage (R : Store -> Store -> Prop) w url :
  (forall s, R s s) -> keeps R (fetchPage w url).
Proof. intros HR t s. unfold fetchPage. destruct (respond w t url); apply HR. Qed.

Lemma keeps_nowISO (R : Store -> Store -> Prop) rt w : (forall s, R s s) -> keeps R (nowISO rt w).
Proof. intros HR t s. apply HR. Qed.

Lemma keeps_dateNow (R : Store -> Store -> Prop) w : (forall s, R s s) -> keeps R (dateNow w).
Proof. intros HR t s. apply HR. Qed.

Lemma completes_nowISO rt w : completes (nowISO rt w).
Proof. intros t s. eexists. reflexivity. Qed.

Lemma completes_dateNow w : completes (dateNow w).
Proof. intros t s. eexists. reflexivity. Qed.


(** ** The crawl-and-store engine, case by case *)

Section Crawl.
Import PollRss.
Variable rt : Runtime.
Variable w : World.

#[local] Opaque extractContent Html.extractTitle hashString countWords
  Html.parsePublishedDate decimalZ JS.beforeSep.

Lemma crawl_fetch_fails gap u src ty meta parent t s :
  (forall body, respond w t u <> Page body) ->
  crawlAndStoreGap rt w gap u src ty meta parent t s = (Normal tt, S t, s).
Proof.
  intros H. destruct gap; cbn [crawlAndStoreGap]; unfold bind, tryCatch, fetchPage, ret;
    destruct (respond w t u); try reflexivity; exfalso; eapply H; reflexivity.
Qed.

Lemma gate_closed (content : jsstring) :
  length content < 50 -> negb (JS.truthy content) || Nat.ltb (length content) 50 = true.
Proof.
  intros H. apply orb_true_iff. right. apply Nat.ltb_lt. exact H.
Qed.

Lemma gate_open (content : jsstring) :
  50 <= length content -> negb (JS.truthy content) || Nat.ltb (length content) 50 = false.
Proof.
  intros H. apply orb_false_iff. split.
  - destruct content; [simpl in H; lia | reflexivity].
  - apply Nat.ltb_ge. exact H.
Qed.

Lemma crawl_too_short gap u src ty meta parent t s html :
  respond w t u = Page html ->
  length (extractContent html src).1 < 50 ->
  crawlAndStoreGap rt w gap u src ty meta parent t s = (Normal tt, S t, s).
Proof.
  intros H Hlen. destruct gap; cbn [crawlAndStoreGap]; unfold bind, tryCatch, fetchPage, ret;
    rewrite H; destruct (extractContent html src) as [content links]; simpl in Hlen;
    rewrite (gate_closed _ Hlen); reflexivity.
Qed.

Lemma same_hash_no_change (g : gmap jsstring StoredArticle) key e h :
  g !! key = Some e -> contentHash e = h ->
  negb (bool_decide (g !! key = None)) && negb (hashDiffers (g !! key) h) = true.
Proof.
  intros Hk Hh. rewrite Hk. simpl. repeat case_bool_decide; simpl; congruence.
Qed.

Lemma new_or_changed (g : gmap jsstring StoredArticle) key h :
  (forall e, g !! key = Some e -> contentHash e <> h) ->
  negb (bool_decide (g !! key = None)) && negb (hashDiffers (g !! key) h) = false.
Proof.
  intros H. destruct (g !! key) as [e|] eqn:Hk; simpl.
  - specialize (H e eq_refl). repeat case_bool_decide; simpl; congruence.
  - repeat case_bool_decide; simpl; congruence.
Qed.

Lemma crawl_unchanged gap u src ty meta parent t s html e :
  respond w t u = Page html ->
  guidance s !! storageKey u = Some e ->
  contentHash e = hashString (extractContent html src).1 ->
  crawlAndStoreGap rt w gap u src ty meta parent t s = (Normal tt, S t, s).
Proof.
  intros H Hk Hh. destruct gap; cbn [crawlAndStoreGap]; unfold bind, tryCatch, fetchPage, ret, get;
    rewrite H; destruct (extractContent html src) as [content links]; simpl in Hh;
    (destruct (negb (JS.truthy content) || Nat.ltb (length content) 50); [reflexivity|]);
    unfold storageKey in Hk; rewrite (same_hash_no_change _ _ _ _ Hk Hh); reflexivity.
Qed.

(** A page that passes the gate and is new or changed: one article and
    one change event are recorded, and the chapters are crawled. *)
Lemma crawl_stores gap u src ty meta parent t s html :
  respond w t u = Page html ->
  50 <= length (extractContent html src).1 ->
  (forall e, guidance s !! storageKey u = Some e ->
             contentHash e <> hashString (extractContent html src).1) ->
  exists article event,
    (id article = storageKey u /\ url article = u
     /\ source article = src
     /\ content article = (extractContent html src).1
     /\ contentHash article = hashString (extractContent html src).1
     /\ estimatedReadTime (metadata article)
        = readTime (countWords (extractContent html src).1))
    /\ (ce_url event = u
        /\ changeType event
           = (if bool_decide (guidance s !! storageKey u = None)
              then new_guidance else content_update)
        /\ previousHash event = priorHash (guidance s !! storageKey u)
        /\ newHash event = hashString (extractContent html src).1
        /\ acknowledged event = false)
    /\ crawlAndStoreGap rt w gap u src ty meta parent t s
       = crawlChapters rt w gap src (JS.orElse (m_title meta) (Html.extractTitle html))
           u (extractContent html src).2 (S (S (S t)))
           (afterStoring s (storageKey u) article
              (changeKey (clock w (S (S t))) u) event).
Proof.
  intros H Hlen Hnew.
  destruct (extractContent html src) as [content links] eqn:E; simpl in Hlen, Hnew.
  eexists; eexists. split; [|split].
  3: { destruct gap; cbn [crawlAndStoreGap]; unfold bind, tryCatch, fetchPage, ret, get;
       rewrite H, E; simpl fst; simpl snd; rewrite (gate_open _ Hlen);
       unfold storageKey in Hnew; rewrite (new_or_changed _ _ _ Hnew);
       unfold nowISO, modify, dateNow; cbn beta iota; reflexivity. }
  - repeat split; reflexivity.
  - repeat split; reflexivity.
Qed.

(** Either nothing happens, or exactly the recording of [crawl_stores]. *)
Lemma crawl_cases gap u src ty meta parent t s :
  crawlAndStoreGap rt w gap u src ty meta parent t s = (Normal tt, S t, s)
  \/ exists html article event,
       respond w t u = Page html
       /\ 50 <= length (extractContent html src).1
       /\ id article = storageKey u /\ url article = u /\ source article = src
       /\ content article = (extractContent html src).1
       /\ contentHash article = hashString (extractContent html src).1
       /\ estimatedReadTime (metadata article)
          = readTime (countWords (extractContent html src).1)
       /\ crawlAndStoreGap rt w gap u src ty meta parent t s
          = crawlChapters rt w gap src (JS.orElse (m_title meta) (Html.extractTitle html))
              u (extractContent html src).2 (S (S (S t)))
              (afterStoring s (storageKey u) article (changeKey (clock w (S (S t))) u) event).
Proof.
  destruct (respond w t u) as [html| |] eqn:H.
  2,3: left; apply crawl_fetch_fails; rewrite H; discriminate.
  destruct (Nat.lt_ge_cases (length (extractContent html src).1) 50) as [Hlen|Hlen].
  { left. eapply crawl_too_short; eassumption. }
  destruct (guidance s !! storageKey u) as [e|] eqn:Hk.
  - destruct (decide (contentHash e = hashString (extractContent html src).1)) as [Hh|Hh].
    + left. eapply crawl_unchanged; eassumption.
    + right.
      destruct (crawl_stores gap u src ty meta parent t s html H Hlen)
        as (article & event & (?&?&?&?&?&?) & _ & Heq).
      { intros e' He'. rewrite Hk in He'. injection He' as <-. exact Hh. }
      exists html, article, event. repeat (split; [first [assumption | reflexivity]|]). exact Heq.
  - right.
    destruct (crawl_stores gap u src ty meta parent t s html H Hlen)
      as (article & event & (?&?&?&?&?&?) & _ & Heq).
    { intros e' He'. rewrite Hk in He'. discriminate. }
    exists html, article, event. repeat (split; [first [assumption | reflexivity]|]). exact Heq.
Qed.

(** A relation that every recording respects is kept by the engine,
    chapters included. *)
Lemma keeps_crawl (R : Store -> Store -> Prop) (P : Source -> Prop) :
  (forall s, R s s) -> (forall s1 s2 s3, R s1 s2 -> R s2 s3 -> R s1 s3) ->
  P nice ->
  (forall s u html src article ck event,
     P src ->
     50 <= length (extractContent html src).1 ->
     id article = storageKey u -> url article = u -> source article = src ->
     content article = (extractContent html src).1 ->
     contentHash article = hashString (extractContent html src).1 ->
     estimatedReadTime (metadata article) = readTime (countWords (extractContent html src).1) ->
     (exists t, respond w t u = Page html) ->
     R s (afterStoring s (storageKey u) article ck event)) ->
  forall gap u src ty meta parent,
    P src -> keeps R (crawlAndStoreGap rt w gap u src ty meta parent).
Proof.
  intros Hrefl Htrans Hnice Hstore gap. unfold keeps.
  induction gap as [|gap IH]; intros u src ty meta parent HP t s.
  - destruct (crawl_cases 0 u src ty meta parent t s)
      as [->|(html & article & event & H & Hlen & ? & ? & ? & ? & ? & ? & ->)];
      [apply Hrefl|].
    unfold crawlChapters. destruct src; simpl; eapply Hstore; eauto.
  - destruct (crawl_cases (S gap) u src ty meta parent t s)
      as [->|(html & article & event & H & Hlen & ? & ? & ? & ? & ? & ? & ->)];
      [apply Hrefl|].
    eapply Htrans; [eapply (Hstore s u html src article); eauto|].
    unfold crawlChapters. destruct src; try apply Hrefl.
    apply keeps_forEach; auto. intros x t' s'. apply IH. exact Hnice.
Qed.

Lemma completes_crawl gap u src ty meta parent :
  completes (crawlAndStoreGap rt w gap u src ty meta parent).
Proof.
  revert u src ty meta parent. unfold completes.
  induction gap as [|gap IH]; intros u src ty meta parent t s.
  - destruct (crawl_cases 0 u src ty meta parent t s)
      as [->|(html & article & event & _ & _ & _ & _ & _ & _ & _ & _ & ->)];
      [eexists; reflexivity|].
    unfold crawlChapters. destruct src; eexists; reflexivity.
  - destruct (crawl_cases (S gap) u src ty meta parent t s)
      as [->|(html & article & event & _ & _ & _ & _ & _ & _ & _ & _ & ->)];
      [eexists; reflexivity|].
    unfold crawlChapters. destruct src; try (eexists; reflexivity).
    apply completes_forEach. intros x t1 s1. apply IH.
Qed.
End Crawl.

Section CrawlArtp.
Import PollArtp.
Variable rt : Runtime.
Variable w : World.

#[local] Opaque extractARTPContent Html.extractTitle hashString countWords
  Html.parsePublishedDate decimalZ JS.beforeSep.

Lemma artp_fetch_fails u title date t s :
  (forall body, respond w t u <> Page body) ->
  crawlAndStoreARTP rt w u title date t s = (Normal tt, S t, s).
Proof.
  intros H. unfold crawlAndStoreARTP, bind, tryCatch, fetchPage, ret.
  destruct (respond w t u); try reflexivity. exfalso. eapply H. reflexivity.
Qed.

Lemma artp_too_short u title date t s html :
  respond w t u = Page html ->
  length (extractARTPContent html) < 50 ->
  crawlAndStoreARTP rt w u title date t s = (Normal tt, S t, s).
Proof.
  intros H Hlen. unfold crawlAndStoreARTP, bind, tryCatch, fetchPage, ret.
  rewrite H, (gate_closed _ Hlen). reflexivity.
Qed.

Lemma artp_unchanged u title date t s html e :
  respond w t u = Page html ->
  guidance s !! storageKey u = Some e ->
  contentHash e = hashString (extractARTPContent html) ->
  crawlAndStoreARTP rt w u title date t s = (Normal tt, S t, s).
Proof.
  intros H Hk Hh. unfold crawlAndStoreARTP, bind, tryCatch, fetchPage, ret, get.
  rewrite H.
  destruct (negb (JS.truthy (extractARTPContent html))
            || Nat.ltb (length (extractARTPContent html)) 50); [reflexivity|].
  unfold storageKey in Hk. rewrite (same_hash_no_change _ _ _ _ Hk Hh). reflexivity.
Qed.

Lemma artp_stores u title date t s html :
  respond w t u = Page html ->
  50 <= length (extractARTPContent html) ->
  (forall e, guidance s !! storageKey u = Some e ->
             contentHash e <> hashString (extractARTPContent html)) ->
  exists article event,
    (id article = storageKey u /\ url article = u /\ source article = artp
     /\ content article = extractARTPContent html
     /\ contentHash article = hashString (extractARTPContent html)
     /\ estimatedReadTime (metadata article)
        = readTime (countWords (extractARTPContent html)))
    /\ (ce_url event = u
        /\ changeType event
           = (if bool_decide (guidance s !! storageKey u = None)
              then new_guidance else content_update)
        /\ previousHash event = priorHash (guidance s !! storageKey u)
        /\ newHash event = hashString (extractARTPContent html)
        /\ acknowledged event = false)
    /\ crawlAndStoreARTP rt w u title date t s
       = (Normal tt, S (S (S t)),
          afterStoring s (storageKey u) article (changeKey (clock w (S (S t))) u) event).
Proof.
  intros H Hlen Hnew. eexists; eexists. split; [|split].
  3: { unfold crawlAndStoreARTP, bind, tryCatch, fetchPage, ret, get.
       rewrite H, (gate_open _ Hlen).
       unfold storageKey in Hnew. rewrite (new_or_changed _ _ _ Hnew).
       unfold nowISO, modify, dateNow. cbn beta iota. reflexivity. }
  - repeat split; reflexivity.
  - repeat split; reflexivity.
Qed.

Lemma artp_cases u title date t s :
  crawlAndStoreARTP rt w u title date t s = (Normal tt, S t, s)
  \/ exists html article event,
       respond w t u = Page html
       /\ 50 <= length (extractARTPContent html)
       /\ id article = storageKey u /\ url article = u /\ source article = artp
       /\ content article = extractARTPContent html
       /\ contentHash article = hashString (extractARTPContent html)
       /\ estimatedReadTime (metadata article)
          = readTime (countWords (extractARTPContent html))
       /\ crawlAndStoreARTP rt w u title date t s
          = (Normal tt, S (S (S t)),
             afterStoring s (storageKey u) article (changeKey (clock w (S (S t))) u) event).
Proof.
  destruct (respond w t u) as [html| |] eqn:H.
  2,3: left; apply artp_fetch_fails; rewrite H; discriminate.
  destruct (Nat.lt_ge_cases (length (extractARTPContent html)) 50) as [Hlen|Hlen].
  { left. eapply artp_too_short; eassumption. }
  destruct (guidance s !! storageKey u) as [e|] eqn:Hk.
  - destruct (decide (contentHash e = hashString (extractARTPContent html))) as [Hh|Hh].
    + left. eapply artp_unchanged; eassumption.
    + right.
      destruct (artp_stores u title date t s html H Hlen)
        as (article & event & (?&?&?&?&?&?) & _ & Heq).
      { intros e' He'. rewrite Hk in He'. injection He' as <-. exact Hh. }
      exists html, article, event.
      repeat (split; [first [assumption | reflexivity]|]). exact Heq.
  - right.
    destruct (artp_stores u title date t s html H Hlen)
      as (article & event & (?&?&?&?&?&?) & _ & Heq).
    { intros e' He'. rewrite Hk in He'. discriminate. }
    exists html, article, event.
    repeat (split; [first [assumption | reflexivity]|]). exact Heq.
Qed.

Lemma keeps_artp (R : Store -> Store -> Prop) :
  (forall s, R s s) ->
  (forall s u html article ck event,
     50 <= length (extractARTPContent html) ->
     id article = storageKey u -> url article = u -> source article = artp ->
     content article = extractARTPContent html ->
     contentHash article = hashString (extractARTPContent html) ->
     estimatedReadTime (metadata article) = readTime (countWords (extractARTPContent html)) ->
     R s (afterStoring s (storageKey u) article ck event)) ->
  forall u title date, keeps R (crawlAndStoreARTP rt w u title date).
Proof.
  intros Hrefl Hstore u title date t s.
  destruct (artp_cases u title date t s)
    as [->|(html & article & event & H & Hlen & ? & ? & ? & ? & ? & ? & ->)];
    [apply Hrefl|].
  simpl. eapply Hstore; eauto.
Qed.

Lemma completes_artp u title date : completes (crawlAndStoreARTP rt w u title date).
Proof.
  intros t s.
  destruct (artp_cases u title date t s)
    as [->|(html & article & event & _ & _ & _ & _ & _ & _ & _ & _ & ->)];
    eexists; reflexivity.
Qed.
End CrawlArtp.

(** ** The engine: failed fetches, the length gate, change classification *)

(** C6: when the fetch of the page fails (network error or a response that
    is not 2xx), the crawl-and-store engine ends normally, so that the run
    goes on, and none of the five documents (seen, guidance, changes, page
    hashes, configuration with its unread counter) is mutated; only the
    request is counted.  Both engines: [crawlAndStore] at any depth, and
    [crawlAndStoreARTP]. *)
Theorem C6_failed_fetch_mutates_nothing
    (rt : Runtime) (w : World) (u : jsstring) (src : Source) (ty : jsstring)
    (meta : PollRss.CrawlMeta) (crawlDepth maxDepth : nat) (parent : option jsstring)
    (title : jsstring) (date : option jsstring) (t : nat) (s : Store)
    (Hfail : forall body, respond w t u <> Page body) :
  PollRss.crawlAndStore rt w u src ty meta crawlDepth maxDepth parent t s = (Normal tt, S t, s)
  /\ PollArtp.crawlAndStoreARTP rt w u title date t s = (Normal tt, S t, s).
Proof.
  split.
  - apply crawl_fetch_fails. exact Hfail.
  - apply artp_fetch_fails. exact Hfail.
Qed.

Lemma C6_witness :
  PollRss.crawlAndStore Samples.runtime Samples.offline Samples.guidelineUrl nice
    (js "guidance") (PollRss.titleOnly (js "Hypertension")) 0 1 None 0 Samples.emptyStore
  = (Normal tt, 1, Samples.emptyStore)
  /\ PollArtp.crawlAndStoreARTP Samples.runtime Samples.offline Samples.guidelineUrl
       (js "Hypertension") None 0 Samples.emptyStore
     = (Normal tt, 1, Samples.emptyStore).
Proof.
  apply (C6_failed_fetch_mutates_nothing Samples.runtime Samples.offline).
  intros body. simpl. discriminate.
Defined.

(** C3, as stated, fails in the feed pipeline: with [rssOnly] set, the item
    of the end-to-end scenario, whose description has 43 code units, is
    stored and a change event is recorded. *)
Lemma C3_rss_only_stores_short_content :
  let s' := (PollRss.fetchRSSSource Samples.runtime Samples.feedWorld Samples.feedUrl ncl
               0 Samples.rssOnlyStore).2 in
  guidance Samples.rssOnlyStore !! storageKey (js "https://x/ckd") = None
  /\ (exists e, guidance s' !! storageKey (js "https://x/ckd") = Some e
                /\ length (content e) = 43)
  /\ size (changes s') = 1.
Proof.
  vm_compute. split; [reflexivity|]. split; [|reflexivity].
  eexists. split; reflexivity.
Qed.

(** C3, amended: in the crawl-and-store engine ([crawlAndStore] for the
    NICE and page-fetching feed pipelines, [crawlAndStoreARTP] for the ARTP
    pipeline), a page whose extracted content is empty or shorter than 50
    code units leaves every document as it was; and every article that an
    invocation of the engine, chapters included, adds or modifies has at
    least 50 code units of content. *)
Theorem C3_engine_length_gate
    (rt : Runtime) (w : World) (u : jsstring) (src : Source) (ty : jsstring)
    (meta : PollRss.CrawlMeta) (crawlDepth maxDepth : nat) (parent : option jsstring)
    (title : jsstring) (date : option jsstring) (t : nat) (s : Store) (html : jsstring)
    (Hfetch : respond w t u = Page html) :
  (length (PollRss.extractContent html src).1 < 50 ->
   PollRss.crawlAndStore rt w u src ty meta crawlDepth maxDepth parent t s
   = (Normal tt, S t, s))
  /\ (length (PollArtp.extractARTPContent html) < 50 ->
      PollArtp.crawlAndStoreARTP rt w u title date t s = (Normal tt, S t, s))
  /\ (forall k e,
        guidance (PollRss.crawlAndStore rt w u src ty meta crawlDepth maxDepth parent t s).2
          !! k = Some e ->
        guidance s !! k = Some e \/ 50 <= length (content e))
  /\ (forall k e,
        guidance (PollArtp.crawlAndStoreARTP rt w u title date t s).2 !! k = Some e ->
        guidance s !! k = Some e \/ 50 <= length (content e)).
Proof.
  split; [|split; [|split]].
  - intros Hlen. eapply crawl_too_short; eassumption.
  - intros Hlen. eapply artp_too_short; eassumption.
  - unfold PollRss.crawlAndStore.
    apply (keeps_crawl rt w (fun s s' => forall k e, guidance s' !! k = Some e ->
                                 guidance s !! k = Some e \/ 50 <= length (content e))
             (fun _ => True)); [| | exact I | | exact I].
    + intros s0 k e He. left. exact He.
    + intros s1 s2 s3 H12 H23 k e He.
      destruct (H23 k e He) as [He2|Hlen]; [apply H12; exact He2 | right; exact Hlen].
    + intros s0 u0 html0 src0 article ck event _ Hlen _ _ _ Hcontent _ _ _ k e He.
      simpl in He. destruct (decide (storageKey u0 = k)) as [<-|Hne].
      * rewrite lookup_insert_eq in He. injection He as <-. right. rewrite Hcontent. exact Hlen.
      * rewrite lookup_insert_ne in He by exact Hne. left. exact He.
  - apply (keeps_artp rt w (fun s s' => forall k e, guidance s' !! k = Some e ->
                                guidance s !! k = Some e \/ 50 <= length (content e))).
    + intros s0 k e He. left. exact He.
    + intros s0 u0 html0 article ck event Hlen _ _ _ Hcontent _ _ k e He.
      simpl in He. destruct (decide (storageKey u0 = k)) as [<-|Hne].
      * rewrite lookup_insert_eq in He. injection He as <-. right. rewrite Hcontent. exact Hlen.
      * rewrite lookup_insert_ne in He by exact Hne. left. exact He.
Qed.

Lemma C3_witness :
  PollRss.crawlAndStore Samples.runtime Samples.web Samples.stubUrl nhs (js "article")
    (PollRss.titleOnly (js "Moved")) 0 0 None 0 Samples.emptyStore
  = (Normal tt, 1, Samples.emptyStore).
Proof.
  refine (proj1 (C3_engine_length_gate Samples.runtime Samples.web Samples.stubUrl nhs
                   (js "article") (PollRss.titleOnly (js "Moved")) 0 0 None
                   (js "Moved") None 0 Samples.emptyStore Samples.stubPage _) _).
  - reflexivity.
  - vm_compute. lia.
Defined.




(** ** Idempotence *)

Section Idempotence.
Import PollRss.
Variable rt : Runtime.
Variable w : World.

(** Crawling chapters of a page that is served unchanged keeps this. *)
Lemma chapters_keep_own_entry gap v ty meta parent u html :
  (forall t', respond w t' u = Page html) ->
  keeps (fun s s' => ownEntryHas (storageKey u) u (hashString (extractContent html nice).1) s ->
                     ownEntryHas (storageKey u) u (hashString (extractContent html nice).1) s')
        (crawlAndStoreGap rt w gap v nice ty meta parent).
Proof.
  intros Hstable.
  apply (keeps_crawl rt w _ (fun src => src = nice)); [| | reflexivity | | reflexivity].
  - intros s H. exact H.
  - intros s1 s2 s3 H12 H23 H. apply H23, H12, H.
  - intros s v' html' src article ck event -> _ _ Hurl _ _ Hhash _ [t' Ht'] (e & He & Hown).
    unfold ownEntryHas. simpl.
    destruct (decide (storageKey v' = storageKey u)) as [Heq|Hne].
    + rewrite Heq, lookup_insert_eq. exists article. split; [reflexivity|].
      intros Hu. rewrite Hurl in Hu. rewrite Hu, Hstable in Ht'.
      injection Ht' as <-. exact Hhash.
    + rewrite lookup_insert_ne by exact Hne. exists e. split; assumption.
Qed.

Lemma crawl_twice gap u src ty meta parent t t2 s :
  (forall t', respond w t' u = respond w t u) ->
  (forall e1, guidance (crawlAndStoreGap rt w gap u src ty meta parent t s).2
                !! storageKey u = Some e1 -> url e1 = u) ->
  crawlAndStoreGap rt w gap u src ty meta parent t2
    (crawlAndStoreGap rt w gap u src ty meta parent t s).2
  = (Normal tt, S t2, (crawlAndStoreGap rt w gap u src ty meta parent t s).2).
Proof.
  intros Hstable Hown.
  destruct (respond w t u) as [html| |] eqn:H.
  2,3: rewrite (crawl_fetch_fails rt w gap u src ty meta parent t s)
         by (rewrite H; discriminate);
       apply crawl_fetch_fails; rewrite Hstable; discriminate.
  assert (Hfetch2 : respond w t2 u = Page html) by apply Hstable.
  destruct (Nat.lt_ge_cases (length (extractContent html src).1) 50) as [Hlen|Hlen].
  { rewrite (crawl_too_short rt w gap u src ty meta parent t s html H Hlen).
    eapply crawl_too_short; eassumption. }
  destruct (guidance s !! storageKey u) as [e|] eqn:Hk.
  - destruct (decide (contentHash e = hashString (extractContent html src).1)) as [Hh|Hh].
    { rewrite (crawl_unchanged rt w gap u src ty meta parent t s html e H Hk Hh).
      eapply crawl_unchanged; eassumption. }
    destruct (crawl_stores rt w gap u src ty meta parent t s html H Hlen)
      as (article & event & (_&Hurl&_&_&Hhash&_) & _ & Heq).
    { intros e' He'. rewrite Hk in He'. injection He' as <-. exact Hh. }
    revert Hown. rewrite Heq. clear Heq. intros Hown.
    assert (Hinv : ownEntryHas (storageKey u) u (hashString (extractContent html src).1)
              (crawlChapters rt w gap src (JS.orElse (m_title meta) (Html.extractTitle html))
                 u (extractContent html src).2 (S (S (S t)))
                 (afterStoring s (storageKey u) article
                    (changeKey (clock w (S (S t))) u) event)).2).
    { unfold crawlChapters.
      destruct src, gap as [|gap];
        try (exists article; simpl; rewrite lookup_insert_eq; split; [reflexivity | intros _; exact Hhash]).
      apply (keeps_forEach
               (fun s0 s' =>
                  ownEntryHas (storageKey u) u (hashString (extractContent html nice).1) s0 ->
                  ownEntryHas (storageKey u) u (hashString (extractContent html nice).1) s')).
      - intros s0 H0. exact H0.
      - intros s1 s2 s3 H12 H23 H0. apply H23, H12, H0.
      - intros x. apply chapters_keep_own_entry. exact Hstable.
      - exists article. simpl. rewrite lookup_insert_eq.
        split; [reflexivity | intros _; exact Hhash]. }
    destruct Hinv as (e1 & He1 & Hsame).
    eapply crawl_unchanged; [exact Hfetch2 | exact He1 | apply Hsame, Hown, He1].
  - destruct (crawl_stores rt w gap u src ty meta parent t s html H Hlen)
      as (article & event & (_&Hurl&_&_&Hhash&_) & _ & Heq).
    { intros e' He'. rewrite Hk in He'. discriminate. }
    revert Hown. rewrite Heq. clear Heq. intros Hown.
    assert (Hinv : ownEntryHas (storageKey u) u (hashString (extractContent html src).1)
              (crawlChapters rt w gap src (JS.orElse (m_title meta) (Html.extractTitle html))
                 u (extractContent html src).2 (S (S (S t)))
                 (afterStoring s (storageKey u) article
                    (changeKey (clock w (S (S t))) u) event)).2).
    { unfold crawlChapters.
      destruct src, gap as [|gap];
        try (exists article; simpl; rewrite lookup_insert_eq; split; [reflexivity | intros _; exact Hhash]).
      apply (keeps_forEach
               (fun s0 s' =>
                  ownEntryHas (storageKey u) u (hashString (extractContent html nice).1) s0 ->
                  ownEntryHas (storageKey u) u (hashString (extractContent html nice).1) s')).
      - intros s0 H0. exact H0.
      - intros s1 s2 s3 H12 H23 H0. apply H23, H12, H0.
      - intros x. apply chapters_keep_own_entry. exact Hstable.
      - exists article. simpl. rewrite lookup_insert_eq.
        split; [reflexivity | intros _; exact Hhash]. }
    destruct Hinv as (e1 & He1 & Hsame).
    eapply crawl_unchanged; [exact Hfetch2 | exact He1 | apply Hsame, Hown, He1].
Qed.
End Idempotence.

Lemma artp_twice rt w u title date t t2 s :
  respond w t2 u = respond w t u ->
  PollArtp.crawlAndStoreARTP rt w u title date t2
    (PollArtp.crawlAndStoreARTP rt w u title date t s).2
  = (Normal tt, S t2, (PollArtp.crawlAndStoreARTP rt w u title date t s).2).
Proof.
  intros Hsame.
  destruct (respond w t u) as [html| |] eqn:H.
  2,3: rewrite (artp_fetch_fails rt w u title date t s) by (rewrite H; discriminate);
       apply artp_fetch_fails; rewrite Hsame; discriminate.
  destruct (Nat.lt_ge_cases (length (PollArtp.extractARTPContent html)) 50) as [Hlen|Hlen].
  { rewrite (artp_too_short rt w u title date t s html H Hlen).
    eapply artp_too_short; eassumption. }
  destruct (guidance s !! storageKey u) as [e|] eqn:Hk.
  - destruct (decide (contentHash e = hashString (PollArtp.extractARTPContent html))) as [Hh|Hh].
    { rewrite (artp_unchanged rt w u title date t s html e H Hk Hh).
      eapply artp_unchanged; eassumption. }
    destruct (artp_stores rt w u title date t s html H Hlen)
      as (article & event & (_&_&_&_&Hhash&_) & _ & ->).
    { intros e' He'. rewrite Hk in He'. injection He' as <-. exact Hh. }
    eapply artp_unchanged; [exact Hsame | simpl; apply lookup_insert_eq | exact Hhash].
  - destruct (artp_stores rt w u title date t s html H Hlen)
      as (article & event & (_&_&_&_&Hhash&_) & _ & ->).
    { intros e' He'. rewrite Hk in He'. discriminate. }
    eapply artp_unchanged; [exact Hsame | simpl; apply lookup_insert_eq | exact Hhash].
Qed.

(** With no chapters to crawl, nothing else can be stored under the key. *)
Lemma crawl_twice_single rt w gap u src ty meta parent t t2 s :
  gap = 0 \/ src <> nice ->
  respond w t2 u = respond w t u ->
  PollRss.crawlAndStoreGap rt w gap u src ty meta parent t2
    (PollRss.crawlAndStoreGap rt w gap u src ty meta parent t s).2
  = (Normal tt, S t2, (PollRss.crawlAndStoreGap rt w gap u src ty meta parent t s).2).
Proof.
  intros Hsingle Hsame.
  assert (Hnone : forall title links, PollRss.crawlChapters rt w gap src title u links = ret tt).
  { intros title links. unfold PollRss.crawlChapters.
    destruct src; try reflexivity. destruct gap; [reflexivity|].
    destruct Hsingle; [discriminate | contradiction]. }
  destruct (respond w t u) as [html| |] eqn:H.
  2,3: rewrite (crawl_fetch_fails rt w gap u src ty meta parent t s) by (rewrite H; discriminate);
       apply crawl_fetch_fails; rewrite Hsame; discriminate.
  destruct (Nat.lt_ge_cases (length (PollRss.extractContent html src).1) 50) as [Hlen|Hlen].
  { rewrite (crawl_too_short rt w gap u src ty meta parent t s html H Hlen).
    eapply crawl_too_short; eassumption. }
  destruct (guidance s !! storageKey u) as [e|] eqn:Hk.
  - destruct (decide (contentHash e = hashString (PollRss.extractContent html src).1)) as [Hh|Hh].
    { rewrite (crawl_unchanged rt w gap u src ty meta parent t s html e H Hk Hh).
      eapply crawl_unchanged; eassumption. }
    destruct (crawl_stores rt w gap u src ty meta parent t s html H Hlen)
      as (article & event & (_&_&_&_&Hhash&_) & _ & ->).
    { intros e' He'. rewrite Hk in He'. injection He' as <-. exact Hh. }
    rewrite Hnone. unfold ret.
    eapply crawl_unchanged; [exact Hsame | simpl; apply lookup_insert_eq | exact Hhash].
  - destruct (crawl_stores rt w gap u src ty meta parent t s html H Hlen)
      as (article & event & (_&_&_&_&Hhash&_) & _ & ->).
    { intros e' He'. rewrite Hk in He'. discriminate. }
    rewrite Hnone. unfold ret.
    eapply crawl_unchanged; [exact Hsame | simpl; apply lookup_insert_eq | exact Hhash].
Qed.

(** C1: an invocation of the crawl-and-store engine on a URL whose
    extracted content has the fingerprint of the entry stored under the
    URL's storage key changes no document: no article is written, no change
    event recorded, the unread counter is not incremented.  Consequently a
    second run on the documents the first run left, fetching the same bytes,
    changes nothing: for [crawlAndStoreARTP] and for a [crawlAndStore] that
    has no chapters to crawl, always; for a [crawlAndStore] that crawls
    chapters, when the page is served unchanged during the first run and no
    chapter was stored under the page's own key (which takes a collision of
    two URL fingerprints). *)
Theorem C1_unchanged_content_is_a_no_op
    (rt : Runtime) (w : World) (u : jsstring) (src : Source) (ty : jsstring)
    (meta : PollRss.CrawlMeta) (crawlDepth maxDepth : nat) (parent : option jsstring)
    (title : jsstring) (date : option jsstring) (t : nat) (s : Store) :
  let crawl := PollRss.crawlAndStore rt w u src ty meta crawlDepth maxDepth parent in
  let crawlARTP := PollArtp.crawlAndStoreARTP rt w u title date in
  (forall html e,
     respond w t u = Page html -> guidance s !! storageKey u = Some e ->
     contentHash e = hashString (PollRss.extractContent html src).1 ->
     crawl t s = (Normal tt, S t, s))
  /\ (forall html e,
        respond w t u = Page html -> guidance s !! storageKey u = Some e ->
        contentHash e = hashString (PollArtp.extractARTPContent html) ->
        crawlARTP t s = (Normal tt, S t, s))
  /\ (forall t2,
        respond w t2 u = respond w t u ->
        crawlARTP t2 (crawlARTP t s).2 = (Normal tt, S t2, (crawlARTP t s).2))
  /\ (forall t2,
        maxDepth <= crawlDepth \/ src <> nice ->
        respond w t2 u = respond w t u ->
        crawl t2 (crawl t s).2 = (Normal tt, S t2, (crawl t s).2))
  /\ (forall t2,
        (forall t', respond w t' u = respond w t u) ->
        (forall e1, guidance (crawl t s).2 !! storageKey u = Some e1 -> url e1 = u) ->
        crawl t2 (crawl t s).2 = (Normal tt, S t2, (crawl t s).2)).
Proof.
  intros crawl crawlARTP. unfold crawl, crawlARTP, PollRss.crawlAndStore.
  split; [|split; [|split; [|split]]].
  - intros html e Hfetch Hk Hh. eapply crawl_unchanged; eassumption.
  - intros html e Hfetch Hk Hh. eapply artp_unchanged; eassumption.
  - intros t2 Hsame. apply artp_twice. exact Hsame.
  - intros t2 Hsingle Hsame. apply crawl_twice_single; [|exact Hsame].
    destruct Hsingle as [Hd|Hs]; [left; lia | right; exact Hs].
  - intros t2 Hstable Hown. apply crawl_twice; assumption.
Qed.

(** The NICE guideline of the samples: crawled with its chapter, then
    crawled again. *)
Lemma C1_witness :
  let crawl := PollRss.crawlAndStore Samples.runtime Samples.web Samples.guidelineUrl nice
                 (js "guidance") (PollRss.titleOnly (js "Hypertension")) 0 1 None in
  size (guidance (crawl 0 Samples.emptyStore).2) = 2
  /\ crawl 6 (crawl 0 Samples.emptyStore).2 = (Normal tt, 7, (crawl 0 Samples.emptyStore).2).
Proof.
  intros crawl. split; [vm_compute; reflexivity|].
  refine (proj2 (proj2 (proj2 (proj2
            (C1_unchanged_content_is_a_no_op Samples.runtime Samples.web Samples.guidelineUrl
               nice (js "guidance") (PollRss.titleOnly (js "Hypertension")) 0 1 None
               (js "Hypertension") None 0 Samples.emptyStore)))) 6 _ _).
  - intros t'. reflexivity.
  - intros e1 He1. vm_compute in He1. injection He1 as <-. vm_compute. reflexivity.
Defined.


(** ** What the pipelines keep *)

Lemma orderly_refl s : orderly s s.
Proof. split; [reflexivity | intros k e He; left; exact He]. Qed.

Lemma orderly_trans s1 s2 s3 : orderly s1 s2 -> orderly s2 s3 -> orderly s1 s3.
Proof.
  intros [Hs12 Hw12] [Hs23 Hw23]. split; [etransitivity; eassumption|].
  intros k e He. destruct (Hw23 k e He) as [He2|Hwk]; [apply Hw12; exact He2 | right; exact Hwk].
Qed.

Lemma orderly_setSeen s k e : seen s !! k = None -> orderly s (setSeen (insert k e) s).
Proof.
  intros Hnone. split; [apply insert_subseteq; exact Hnone | intros k' e' He'; left; exact He'].
Qed.

Lemma orderly_afterStoring s key article ck event :
  wellKeyed key article -> orderly s (afterStoring s key article ck event).
Proof.
  intros Hwk. split; [reflexivity|]. intros k e He. simpl in He.
  destruct (decide (key = k)) as [<-|Hne].
  - rewrite lookup_insert_eq in He. injection He as <-. right. exact Hwk.
  - rewrite lookup_insert_ne in He by exact Hne. left. exact He.
Qed.

Lemma orderly_records s s' key article :
  seen s' = seen s -> guidance s' = <[key := article]> (guidance s) ->
  wellKeyed key article -> orderly s s'.
Proof.
  intros Hs Hg Hwk. split; [rewrite Hs; reflexivity|]. intros k e He. rewrite Hg in He.
  destruct (decide (key = k)) as [<-|Hne].
  - rewrite lookup_insert_eq in He. injection He as <-. right. exact Hwk.
  - rewrite lookup_insert_ne in He by exact Hne. left. exact He.
Qed.

Lemma orderly_same s s' : seen s' = seen s -> guidance s' = guidance s -> orderly s s'.
Proof.
  intros Hs Hg. split; [rewrite Hs; reflexivity|].
  intros k e He. rewrite Hg in He. left. exact He.
Qed.

Lemma engine_article_wellKeyed u text article :
  id article = storageKey u -> url article = u -> content article = text ->
  contentHash article = hashString text ->
  estimatedReadTime (metadata article) = readTime (countWords text) ->
  wellKeyed (storageKey u) article.
Proof.
  intros Hid Hurl Hc Hh Hr. unfold wellKeyed. rewrite Hid, Hurl, Hc, Hh, Hr.
  repeat split. apply readTime_pos, countWords_pos.
Qed.

Lemma keeps_orderly_crawl rt w gap u src ty meta parent :
  keeps orderly (PollRss.crawlAndStoreGap rt w gap u src ty meta parent).
Proof.
  apply (keeps_crawl rt w orderly (fun _ => True)); try exact I.
  - apply orderly_refl.
  - apply orderly_trans.
  - intros s u0 html src0 article ck event _ _ Hid Hurl _ Hc Hh Hr _.
    apply orderly_afterStoring. eapply engine_article_wellKeyed; eassumption.
Qed.

Lemma keeps_orderly_artp rt w u title date :
  keeps orderly (PollArtp.crawlAndStoreARTP rt w u title date).
Proof.
  apply (keeps_artp rt w orderly).
  - apply orderly_refl.
  - intros s u0 html article ck event _ Hid Hurl _ Hc Hh Hr.
    apply orderly_afterStoring. eapply engine_article_wellKeyed; eassumption.
Qed.

Section Pipelines.
Variable rt : Runtime.
Variable w : World.

#[local] Opaque hashString countWords decimalZ JS.beforeSep PollRss.crawlAndStoreGap
PollArtp.crawlAndStoreARTP PollRss.parseItem Html.plainText.

Lemma keeps_orderly_storeRssOnly src item count :
keeps orderly (PollRss.storeRssOnly rt w src item (hashString (PollRss.fi_link item)) count).
Proof.
intros t s. unfold PollRss.storeRssOnly, bind, get.
destruct (bool_decide _ || hashDiffers _ _); [|exact (orderly_refl s)].
unfold nowISO. cbn beta iota.
destruct (PollRss.fi_pubDate item) as [pubDate|].
- destruct (parseDate rt pubDate) as [time|]; [|exact (orderly_refl s)].
eapply orderly_records; [reflexivity | unfold modify, dateNow; simpl; reflexivity |].
unfold wellKeyed. simpl. repeat split. apply N.le_max_l.
- eapply orderly_records; [reflexivity | unfold modify, dateNow; simpl; reflexivity |].
unfold wellKeyed. simpl. repeat split. apply N.le_max_l.
Qed.

Lemma keeps_orderly_rssItem src includeKeywords excludeKeywords rssOnly itemMatch count :
keeps orderly (PollRss.rssItem rt w src includeKeywords excludeKeywords rssOnly itemMatch count).
Proof.
intros t s. unfold PollRss.rssItem.
destruct (negb _ || negb _); [exact (orderly_refl s)|].
destruct (negb (PollRss.relevant _ _ _ _)); [exact (orderly_refl s)|].
unfold bind at 1. unfold get.
case_bool_decide as Hseen; [exact (orderly_refl s)|].
assert (Hnone : seen s !! (sourceName src ++ js ":"
               ++ hashString (PollRss.fi_link (PollRss.parseItem
                    (default [] (Regex.group itemMatch 1))))) = None).
{ destruct (seen s !! _) eqn:E; [exfalso; apply Hseen; eexists; reflexivity | reflexivity]. }
unfold bind at 1. unfold nowISO. unfold bind at 1. unfold modify.
eapply orderly_trans; [apply orderly_setSeen; exact Hnone|].
destruct rssOnly.
- apply keeps_orderly_storeRssOnly.
- apply (keeps_bind orderly orderly_trans); [|intros _; apply keeps_ret, orderly_refl].
apply keeps_orderly_crawl.
Qed.

Lemma keeps_orderly_fetchRSSSource u src : keeps orderly (PollRss.fetchRSSSource rt w u src).
Proof.
unfold PollRss.fetchRSSSource.
apply (keeps_bind orderly orderly_trans).
- apply (keeps_tryCatch orderly orderly_trans).
+ apply (keeps_bind orderly orderly_trans);
[apply keeps_fetchPage, orderly_refl | intros html; apply keeps_ret, orderly_refl].
+ intros e. apply keeps_ret, orderly_refl.
- intros [xml|]; [|apply keeps_ret, orderly_refl].
apply (keeps_bind orderly orderly_trans); [apply keeps_get, orderly_refl|].
intros s0. apply (keeps_forEachWith orderly orderly_refl orderly_trans).
intros x b. apply keeps_orderly_rssItem.
Qed.

Lemma keeps_orderly_niceItem keywords m loc :
keeps orderly (PollRss.niceItem rt w keywords m loc).
Proof.
intros t s. unfold PollRss.niceItem. destruct loc as [seenUrls count].
destruct (decide _); [exact (orderly_refl s)|].
destruct (negb (JS.truthy _)); [exact (orderly_refl s)|].
destruct (Nat.ltb _ _ && negb _); [exact (orderly_refl s)|].
unfold bind at 1. unfold get.
case_bool_decide as Hseen; [exact (orderly_refl s)|].
match type of Hseen with
| ~ is_Some (seen s !! ?k) => assert (Hnone : seen s !! k = None)
end.
{ destruct (seen s !! _) eqn:E; [exfalso; apply Hseen; eexists; reflexivity | reflexivity]. }
unfold bind at 1. unfold nowISO. unfold bind at 1. unfold modify.
eapply orderly_trans; [apply orderly_setSeen; exact Hnone|].
apply (keeps_bind orderly orderly_trans); [|intros _; apply keeps_ret, orderly_refl].
apply keeps_orderly_crawl.
Qed.

Lemma keeps_orderly_fetchNICEGuidance : keeps orderly (PollRss.fetchNICEGuidance rt w).
Proof.
unfold PollRss.fetchNICEGuidance.
apply (keeps_bind orderly orderly_trans).
- apply (keeps_tryCatch orderly orderly_trans).
+ apply (keeps_bind orderly orderly_trans);
[apply keeps_fetchPage, orderly_refl | intros html; apply keeps_ret, orderly_refl].
+ intros e. apply keeps_ret, orderly_refl.
- intros [html|]; [|apply keeps_ret, orderly_refl].
apply (keeps_bind orderly orderly_trans); [apply keeps_get, orderly_refl|].
intros s0. apply (keeps_bind orderly orderly_trans).
+ apply (keeps_forEachWith orderly orderly_refl orderly_trans).
intros x b. apply keeps_orderly_niceItem.
+ intros loc. apply keeps_ret, orderly_refl.
Qed.

Lemma keeps_orderly_artpItem excludeKeywords now article newCount :
keeps orderly (PollArtp.artpItem rt w excludeKeywords now article newCount).
Proof.
intros t s. unfold PollArtp.artpItem.
unfold bind at 1. unfold get.
case_bool_decide as Hseen; [exact (orderly_refl s)|].
match type of Hseen with
| ~ is_Some (seen s !! ?k) => assert (Hnone : seen s !! k = None)
end.
{ destruct (seen s !! _) eqn:E; [exfalso; apply Hseen; eexists; reflexivity | reflexivity]. }
destruct (someKeyword _ _ _); [exact (orderly_refl s)|].
unfold bind at 1. unfold modify.
eapply orderly_trans; [apply orderly_setSeen; exact Hnone|].
apply (keeps_bind orderly orderly_trans); [|intros _; apply keeps_ret, orderly_refl].
apply keeps_orderly_artp.
Qed.

Lemma keeps_orderly_checkARTPNews : keeps orderly (PollArtp.checkARTPNews rt w).
Proof.
unfold PollArtp.checkARTPNews.
apply (keeps_bind orderly orderly_trans).
- apply (keeps_tryCatch orderly orderly_trans).
+ apply (keeps_bind orderly orderly_trans);
[apply keeps_fetchPage, orderly_refl | intros html; apply keeps_ret, orderly_refl].
+ intros e. apply keeps_ret, orderly_refl.
- intros [html|]; [|apply keeps_ret, orderly_refl].
apply (keeps_bind orderly orderly_trans); [apply keeps_get, orderly_refl|].
intros s0. apply (keeps_bind orderly orderly_trans); [apply keeps_nowISO, orderly_refl|].
intros now.
assert (Hrest : forall f, keeps orderly (modify (setPageHashes f))).
{ intros f. apply keeps_modify. intros s. apply orderly_same; reflexivity. }
destruct (PollArtp.listingUnchanged _ _), (pageHashes s0 !! PollArtp.pageKey);
try apply Hrest;
(apply (keeps_bind orderly orderly_trans);
[apply (keeps_forEachWith orderly orderly_refl orderly_trans);
intros x b; apply keeps_orderly_artpItem
| intros n; apply Hrest]).
Qed.

Lemma keeps_orderly_rss_run : keeps orderly (PollRss.run rt w).
Proof.
unfold PollRss.run.
apply (keeps_bind orderly orderly_trans); [apply keeps_nowISO, orderly_refl | intros _].
apply (keeps_bind orderly orderly_trans); [apply keeps_get, orderly_refl | intros s1].
apply (keeps_bind orderly orderly_trans);
[apply keeps_if; [apply keeps_orderly_fetchNICEGuidance | apply keeps_ret, orderly_refl]
| intros rNice].
apply (keeps_bind orderly orderly_trans); [apply keeps_get, orderly_refl | intros s2].
apply (keeps_bind orderly orderly_trans);
[apply keeps_if; [apply keeps_orderly_fetchRSSSource | apply keeps_ret, orderly_refl]
| intros rNcl].
apply (keeps_bind orderly orderly_trans); [apply keeps_get, orderly_refl | intros s3].
apply (keeps_bind orderly orderly_trans);
[apply keeps_if; [apply keeps_orderly_fetchRSSSource | apply keeps_ret, orderly_refl]
| intros rNhs].
apply (keeps_bind orderly orderly_trans); [apply keeps_nowISO, orderly_refl | intros finished].
apply keeps_modify. intros s0. apply orderly_same; reflexivity.
Qed.

Lemma keeps_orderly_artp_run : keeps orderly (PollArtp.run rt w).
Proof.
unfold PollArtp.run.
apply (keeps_bind orderly orderly_trans); [apply keeps_nowISO, orderly_refl | intros _].
apply (keeps_bind orderly orderly_trans); [apply keeps_get, orderly_refl | intros s1].
apply (keeps_bind orderly orderly_trans);
[apply keeps_if; [apply keeps_orderly_checkARTPNews | apply keeps_ret, orderly_refl]
| intros _].
apply (keeps_bind orderly orderly_trans); [apply keeps_nowISO, orderly_refl | intros finished].
apply keeps_modify. intros s0. apply orderly_same; reflexivity.
Qed.
End Pipelines.

(** The documents a script writes, compared with those it read. *)
Lemma main_rss_orderly rt w files :
  seen_json (PollRss.main rt w files).2 = seen_json files
  /\ guidance_json (PollRss.main rt w files).2 = guidance_json files
  \/ exists s0 s1,
       orderly s0 s1
       /\ seen s0 = default ∅ (seen_json files)
       /\ guidance s0 = default ∅ (guidance_json files)
       /\ seen_json (PollRss.main rt w files).2 = Some (seen s1)
       /\ guidance_json (PollRss.main rt w files).2 = Some (guidance s1).
Proof.
  unfold PollRss.main.
  match goal with |- context [PollRss.run rt w 0 ?s0] =>
    pose proof (keeps_orderly_rss_run rt w 0 s0) as H;
    destruct (PollRss.run rt w 0 s0) as [[[r|e] t] s1] eqn:E
  end.
  - right. eexists; exists s1. split; [exact H|]. repeat split; reflexivity.
  - left. split; reflexivity.
Qed.

Lemma main_artp_orderly rt w files :
  seen_json (PollArtp.main rt w files).2 = seen_json files
  /\ guidance_json (PollArtp.main rt w files).2 = guidance_json files
  \/ exists s0 s1,
       orderly s0 s1
       /\ seen s0 = default ∅ (seen_json files)
       /\ guidance s0 = default ∅ (guidance_json files)
       /\ seen_json (PollArtp.main rt w files).2 = Some (seen s1)
       /\ guidance_json (PollArtp.main rt w files).2 = Some (guidance s1).
Proof.
  unfold PollArtp.main.
  match goal with |- context [PollArtp.run rt w 0 ?s0] =>
    pose proof (keeps_orderly_artp_run rt w 0 s0) as H;
    destruct (PollArtp.run rt w 0 s0) as [[[r|e] t] s1] eqn:E
  end.
  - right. eexists; exists s1. split; [exact H|]. repeat split; reflexivity.
  - left. split; reflexivity.
Qed.

(** C9: every article that either poller writes is well keyed: its [id] is
    the key it is stored under, which is ['content:'] followed by the
    fingerprint of its [url]; its [contentHash] is the fingerprint of its
    [content]; and its estimated reading time is at least 1.  Stated for
    both engines, for the three source pipelines, and for the documents the
    two scripts write back: an article of [guidance.json] after the run is
    either an article that was there before, untouched, or well keyed. *)
Theorem C9_written_articles_are_well_keyed (rt : Runtime) (w : World) :
  (forall u src ty meta crawlDepth maxDepth parent t s,
     writesWellKeyed s (PollRss.crawlAndStore rt w u src ty meta crawlDepth maxDepth parent t s).2)
  /\ (forall u title date t s,
        writesWellKeyed s (PollArtp.crawlAndStoreARTP rt w u title date t s).2)
  /\ (forall u src t s, writesWellKeyed s (PollRss.fetchRSSSource rt w u src t s).2)
  /\ (forall t s, writesWellKeyed s (PollRss.fetchNICEGuidance rt w t s).2)
  /\ (forall t s, writesWellKeyed s (PollArtp.checkARTPNews rt w t s).2)
  /\ (forall files k e,
        default ∅ (guidance_json (PollRss.main rt w files).2) !! k = Some e ->
        default ∅ (guidance_json files) !! k = Some e \/ wellKeyed k e)
  /\ (forall files k e,
        default ∅ (guidance_json (PollArtp.main rt w files).2) !! k = Some e ->
        default ∅ (guidance_json files) !! k = Some e \/ wellKeyed k e).
Proof.
  repeat split.
  - intros. apply keeps_orderly_crawl.
  - intros. apply keeps_orderly_artp.
  - intros. apply keeps_orderly_fetchRSSSource.
  - intros. apply keeps_orderly_fetchNICEGuidance.
  - intros. apply keeps_orderly_checkARTPNews.
  - intros files k e He.
    destruct (main_rss_orderly rt w files)
      as [[_ Hg]|(s0 & s1 & [_ Hw] & _ & Hg0 & _ & Hg1)].
    + rewrite Hg in He. left. exact He.
    + rewrite Hg1 in He. simpl in He. rewrite <- Hg0. apply Hw. exact He.
  - intros files k e He.
    destruct (main_artp_orderly rt w files)
      as [[_ Hg]|(s0 & s1 & [_ Hw] & _ & Hg0 & _ & Hg1)].
    + rewrite Hg in He. left. exact He.
    + rewrite Hg1 in He. simpl in He. rewrite <- Hg0. apply Hw. exact He.
Qed.

Lemma seen_means_skipped (m : gmap jsstring SeenEntry) (k : jsstring) :
  is_Some (m !! k) -> bool_decide (is_Some (m !! k)) = true.
Proof. intros H. apply bool_decide_eq_true_2. exact H. Qed.

(** C8: no operation of either poller changes or deletes a seen entry:
    the entries of [seen.json] before a pipeline or a whole script runs are
    entries, with the same contents, afterwards, so that an entry is only
    ever written under a key that had none.  And a link whose key (source,
    colon, fingerprint of the URL) has an entry is skipped when its source
    is evaluated again: the round of the loop fetches nothing, reads no
    clock and leaves every document and the counter of the loop as they
    were. *)
Theorem C8_seen_entries_are_written_once (rt : Runtime) (w : World) :
  (forall u src t s, seen s ⊆ seen (PollRss.fetchRSSSource rt w u src t s).2)
  /\ (forall t s, seen s ⊆ seen (PollRss.fetchNICEGuidance rt w t s).2)
  /\ (forall t s, seen s ⊆ seen (PollArtp.checkARTPNews rt w t s).2)
  /\ (forall files,
        default ∅ (seen_json files) ⊆ default ∅ (seen_json (PollRss.main rt w files).2))
  /\ (forall files,
        default ∅ (seen_json files) ⊆ default ∅ (seen_json (PollArtp.main rt w files).2))
  /\ (forall src includeKeywords excludeKeywords rssOnly itemMatch count t s,
        is_Some (seen s !! (sourceName src ++ js ":"
                            ++ hashString (PollRss.fi_link
                                 (PollRss.parseItem (default [] (Regex.group itemMatch 1)))))) ->
        PollRss.rssItem rt w src includeKeywords excludeKeywords rssOnly itemMatch count t s
        = (Normal count, t, s))
  /\ (forall keywords m seenUrls count t s,
        is_Some (seen s !! (js "nice:"
                            ++ hashString (js "https://www.nice.org.uk"
                                           ++ default [] (Regex.group m 1)))) ->
        exists seenUrls',
          PollRss.niceItem rt w keywords m (seenUrls, count) t s
          = (Normal (seenUrls', count), t, s))
  /\ (forall excludeKeywords now article newCount t s,
        is_Some (seen s !! (js "artp:" ++ hashString (PollArtp.al_url article))) ->
        PollArtp.artpItem rt w excludeKeywords now article newCount t s
        = (Normal newCount, t, s)).
Proof.
  repeat split.
  - intros. apply keeps_orderly_fetchRSSSource.
  - intros. apply keeps_orderly_fetchNICEGuidance.
  - intros. apply keeps_orderly_checkARTPNews.
  - intros files.
    destruct (main_rss_orderly rt w files)
      as [[Hs _]|(s0 & s1 & [Hsub _] & Hs0 & _ & Hs1 & _)].
    + rewrite Hs. reflexivity.
    + rewrite Hs1. simpl. rewrite <- Hs0. exact Hsub.
  - intros files.
    destruct (main_artp_orderly rt w files)
      as [[Hs _]|(s0 & s1 & [Hsub _] & Hs0 & _ & Hs1 & _)].
    + rewrite Hs. reflexivity.
    + rewrite Hs1. simpl. rewrite <- Hs0. exact Hsub.
  - intros src includeKeywords excludeKeywords rssOnly itemMatch count t s Hseen.
    unfold PollRss.rssItem.
    destruct (negb _ || negb _); [reflexivity|].
    destruct (negb (PollRss.relevant _ _ _ _)); [reflexivity|].
    unfold bind, get. rewrite (seen_means_skipped _ _ Hseen). reflexivity.
  - intros keywords m seenUrls count t s Hseen.
    unfold PollRss.niceItem.
    destruct (decide _); [eexists; reflexivity|].
    destruct (negb (JS.truthy _)); [eexists; reflexivity|].
    destruct (Nat.ltb _ _ && negb _); [eexists; reflexivity|].
    unfold bind, get. rewrite (seen_means_skipped _ _ Hseen). eexists. reflexivity.
  - intros excludeKeywords now article newCount t s Hseen.
    unfold PollArtp.artpItem, bind, get. rewrite (seen_means_skipped _ _ Hseen). reflexivity.
Qed.

Lemma C8_witness :
  PollRss.rssItem Samples.runtime Samples.feedWorld ncl PollRss.PA_INCLUDE_KEYWORDS
    PollRss.PA_EXCLUDE_KEYWORDS true Samples.feedItem 0 4 Samples.afterFeed
  = (Normal 0, 4, Samples.afterFeed).
Proof.
  refine (proj1 (proj2 (proj2 (proj2 (proj2 (proj2
            (C8_seen_entries_are_written_once Samples.runtime Samples.feedWorld))))))
            ncl PollRss.PA_INCLUDE_KEYWORDS PollRss.PA_EXCLUDE_KEYWORDS true
            Samples.feedItem 0 4 Samples.afterFeed _).
  vm_compute. eexists. reflexivity.
Defined.

(** ** The relevance filter *)






(** ** The listing short-circuit *)

Lemma touch_only_lastChecked (pf : PageFingerprint) (now : jsstring) :
  pf_url (PollArtp.touch pf now) = pf_url pf
  /\ pf_hash (PollArtp.touch pf now) = pf_hash pf
  /\ lastChanged (PollArtp.touch pf now) = lastChanged pf
  /\ articlesFound (PollArtp.touch pf now) = articlesFound pf
  /\ newArticlesFound (PollArtp.touch pf now) = newArticlesFound pf
  /\ lastChecked (PollArtp.touch pf now) = now.
Proof. repeat split. Qed.

(** C5: when the listing page is fetched, a fingerprint record is cached
    for it and the fingerprint of the sorted URLs of the discovered links
    equals the cached one, [checkARTPNews] ends after that one fetch and
    one reading of the clock: no link is evaluated (no further fetch, no
    relevance check, no seen entry, no article, no change event), and the
    only change to the documents is that the cached record gets the
    current time as [lastChecked]; its other fields, the other records of
    the page-hash map and the four other documents are as before. *)
Theorem C5_unchanged_listing_short_circuits
    (rt : Runtime) (w : World) (t : nat) (s : Store) (html : jsstring) (pf : PageFingerprint)
    (Hfetch : respond w t (js "https://www.artp.org.uk/news") = Page html)
    (Hcached : pageHashes s !! PollArtp.pageKey = Some pf)
    (Hsame : pf_hash pf = PollArtp.listingHash (PollArtp.extractARTPArticleLinks html)) :
  let now := toISOString rt (clock w (S t)) in
  let s' := setPageHashes (insert PollArtp.pageKey (PollArtp.touch pf now)) s in
  PollArtp.checkARTPNews rt w t s = (Normal tt, S (S t), s')
  /\ (pf_url (PollArtp.touch pf now) = pf_url pf
      /\ pf_hash (PollArtp.touch pf now) = pf_hash pf
      /\ lastChanged (PollArtp.touch pf now) = lastChanged pf
      /\ articlesFound (PollArtp.touch pf now) = articlesFound pf
      /\ newArticlesFound (PollArtp.touch pf now) = newArticlesFound pf
      /\ lastChecked (PollArtp.touch pf now) = now)
  /\ seen s' = seen s /\ guidance s' = guidance s /\ changes s' = changes s
  /\ config s' = config s
  /\ (forall k, k <> PollArtp.pageKey -> pageHashes s' !! k = pageHashes s !! k).
Proof.
  intros now s'. split; [|split; [apply touch_only_lastChecked|]].
  - unfold PollArtp.checkARTPNews, bind, tryCatch, fetchPage, ret, get, nowISO.
    rewrite Hfetch. cbn beta iota. rewrite Hcached.
    unfold PollArtp.cachedHash. rewrite Hsame. unfold PollArtp.listingHash at 1.
    rewrite hashString_truthy. unfold PollArtp.listingUnchanged, PollArtp.listingHash.
    rewrite bool_decide_eq_true_2 by reflexivity.
    reflexivity.
  - repeat split. intros k Hk. simpl. apply lookup_insert_ne. congruence.
Qed.

Lemma C5_witness :
  PollArtp.checkARTPNews Samples.runtime Samples.artpWorld 5 Samples.afterListing
  = (Normal tt, 7,
     setPageHashes
       (alter (fun pf => PollArtp.touch pf (toISOString Samples.runtime
                                               (clock Samples.artpWorld 6)))
              PollArtp.pageKey)
       Samples.afterListing).
Proof.
  pose (cached := default (PollArtp.touch (Build_PageFingerprint [] [] [] [] 0 0) [])
                    (pageHashes Samples.afterListing !! PollArtp.pageKey)).
  assert (Hcached : pageHashes Samples.afterListing !! PollArtp.pageKey = Some cached).
  { vm_compute. reflexivity. }
  assert (Hsame : pf_hash cached
                  = PollArtp.listingHash (PollArtp.extractARTPArticleLinks Samples.listing)).
  { vm_compute. reflexivity. }
  destruct (C5_unchanged_listing_short_circuits Samples.runtime Samples.artpWorld 5
              Samples.afterListing Samples.listing cached eq_refl Hcached Hsame)
    as [Hrun _].
  rewrite Hrun. vm_compute. reflexivity.
Defined.

(** ** Block removal in [cleanHTML] *)

Section BlockRemoval.
Import Regex.



Lemma lastCU_cons prev x l : lastCU prev (x :: l) = lastCU (Some x) l.
Proof. reflexivity. Qed.

(** A literal under the [i] flag matches exactly the prefixes [startsCI]
accepts. *)
Lemma rmatch_litCI {R : Type} p prev s c (k : option N -> jsstring -> caps -> option R) :
rmatch (litCI p) prev s c k
= if startsCI p s then k (lastCU prev (take (length p) s)) (drop (length p) s) c else None.
Proof.
revert prev s. induction p as [|a p IH]; intros prev s; [reflexivity|].
unfold litCI in *. destruct p as [|b p].
- destruct s as [|x s]; simpl; [reflexivity|].
unfold chrCI. destruct (JS.eqCI a x); reflexivity.
- change (seq (map chrCI (a :: b :: p))) with (Cat (chrCI a) (seq (map chrCI (b :: p)))).
destruct s as [|x s]; [reflexivity|].
change (rmatch (Cat (chrCI a) (seq (map chrCI (b :: p)))) prev (x :: s) c k)
  with (if JS.eqCI a x then rmatch (seq (map chrCI (b :: p))) (Some x) s c k else None).
rewrite IH. change (startsCI (a :: b :: p) (x :: s))
  with (JS.eqCI a x && startsCI (b :: p) s).
destruct (JS.eqCI a x); reflexivity.
Qed.


End BlockRemoval.

Section RemoveBlock.
Import Regex.








End RemoveBlock.

Section PlainBlocks.



Lemma eqCI_lower_word a c :
JS.isLowerAZ a = true -> JS.eqCI a c = true -> JS.isWord c = true.
Proof.
unfold JS.eqCI, JS.asciiUpper, JS.isWord, JS.isDigit, JS.isUpperAZ, JS.isLowerAZ.
intros Ha H. rewrite Ha in H.
apply andb_true_iff in Ha. destruct Ha as [H1 H2]. apply N.leb_le in H1, H2.
destruct ((97 <=? c)%N && (c <=? 122)%N) eqn:Hc.
- rewrite !orb_true_r. reflexivity.
- apply N.eqb_eq in H.
assert (Hu : (65 <=? c)%N && (c <=? 90)%N = true).
{ apply andb_true_iff. split; apply N.leb_le; lia. }
rewrite Hu. rewrite !orb_true_r. reflexivity.
Qed.












End PlainBlocks.

Section WholeBlocks.










End WholeBlocks.





(** ** The search of the data client *)

(** C10, as stated, fails when the data files cannot be fetched: [search]
    awaits [loadData] before it looks at the query, and the rejection of
    [loadData] is the outcome of [search], however short the query. *)
Lemma C10_short_query_rejected_when_offline :
  length (JS.trim (toLowerCase Samples.runtime (js "a"))) < 2
  /\ (Client.search Samples.runtime Samples.offlineBrowser (js "a") None 0 Samples.emptyCache).1.1
     = Throw (js "TypeError: Failed to fetch").
Proof. split; vm_compute; [lia | reflexivity]. Qed.

(** C10, amended: [search] first awaits [loadData], which may fetch the
    three data files anew and may reject.  For a query whose lowercased,
    trimmed form is empty or shorter than 2 code units the outcome of
    [search] is that of [loadData], with, when it completes, an empty item
    list, total 0 and an empty query string as the result: the stored
    guidance is not read for it.  And whatever the query, a result holds at
    most 50 items, and never more than [total] reports. *)
Theorem C10_short_queries_and_the_cap
    (rt : Runtime) (b : Client.Browser) (query : jsstring) (wanted : option Source)
    (t : nat) (c : Client.Cache) :
  (length (JS.trim (toLowerCase rt query)) < 2 ->
   Client.search rt b query wanted t c
   = match Client.loadData b false t c with
     | (Normal _, t', c') => (Normal Client.emptyResult, t', c')
     | (Throw e, t', c') => (Throw e, t', c')
     end)
  /\ (forall r t' c',
        Client.search rt b query wanted t c = (Normal r, t', c') ->
        length (Client.items r) <= 50 /\ length (Client.items r) <= Client.total r).
Proof.
  split.
  - intros Hshort. unfold Client.search.
    destruct (Client.loadData b false t c) as [[[[]|e] t'] c']; [|reflexivity].
    rewrite (proj2 (orb_true_iff _ _)); [reflexivity|].
    right. apply Nat.ltb_lt. exact Hshort.
  - intros r t' c' H. unfold Client.search in H.
    destruct (Client.loadData b false t c) as [[[[]|e] t1] c1]; [|discriminate].
    destruct (negb _ || Nat.ltb _ _).
    + injection H as <- _ _. simpl. lia.
    + injection H as <- _ _. simpl. rewrite length_take. lia.
Qed.

Lemma C10_witness :
  (Client.search Samples.runtime Samples.library (js " A ") None 0 Samples.emptyCache).1
  = (Normal Client.emptyResult, 2).
Proof.
  rewrite (proj1 (C10_short_queries_and_the_cap Samples.runtime Samples.library (js " A ")
                    None 0 Samples.emptyCache)).
  - reflexivity.
  - vm_compute. lia.
Defined.

(** * Further properties of the code *)

(** ** The fingerprint *)

Lemma hexDigit_isHex (d : N) : (d < 16)%N -> isHexDigit (Sha256.hexDigit d) = true.
Proof.
  intros Hd. unfold Sha256.hexDigit, isHexDigit, JS.isDigit.
  destruct (N.ltb_spec d 10) as [H|H]; apply orb_true_iff; [left|right];
    apply andb_true_iff; split; apply N.leb_le; lia.
Qed.

Lemma hexWord_isHex (x : N) : Forall (fun c => isHexDigit c = true) (Sha256.hexWord x).
Proof.
  unfold Sha256.hexWord.
  repeat (apply Forall_cons; split; [apply hexDigit_isHex, N.mod_upper_bound; discriminate|]).
  apply Forall_nil. done.
Qed.

(** X1: [hashString] always answers exactly 16 code units, each a
    lowercase hexadecimal digit, whatever the text. *)
Theorem hashString_is_16_hex_digits (str : jsstring) :
  length (hashString str) = 16
  /\ Forall (fun c => isHexDigit c = true) (hashString str).
Proof.
  split; [apply hashString_length|].
  unfold hashString, JS.substring, Sha256.sha256hex, Sha256.hex.
  rewrite drop_0. apply Forall_take.
  repeat (apply Forall_app; split; [apply hexWord_isHex|]). apply hexWord_isHex.
Qed.

(** ** What the engine leaves alone *)

Lemma afterStoring_eq s s' key article ck event :
  seen s' = seen s -> guidance s' = <[key := article]> (guidance s) ->
  changes s' = <[ck := event]> (changes s) -> pageHashes s' = pageHashes s ->
  config s' = bumpUnread (config s) ->
  s' = afterStoring s key article ck event.
Proof.
  destruct s'. simpl. intros -> -> -> -> ->. reflexivity.
Qed.

Lemma untouched_refl s : untouched s s.
Proof. repeat split. Qed.

Lemma untouched_trans s1 s2 s3 : untouched s1 s2 -> untouched s2 s3 -> untouched s1 s3.
Proof.
  intros (H1 & H2 & H3 & H4) (K1 & K2 & K3 & K4).
  repeat split; etransitivity; eassumption.
Qed.

Lemma normal_unit {St : Type} (m : Eff St unit) t s :
  completes m -> (m t s).1.1 = Normal tt.
Proof. intros H. destruct (H t s) as [[] Ha]. exact Ha. Qed.

(** X2: neither engine ever throws, whatever the site answers, and neither
    touches anything but articles, change events and the unread counter:
    the seen entries, the page fingerprints, the configuration of the
    sources and the statistics of the runs are after the call what they
    were before it.  [crawlAndStore] at any depth, chapters included, and
    [crawlAndStoreARTP]. *)
Theorem engines_never_throw_and_leave_the_rest
    (rt : Runtime) (w : World) (u : jsstring) (src : Source) (ty : jsstring)
    (meta : PollRss.CrawlMeta) (crawlDepth maxDepth : nat) (parent : option jsstring)
    (title : jsstring) (date : option jsstring) (t : nat) (s : Store) :
  ((PollRss.crawlAndStore rt w u src ty meta crawlDepth maxDepth parent t s).1.1 = Normal tt
   /\ untouched s (PollRss.crawlAndStore rt w u src ty meta crawlDepth maxDepth parent t s).2)
  /\ ((PollArtp.crawlAndStoreARTP rt w u title date t s).1.1 = Normal tt
      /\ untouched s (PollArtp.crawlAndStoreARTP rt w u title date t s).2).
Proof.
  split; split.
  - apply normal_unit, completes_crawl.
  - unfold PollRss.crawlAndStore.
    apply (keeps_crawl rt w untouched (fun _ => True)); try exact I.
    + apply untouched_refl.
    + apply untouched_trans.
    + intros. repeat split.
  - apply normal_unit, completes_artp.
  - apply (keeps_artp rt w untouched).
    + apply untouched_refl.
    + intros. repeat split.
Qed.

(** ** What a whole run keeps

    A relation between the documents before and after that holds across
    each kind of assignment the scripts make holds across the pipelines
    and across a whole run. *)

Section RunKeeps.
Variable rt : Runtime.
Variable w : World.
Variable R : Store -> Store -> Prop.
Hypothesis R_refl : forall s, R s s.
Hypothesis R_trans : forall s1 s2 s3, R s1 s2 -> R s2 s3 -> R s1 s3.
Hypothesis R_seen : forall s k e, seen s !! k = None -> R s (setSeen (insert k e) s).
Hypothesis R_store : forall s key article ck event, R s (afterStoring s key article ck event).
Hypothesis R_pages : forall s f, R s (setPageHashes f s).
Hypothesis R_stats : forall s f,
(forall c, sources (f c) = sources c /\ unreadChanges (f c) = unreadChanges c) ->
R s (setConfig f s).

#[local] Opaque hashString countWords decimalZ JS.beforeSep PollRss.crawlAndStoreGap
PollArtp.crawlAndStoreARTP PollRss.parseItem Html.plainText.

Lemma run_keeps_crawl gap u src ty meta parent :
keeps R (PollRss.crawlAndStoreGap rt w gap u src ty meta parent).
Proof using R_refl R_trans R_store.
apply (keeps_crawl rt w R (fun _ => True)); try exact I; auto.
Qed.

Lemma run_keeps_artp u title date : keeps R (PollArtp.crawlAndStoreARTP rt w u title date).
Proof using R_refl R_store.
apply (keeps_artp rt w R); auto.
Qed.

Lemma run_keeps_storeRssOnly src item hash count :
keeps R (PollRss.storeRssOnly rt w src item hash count).
Proof using R_refl R_store.
intros t s. unfold PollRss.storeRssOnly, bind, get.
destruct (bool_decide _ || hashDiffers _ _); [|exact (R_refl s)].
unfold nowISO. cbn beta iota.
destruct (PollRss.fi_pubDate item) as [pubDate|].
- destruct (parseDate rt pubDate) as [time|]; [|exact (R_refl s)].
  unfold ret, modify, dateNow. cbn beta iota.
  erewrite (afterStoring_eq s); [apply R_store|..]; reflexivity.
- unfold ret, modify, dateNow. cbn beta iota.
  erewrite (afterStoring_eq s); [apply R_store|..]; reflexivity.
Qed.

Lemma run_keeps_rssItem src includeKeywords excludeKeywords rssOnly itemMatch count :
keeps R (PollRss.rssItem rt w src includeKeywords excludeKeywords rssOnly itemMatch count).
Proof using R_refl R_trans R_seen R_store.
intros t s. unfold PollRss.rssItem.
destruct (negb _ || negb _); [exact (R_refl s)|].
destruct (negb (PollRss.relevant _ _ _ _)); [exact (R_refl s)|].
unfold bind at 1. unfold get.
case_bool_decide as Hseen; [exact (R_refl s)|].
match type of Hseen with
| ~ is_Some (seen s !! ?k) => assert (Hnone : seen s !! k = None)
end.
{ destruct (seen s !! _) eqn:E; [exfalso; apply Hseen; eexists; reflexivity | reflexivity]. }
unfold bind at 1. unfold nowISO. unfold bind at 1. unfold modify.
eapply R_trans; [apply R_seen; exact Hnone|].
destruct rssOnly.
- apply run_keeps_storeRssOnly.
- apply (keeps_bind R R_trans); [|intros _; apply keeps_ret, R_refl].
  apply run_keeps_crawl.
Qed.

Lemma run_keeps_fetchRSSSource u src : keeps R (PollRss.fetchRSSSource rt w u src).
Proof using R_refl R_trans R_seen R_store.
unfold PollRss.fetchRSSSource.
apply (keeps_bind R R_trans).
- apply (keeps_tryCatch R R_trans).
  + apply (keeps_bind R R_trans);
      [apply keeps_fetchPage, R_refl | intros html; apply keeps_ret, R_refl].
  + intros e. apply keeps_ret, R_refl.
- intros [xml|]; [|apply keeps_ret, R_refl].
  apply (keeps_bind R R_trans); [apply keeps_get, R_refl|].
  intros s0. apply (keeps_forEachWith R R_refl R_trans).
  intros x n. apply run_keeps_rssItem.
Qed.

Lemma run_keeps_niceItem keywords m loc : keeps R (PollRss.niceItem rt w keywords m loc).
Proof using R_refl R_trans R_seen R_store.
intros t s. unfold PollRss.niceItem. destruct loc as [seenUrls count].
destruct (decide _); [exact (R_refl s)|].
destruct (negb (JS.truthy _)); [exact (R_refl s)|].
destruct (Nat.ltb _ _ && negb _); [exact (R_refl s)|].
unfold bind at 1. unfold get.
case_bool_decide as Hseen; [exact (R_refl s)|].
match type of Hseen with
| ~ is_Some (seen s !! ?k) => assert (Hnone : seen s !! k = None)
end.
{ destruct (seen s !! _) eqn:E; [exfalso; apply Hseen; eexists; reflexivity | reflexivity]. }
unfold bind at 1. unfold nowISO. unfold bind at 1. unfold modify.
eapply R_trans; [apply R_seen; exact Hnone|].
apply (keeps_bind R R_trans); [|intros _; apply keeps_ret, R_refl].
apply run_keeps_crawl.
Qed.

Lemma run_keeps_fetchNICEGuidance : keeps R (PollRss.fetchNICEGuidance rt w).
Proof using R_refl R_trans R_seen R_store.
unfold PollRss.fetchNICEGuidance.
apply (keeps_bind R R_trans).
- apply (keeps_tryCatch R R_trans).
  + apply (keeps_bind R R_trans);
      [apply keeps_fetchPage, R_refl | intros html; apply keeps_ret, R_refl].
  + intros e. apply keeps_ret, R_refl.
- intros [html|]; [|apply keeps_ret, R_refl].
  apply (keeps_bind R R_trans); [apply keeps_get, R_refl|].
  intros s0. apply (keeps_bind R R_trans).
  + apply (keeps_forEachWith R R_refl R_trans).
    intros x n. apply run_keeps_niceItem.
  + intros loc. apply keeps_ret, R_refl.
Qed.

Lemma run_keeps_artpItem excludeKeywords now article newCount :
keeps R (PollArtp.artpItem rt w excludeKeywords now article newCount).
Proof using R_refl R_trans R_seen R_store.
intros t s. unfold PollArtp.artpItem.
unfold bind at 1. unfold get.
case_bool_decide as Hseen; [exact (R_refl s)|].
match type of Hseen with
| ~ is_Some (seen s !! ?k) => assert (Hnone : seen s !! k = None)
end.
{ destruct (seen s !! _) eqn:E; [exfalso; apply Hseen; eexists; reflexivity | reflexivity]. }
destruct (someKeyword _ _ _); [exact (R_refl s)|].
unfold bind at 1. unfold modify.
eapply R_trans; [apply R_seen; exact Hnone|].
apply (keeps_bind R R_trans); [|intros _; apply keeps_ret, R_refl].
apply run_keeps_artp.
Qed.

Lemma run_keeps_checkARTPNews : keeps R (PollArtp.checkARTPNews rt w).
Proof using R_refl R_trans R_seen R_store R_pages.
unfold PollArtp.checkARTPNews.
apply (keeps_bind R R_trans).
- apply (keeps_tryCatch R R_trans).
  + apply (keeps_bind R R_trans);
      [apply keeps_fetchPage, R_refl | intros html; apply keeps_ret, R_refl].
  + intros e. apply keeps_ret, R_refl.
- intros [html|]; [|apply keeps_ret, R_refl].
  apply (keeps_bind R R_trans); [apply keeps_get, R_refl|].
  intros s0. apply (keeps_bind R R_trans); [apply keeps_nowISO, R_refl|].
  intros now.
  assert (Hrest : forall f, keeps R (modify (setPageHashes f))).
  { intros f. apply keeps_modify. intros s. apply R_pages. }
  destruct (PollArtp.listingUnchanged _ _), (pageHashes s0 !! PollArtp.pageKey);
    try apply Hrest;
    (apply (keeps_bind R R_trans);
     [apply (keeps_forEachWith R R_refl R_trans);
      intros x n; apply run_keeps_artpItem
     | intros n; apply Hrest]).
Qed.

Lemma run_keeps_rss : keeps R (PollRss.run rt w).
Proof using R_refl R_trans R_seen R_store R_stats.
unfold PollRss.run.
apply (keeps_bind R R_trans); [apply keeps_nowISO, R_refl | intros _].
apply (keeps_bind R R_trans); [apply keeps_get, R_refl | intros s1].
apply (keeps_bind R R_trans);
  [apply keeps_if; [apply run_keeps_fetchNICEGuidance | apply keeps_ret, R_refl]
  | intros rNice].
apply (keeps_bind R R_trans); [apply keeps_get, R_refl | intros s2].
apply (keeps_bind R R_trans);
  [apply keeps_if; [apply run_keeps_fetchRSSSource | apply keeps_ret, R_refl]
  | intros rNcl].
apply (keeps_bind R R_trans); [apply keeps_get, R_refl | intros s3].
apply (keeps_bind R R_trans);
  [apply keeps_if; [apply run_keeps_fetchRSSSource | apply keeps_ret, R_refl]
  | intros rNhs].
apply (keeps_bind R R_trans); [apply keeps_nowISO, R_refl | intros finished].
apply keeps_modify. intros s0. apply R_stats. intros c. split; reflexivity.
Qed.

Lemma run_keeps_artp_run : keeps R (PollArtp.run rt w).
Proof using R_refl R_trans R_seen R_store R_pages R_stats.
unfold PollArtp.run.
apply (keeps_bind R R_trans); [apply keeps_nowISO, R_refl | intros _].
apply (keeps_bind R R_trans); [apply keeps_get, R_refl | intros s1].
apply (keeps_bind R R_trans);
  [apply keeps_if; [apply run_keeps_checkARTPNews | apply keeps_ret, R_refl]
  | intros _].
apply (keeps_bind R R_trans); [apply keeps_nowISO, R_refl | intros finished].
apply keeps_modify. intros s0. apply R_stats. intros c. split; reflexivity.
Qed.

End RunKeeps.

Lemma tidy_refl s : tidy s s.
Proof. unfold tidy, growsOnly. repeat split; try reflexivity; lia. Qed.

Lemma tidy_trans s1 s2 s3 : tidy s1 s2 -> tidy s2 s3 -> tidy s1 s3.
Proof.
  unfold tidy, growsOnly.
  intros ((G1 & C1 & U1 & N1) & S1) ((G2 & C2 & U2 & N2) & S2).
  repeat split; try (etransitivity; eassumption); lia.
Qed.

Lemma tidy_afterStoring s key article ck event :
  tidy s (afterStoring s key article ck event).
Proof.
  unfold tidy, growsOnly, unread. simpl. repeat split.
  - rewrite dom_insert. set_solver.
  - rewrite dom_insert. set_solver.
  - lia.
  - destruct (changes s !! ck) as [e|] eqn:E.
    + rewrite map_size_insert_Some by (eexists; exact E). lia.
    + rewrite map_size_insert_None by exact E. lia.
Qed.

Lemma tidy_same s s' :
  guidance s' = guidance s -> changes s' = changes s ->
  sources (config s') = sources (config s) ->
  unreadChanges (config s') = unreadChanges (config s) -> tidy s s'.
Proof.
  unfold tidy, growsOnly, unread. intros -> -> -> ->.
  repeat split; try reflexivity; lia.
Qed.

Lemma keeps_tidy_rss rt w : keeps tidy (PollRss.run rt w).
Proof.
  apply run_keeps_rss.
  - apply tidy_refl.
  - apply tidy_trans.
  - intros. apply tidy_same; reflexivity.
  - apply tidy_afterStoring.
  - intros s f H. apply tidy_same; simpl; try reflexivity; apply H.
Qed.

Lemma keeps_tidy_artp rt w : keeps tidy (PollArtp.run rt w).
Proof.
  apply run_keeps_artp_run.
  - apply tidy_refl.
  - apply tidy_trans.
  - intros. apply tidy_same; reflexivity.
  - apply tidy_afterStoring.
  - intros. apply tidy_same; reflexivity.
  - intros s f H. apply tidy_same; simpl; try reflexivity; apply H.
Qed.

(** X3: a run of either script deletes nothing and leaves the sources as
    configured.  Comparing the documents a script read with those it
    leaves in the files: every stored article and every change event still
    has its entry, the configuration of the sources (enabled flags,
    keywords, rssOnly) is the same, the unread counter has not gone down,
    and it has gone up by at least the number of change events added. *)
Theorem runs_delete_nothing (rt : Runtime) (w : World) (files : Files) :
  tidy (held PollRss.defaultConfig files)
       (held PollRss.defaultConfig (PollRss.main rt w files).2)
  /\ tidy (held PollArtp.defaultConfig files)
          (held PollArtp.defaultConfig (PollArtp.main rt w files).2).
Proof.
  split.
  - unfold PollRss.main.
    match goal with |- context [PollRss.run rt w 0 ?s0] =>
      pose proof (keeps_tidy_rss rt w 0 s0) as H;
      destruct (PollRss.run rt w 0 s0) as [[[r|e] t] s1]
    end; [|apply tidy_refl].
    exact H.
  - unfold PollArtp.main.
    match goal with |- context [PollArtp.run rt w 0 ?s0] =>
      pose proof (keeps_tidy_artp rt w 0 s0) as H;
      destruct (PollArtp.run rt w 0 s0) as [[[r|e] t] s1]
    end; [|apply tidy_refl].
    exact H.
Qed.

(** ** A listing that cannot be fetched *)

Lemma listing_fetch_fails {A : Type} (w : World) (u : jsstring) (k : option jsstring -> M A)
    (t : nat) (s : Store) :
  (forall body, respond w t u <> Page body) ->
  bind (tryCatch (bind (fetchPage w u) (fun html => ret (Some html))) (fun _ => ret None)) k t s
  = k None (S t) s.
Proof.
  intros H. unfold bind, tryCatch, fetchPage, ret.
  destruct (respond w t u) as [body| |]; [exfalso; apply (H body); reflexivity | |]; reflexivity.
Qed.

(** X4: when the listing of a source cannot be fetched (network error or
    a response that is not 2xx), its pipeline ends normally, reports no new
    item and leaves all five documents as they were; only the request is
    counted.  [fetchNICEGuidance] for the page of published guidance,
    [fetchRSSSource] for any feed, [checkARTPNews] for the news page, whose
    fingerprint entry is not even touched. *)
Theorem unreachable_listing_changes_nothing
    (rt : Runtime) (w : World) (u : jsstring) (src : Source) (t : nat) (s : Store) :
  ((forall body,
      respond w t (js "https://www.nice.org.uk/guidance/published?ngt=Guidelines&ps=50")
      <> Page body) ->
   PollRss.fetchNICEGuidance rt w t s = (Normal 0, S t, s))
  /\ ((forall body, respond w t u <> Page body) ->
      PollRss.fetchRSSSource rt w u src t s = (Normal 0, S t, s))
  /\ ((forall body, respond w t (js "https://www.artp.org.uk/news") <> Page body) ->
      PollArtp.checkARTPNews rt w t s = (Normal tt, S t, s)).
Proof.
  repeat split; intros H.
  - unfold PollRss.fetchNICEGuidance. rewrite listing_fetch_fails by exact H. reflexivity.
  - unfold PollRss.fetchRSSSource. rewrite listing_fetch_fails by exact H. reflexivity.
  - unfold PollArtp.checkARTPNews. cbv zeta. rewrite listing_fetch_fails by exact H. reflexivity.
Qed.

Lemma unreachable_listing_witness :
  PollRss.fetchNICEGuidance Samples.runtime Samples.offline 0 Samples.emptyStore
    = (Normal 0, 1, Samples.emptyStore)
  /\ PollRss.fetchRSSSource Samples.runtime Samples.offline Samples.feedUrl ncl 0
       Samples.emptyStore = (Normal 0, 1, Samples.emptyStore)
  /\ PollArtp.checkARTPNews Samples.runtime Samples.offline 0 Samples.emptyStore
     = (Normal tt, 1, Samples.emptyStore).
Proof.
  destruct (unreachable_listing_changes_nothing Samples.runtime Samples.offline
              Samples.feedUrl ncl 0 Samples.emptyStore) as (H1 & H2 & H3).
  split; [apply H1; intros body; simpl; discriminate|].
  split; [apply H2; intros body; simpl; discriminate|].
  apply H3; intros body; simpl; discriminate.
Defined.

(** ** A feed item whose date does not parse *)

(** X5: in [rssOnly] mode an item that gets as far as being stored (title
    and link present, relevant, not seen before, nothing stored under its
    key with the same fingerprint) and whose [pubDate] is present but not
    a date that [new Date] can parse makes [toISOString] throw a
    RangeError, which nothing in [fetchRSSSource] catches.  By then the
    seen entry of the item has been assigned in memory, while no article
    and no change event has. *)
Theorem rss_only_item_with_bad_date_throws
    (rt : Runtime) (w : World) (src : Source) (includeKeywords excludeKeywords : list jsstring)
    (itemMatch : Regex.found) (item : PollRss.FeedItem) (pubDate : jsstring)
    (count t : nat) (s : Store)
    (Hitem : PollRss.parseItem (default [] (Regex.group itemMatch 1)) = item)
    (Htitle : JS.truthy (PollRss.fi_title item) = true)
    (Hlink : JS.truthy (PollRss.fi_link item) = true)
    (Hrelevant : PollRss.relevant rt includeKeywords excludeKeywords item = true)
    (Hnew : seen s !! (sourceName src ++ js ":" ++ hashString (PollRss.fi_link item)) = None)
    (Hdate : PollRss.fi_pubDate item = Some pubDate)
    (Hbad : parseDate rt pubDate = None)
    (Hfresh : forall e, guidance s !! storageKey (PollRss.fi_link item) = Some e ->
                        contentHash e
                        <> hashString (JS.or (PollRss.fi_description item)
                                             (PollRss.fi_title item))) :
  exists entry,
    PollRss.rssItem rt w src includeKeywords excludeKeywords true itemMatch count t s
    = (Throw (js "RangeError: Invalid time value"), S (S t),
       setSeen (insert (sourceName src ++ js ":" ++ hashString (PollRss.fi_link item)) entry) s).
Proof.
  assert (Hgo : bool_decide (guidance s !! (js "content:" ++ hashString (PollRss.fi_link item))
                             = None)
                || hashDiffers (guidance s !! (js "content:" ++ hashString (PollRss.fi_link item)))
                     (hashString (JS.or (PollRss.fi_description item) (PollRss.fi_title item)))
                = true).
  { unfold storageKey in Hfresh. pose proof (new_or_changed _ _ _ Hfresh) as H.
    destruct (bool_decide _), (hashDiffers _ _); simpl in *; congruence. }
  unfold PollRss.rssItem. rewrite Hitem, Htitle, Hlink, Hrelevant. cbn [negb orb].
  unfold bind at 1. unfold get. cbv beta iota. rewrite Hnew.
  rewrite bool_decide_eq_false_2 by (intros [x Hx]; discriminate Hx).
  eexists. unfold bind at 1. unfold nowISO. unfold bind at 1. unfold modify.
  unfold PollRss.storeRssOnly. unfold bind at 1. unfold get.
  cbn [guidance setSeen].
  rewrite Hgo. unfold bind at 1. rewrite Hdate, Hbad. unfold bind, throw. reflexivity.
Qed.

Lemma rss_only_bad_date_witness :
  exists entry,
    PollRss.rssItem Samples.runtime Samples.feedWorld ncl PollRss.PA_INCLUDE_KEYWORDS
      PollRss.PA_EXCLUDE_KEYWORDS true DatedFeed.feedItem 0 1 Samples.emptyStore
    = (Throw (js "RangeError: Invalid time value"), 3,
       setSeen (insert (sourceName ncl ++ js ":" ++ hashString (js "https://x/ckd")) entry)
               Samples.emptyStore).
Proof.
  apply (rss_only_item_with_bad_date_throws Samples.runtime Samples.feedWorld ncl
           PollRss.PA_INCLUDE_KEYWORDS PollRss.PA_EXCLUDE_KEYWORDS DatedFeed.feedItem
           (PollRss.parseItem (default [] (Regex.group DatedFeed.feedItem 1)))
           (js "next week") 0 1 Samples.emptyStore).
  - reflexivity.
  - vm_compute. reflexivity.
  - vm_compute. reflexivity.
  - vm_compute. reflexivity.
  - reflexivity.
  - vm_compute. reflexivity.
  - reflexivity.
  - intros e He. simpl in He. rewrite lookup_empty in He. discriminate He.
Defined.

(** ** Runs that cannot fail *)

Section CompletesFrom.
Context {St : Type} (I : St -> Prop).

Lemma completesFrom_bind {A B : Type} (m : Eff St A) (f : A -> Eff St B) :
  completesFrom I m -> (forall a, completesFrom I (f a)) -> completesFrom I (bind m f).
Proof.
  intros Hm Hf t s Hs. unfold bind. destruct (Hm t s Hs) as [[a Ha] HI].
  destruct (m t s) as [[c t'] s']; simpl in Ha, HI; subst c. apply Hf. exact HI.
Qed.

Lemma completesFrom_keeps {A : Type} (R : St -> St -> Prop) (m : Eff St A) :
  (forall s s', R s s' -> I s -> I s') -> completes m -> keeps R m -> completesFrom I m.
Proof.
  intros HR Hc Hk t s Hs. split; [apply Hc | eapply HR; [apply Hk | exact Hs]].
Qed.

Lemma completesFrom_if {A : Type} (c : bool) (m1 m2 : Eff St A) :
  completesFrom I m1 -> completesFrom I m2 -> completesFrom I (if c then m1 else m2).
Proof. destruct c; auto. Qed.

Lemma completesFrom_ret {A : Type} (a : A) : completesFrom I (ret a).
Proof. intros t s Hs. split; [eexists; reflexivity | exact Hs]. Qed.

End CompletesFrom.

Section NeverThrows.
Variable rt : Runtime.
Variable w : World.

#[local] Opaque PollRss.crawlAndStoreGap PollArtp.crawlAndStoreARTP hashString
  PollRss.parseItem Html.plainText.

Lemma completes_fetched (u : jsstring) :
  completes (tryCatch (bind (fetchPage w u) (fun html => ret (Some html)))
                      (fun _ => ret (St := Store) (@None jsstring))).
Proof. apply completes_tryCatch. intros e. apply completes_ret. Qed.

Lemma completes_niceItem keywords m loc : completes (PollRss.niceItem rt w keywords m loc).
Proof.
  unfold PollRss.niceItem. destruct loc as [seenUrls count].
  destruct (decide _); [apply completes_ret|].
  destruct (negb (JS.truthy _)); [apply completes_ret|].
  destruct (Nat.ltb _ _ && negb _); [apply completes_ret|].
  apply completes_bind; [apply completes_get | intros s].
  destruct (bool_decide _); [apply completes_ret|].
  apply completes_bind; [apply completes_nowISO | intros discovered].
  apply completes_bind; [apply completes_modify | intros _].
  apply completes_bind; [apply completes_crawl | intros _].
  apply completes_ret.
Qed.

Lemma completes_fetchNICEGuidance : completes (PollRss.fetchNICEGuidance rt w).
Proof.
  unfold PollRss.fetchNICEGuidance.
  apply completes_bind; [apply completes_fetched | intros [html|]]; [|apply completes_ret].
  apply completes_bind; [apply completes_get | intros s].
  apply completes_bind; [|intros loc; apply completes_ret].
  apply completes_forEachWith. intros x loc. apply completes_niceItem.
Qed.

Lemma completes_rssItem src includeKeywords excludeKeywords itemMatch count :
  completes (PollRss.rssItem rt w src includeKeywords excludeKeywords false itemMatch count).
Proof.
  unfold PollRss.rssItem.
  destruct (negb _ || negb _); [apply completes_ret|].
  destruct (negb (PollRss.relevant _ _ _ _)); [apply completes_ret|].
  apply completes_bind; [apply completes_get | intros s].
  destruct (bool_decide _); [apply completes_ret|].
  apply completes_bind; [apply completes_nowISO | intros discovered].
  apply completes_bind; [apply completes_modify | intros _].
  apply completes_bind; [apply completes_crawl | intros _].
  apply completes_ret.
Qed.

Lemma fetchRSSSource_completes u src t s :
  storesFeedOnly (config s) src = false ->
  exists n, (PollRss.fetchRSSSource rt w u src t s).1.1 = Normal n.
Proof.
  intros Hs. unfold PollRss.fetchRSSSource. unfold bind at 1.
  destruct (completes_fetched u t s) as [fetched Hf].
  destruct (tryCatch _ _ t s) as [[c t'] s'] eqn:E.
  assert (Hsame : s' = s).
  { revert E. unfold tryCatch, bind, fetchPage, ret.
    destruct (respond w t u); intros [= _ _ <-]; reflexivity. }
  simpl in Hf. subst c s'. destruct fetched as [xml|]; [|eexists; reflexivity].
  unfold bind at 1. unfold get. fold (storesFeedOnly (config s) src). rewrite Hs.
  apply completes_forEachWith. intros x n. apply completes_rssItem.
Qed.

Lemma completes_artpItem excludeKeywords now article newCount :
  completes (PollArtp.artpItem rt w excludeKeywords now article newCount).
Proof.
  unfold PollArtp.artpItem.
  apply completes_bind; [apply completes_get | intros s].
  destruct (bool_decide _); [apply completes_ret|].
  destruct (someKeyword _ _ _); [apply completes_ret|].
  apply completes_bind; [apply completes_modify | intros _].
  apply completes_bind; [apply completes_artp | intros _].
  apply completes_ret.
Qed.

Lemma completes_checkARTPNews : completes (PollArtp.checkARTPNews rt w).
Proof.
  unfold PollArtp.checkARTPNews. cbv zeta.
  apply completes_bind; [apply completes_fetched | intros [html|]]; [|apply completes_ret].
  apply completes_bind; [apply completes_get | intros s].
  apply completes_bind; [apply completes_nowISO | intros now].
  destruct (PollArtp.listingUnchanged _ _), (pageHashes s !! PollArtp.pageKey);
    try apply completes_modify;
    (apply completes_bind; [|intros n; apply completes_modify];
     apply completes_forEachWith; intros x n; apply completes_artpItem).
Qed.

Lemma completes_artp_run : completes (PollArtp.run rt w).
Proof.
  unfold PollArtp.run.
  apply completes_bind; [apply completes_nowISO | intros _].
  apply completes_bind; [apply completes_get | intros s].
  apply completes_bind;
    [apply completes_if; [apply completes_checkARTPNews | apply completes_ret] | intros _].
  apply completes_bind; [apply completes_nowISO | intros finished].
  apply completes_modify.
Qed.

Lemma tidy_fetchesPages s s' : tidy s s' -> fetchesPages s -> fetchesPages s'.
Proof.
  intros [_ Hsrc]. unfold fetchesPages, storesFeedOnly, sourceConfig. rewrite Hsrc. auto.
Qed.

Lemma tidy_modify_seen s k e : seen s !! k = None -> tidy s (setSeen (insert k e) s).
Proof. intros _. apply tidy_same; reflexivity. Qed.

Lemma fetchRSSSource_from u src :
  src = ncl \/ src = nhs -> completesFrom fetchesPages (PollRss.fetchRSSSource rt w u src).
Proof.
  intros Hsrc t s Hs. split.
  - apply fetchRSSSource_completes. destruct Hs as [H1 H2]. destruct Hsrc; subst; assumption.
  - eapply tidy_fetchesPages; [|exact Hs].
    apply (run_keeps_fetchRSSSource rt w tidy tidy_refl tidy_trans tidy_modify_seen
             tidy_afterStoring).
Qed.

Lemma rss_run_from : completesFrom fetchesPages (PollRss.run rt w).
Proof.
  unfold PollRss.run.
  assert (Hplain : forall A (m : M A),
            completes m -> keeps tidy m -> completesFrom fetchesPages m).
  { intros A m. apply completesFrom_keeps. apply tidy_fetchesPages. }
  apply completesFrom_bind;
    [apply Hplain; [apply completes_nowISO | apply keeps_nowISO, tidy_refl] | intros _].
  apply completesFrom_bind;
    [apply Hplain; [apply completes_get | apply keeps_get, tidy_refl] | intros s1].
  apply completesFrom_bind; [|intros rNice].
  { apply completesFrom_if; [|apply completesFrom_ret].
    apply Hplain; [apply completes_fetchNICEGuidance|].
    apply (run_keeps_fetchNICEGuidance rt w tidy tidy_refl tidy_trans tidy_modify_seen
             tidy_afterStoring). }
  apply completesFrom_bind;
    [apply Hplain; [apply completes_get | apply keeps_get, tidy_refl] | intros s2].
  apply completesFrom_bind; [|intros rNcl].
  { apply completesFrom_if; [|apply completesFrom_ret]. apply fetchRSSSource_from. auto. }
  apply completesFrom_bind;
    [apply Hplain; [apply completes_get | apply keeps_get, tidy_refl] | intros s3].
  apply completesFrom_bind; [|intros rNhs].
  { apply completesFrom_if; [|apply completesFrom_ret]. apply fetchRSSSource_from. auto. }
  apply completesFrom_bind;
    [apply Hplain; [apply completes_nowISO | apply keeps_nowISO, tidy_refl] | intros finished].
  apply Hplain; [apply completes_modify|].
  apply keeps_modify. intros s. apply tidy_same; reflexivity.
Qed.

End NeverThrows.

(** X6: what the site serves can never make a run fail when pages are
    fetched.  The ARTP script always ends with exit code 0 and writes all
    five files; the RSS script ends with exit code 0 and writes its four
    files whenever neither feed is configured as [rssOnly] (the only code
    path with an uncaught exception, see X5). *)
Theorem runs_that_fetch_pages_never_fail (rt : Runtime) (w : World) (files : Files) :
  ((PollArtp.main rt w files).1 = 0
   /\ is_Some (seen_json (PollArtp.main rt w files).2)
   /\ is_Some (guidance_json (PollArtp.main rt w files).2)
   /\ is_Some (changes_json (PollArtp.main rt w files).2)
   /\ is_Some (page_hashes_json (PollArtp.main rt w files).2)
   /\ is_Some (config_json (PollArtp.main rt w files).2))
  /\ (fetchesPages (held PollRss.defaultConfig files) ->
      (PollRss.main rt w files).1 = 0
      /\ is_Some (seen_json (PollRss.main rt w files).2)
      /\ is_Some (guidance_json (PollRss.main rt w files).2)
      /\ is_Some (changes_json (PollRss.main rt w files).2)
      /\ is_Some (config_json (PollRss.main rt w files).2)).
Proof.
  split.
  - unfold PollArtp.main.
    match goal with |- context [PollArtp.run rt w 0 ?s0] =>
      destruct (completes_artp_run rt w 0 s0) as [a Ha];
      destruct (PollArtp.run rt w 0 s0) as [[r t] s1]
    end.
    simpl in Ha. subst r. simpl. repeat split; eexists; reflexivity.
  - intros Hcfg. unfold PollRss.main.
    match goal with |- context [PollRss.run rt w 0 ?s0] =>
      destruct (rss_run_from rt w 0 s0 Hcfg) as [[a Ha] _];
      destruct (PollRss.run rt w 0 s0) as [[r t] s1]
    end.
    simpl in Ha. subst r. simpl. repeat split; eexists; reflexivity.
Qed.

Lemma runs_never_fail_witness :
  (PollRss.main Samples.runtime Samples.feedWorld
     {| seen_json := None; guidance_json := None; changes_json := None;
        page_hashes_json := None; config_json := None |}).1 = 0.
Proof.
  apply (runs_that_fetch_pages_never_fail Samples.runtime Samples.feedWorld
           {| seen_json := None; guidance_json := None; changes_json := None;
              page_hashes_json := None; config_json := None |}).
  split; reflexivity.
Defined.

(** ** The fingerprint of the listing *)

Lemma ltb_trans (a b c : jsstring) : JS.ltb a b = true -> JS.ltb b c = true -> JS.ltb a c = true.
Proof.
  revert b c. induction a as [|x a IH]; intros [|y b] [|z c]; simpl; try discriminate; auto.
  intros H1 H2.
  apply orb_true_iff in H1. apply orb_true_iff in H2. apply orb_true_iff.
  destruct H1 as [H1|H1], H2 as [H2|H2].
  - left. apply N.ltb_lt. apply N.ltb_lt in H1, H2. lia.
  - apply andb_true_iff in H2. destruct H2 as [H2 _]. apply N.eqb_eq in H2. subst z. auto.
  - apply andb_true_iff in H1. destruct H1 as [H1 _]. apply N.eqb_eq in H1. subst y. auto.
  - apply andb_true_iff in H1, H2. destruct H1 as [H1 H1'], H2 as [H2 H2'].
    apply N.eqb_eq in H1, H2. subst y z. right. rewrite N.eqb_refl. simpl. eapply IH; eassumption.
Qed.

Lemma ltb_asym (a b : jsstring) : JS.ltb a b = true -> JS.ltb b a = false.
Proof.
  revert b. induction a as [|x a IH]; intros [|y b]; simpl; try discriminate; auto.
  intros H. apply orb_true_iff in H. apply orb_false_iff.
  destruct H as [H|H].
  - apply N.ltb_lt in H. split; [apply N.ltb_ge; lia|].
    apply andb_false_iff. left. apply N.eqb_neq. lia.
  - apply andb_true_iff in H. destruct H as [H H']. apply N.eqb_eq in H. subst y.
    split; [apply N.ltb_irrefl|]. rewrite N.eqb_refl. simpl. apply IH. exact H'.
Qed.

Lemma ltb_total (a b : jsstring) : JS.ltb a b = false -> JS.ltb b a = false -> a = b.
Proof.
  revert b. induction a as [|x a IH]; intros [|y b]; simpl; try discriminate; auto.
  intros H1 H2. apply orb_false_iff in H1, H2.
  destruct H1 as [H1 H1'], H2 as [H2 H2'].
  apply N.ltb_ge in H1, H2. assert (x = y) by lia. subst y.
  rewrite N.eqb_refl in H1', H2'. simpl in H1', H2'. f_equal. apply IH; assumption.
Qed.

Lemma insertSorted_comm (x y : jsstring) (l : list jsstring) :
  JS.insertSorted y (JS.insertSorted x l) = JS.insertSorted x (JS.insertSorted y l).
Proof.
  induction l as [|z l IH].
  - simpl. destruct (JS.ltb y x) eqn:Hyx, (JS.ltb x y) eqn:Hxy; try reflexivity.
    + rewrite (ltb_asym _ _ Hyx) in Hxy. discriminate.
    + rewrite (ltb_total _ _ Hxy Hyx). reflexivity.
  - simpl. destruct (JS.ltb x z) eqn:Hxz, (JS.ltb y z) eqn:Hyz; simpl;
      rewrite ?Hxz, ?Hyz.
    + destruct (JS.ltb y x) eqn:Hyx, (JS.ltb x y) eqn:Hxy; try reflexivity.
      * rewrite (ltb_asym _ _ Hyx) in Hxy. discriminate.
      * rewrite (ltb_total _ _ Hxy Hyx). reflexivity.
    + destruct (JS.ltb y x) eqn:Hyx; [|reflexivity].
      rewrite (ltb_trans _ _ _ Hyx Hxz) in Hyz. discriminate.
    + destruct (JS.ltb x y) eqn:Hxy; [|reflexivity].
      rewrite (ltb_trans _ _ _ Hxy Hyz) in Hxz. discriminate.
    + rewrite IH. reflexivity.
Qed.

Lemma sort_permutation (l1 l2 : list jsstring) : l1 ≡ₚ l2 -> JS.sort l1 = JS.sort l2.
Proof.
  unfold JS.sort. induction 1 as [|x l1 l2 _ IH|x y l|l1 l2 l3 _ IH1 _ IH2]; simpl.
  - reflexivity.
  - rewrite IH. reflexivity.
  - apply insertSorted_comm.
  - rewrite IH1. exact IH2.
Qed.

(** X7: the fingerprint of the ARTP listing does not depend on the order
    of the links: two listings that link to the same addresses, each as
    often as the other, have the same fingerprint, so that a reshuffled
    page does not count as changed. *)
Theorem listing_fingerprint_ignores_order (links1 links2 : list PollArtp.ArticleLink)
    (Hsame : map PollArtp.al_url links1 ≡ₚ map PollArtp.al_url links2) :
  PollArtp.listingHash links1 = PollArtp.listingHash links2.
Proof.
  unfold PollArtp.listingHash. rewrite (sort_permutation _ _ Hsame). reflexivity.
Qed.

Lemma listing_fingerprint_witness :
  PollArtp.listingHash (PollArtp.extractARTPArticleLinks Samples.listing)
  = PollArtp.listingHash (rev (PollArtp.extractARTPArticleLinks Samples.listing)).
Proof.
  apply listing_fingerprint_ignores_order.
  rewrite map_rev. apply Permutation_rev.
Defined.


(** ** Links extracted from a page *)

Lemma not_in_added (x y : jsstring) (S : gset jsstring) :
  x ∉ {[y]} ∪ S -> x <> y /\ x ∉ S.
Proof.
  intros H. split.
  - intros ->. apply H, elem_of_union. left. apply elem_of_singleton. reflexivity.
  - intros Hx. apply H, elem_of_union. right. exact Hx.
Qed.

Lemma articleLoop_ids (html : jsstring) (matches : list Regex.found) (seen : gset jsstring) :
  NoDup (map PollArtp.al_id (PollArtp.articleLoop html matches seen))
  /\ forall x, In x (map PollArtp.al_id (PollArtp.articleLoop html matches seen)) -> x ∉ seen.
Proof.
  revert seen. induction matches as [|m more IH]; intros seen; cbn [PollArtp.articleLoop].
  - split; [constructor | intros x []].
  - destruct (decide (default [] (Regex.group m 2) ∈ seen)) as [Hin|Hout]; [apply IH|].
    destruct (IH ({[default [] (Regex.group m 2)]} ∪ seen)) as [Hnd Hfresh].
    cbn [map PollArtp.al_id]. split.
    + constructor; [|exact Hnd].
      intros Hx. apply list_elem_of_In, Hfresh, not_in_added in Hx.
      destruct Hx as [Hx _]. apply Hx. reflexivity.
    + intros x [<-|Hx]; [exact Hout|]. apply Hfresh, not_in_added in Hx. apply Hx.
Qed.

(** X8: the links [extractARTPArticleLinks] returns carry pairwise
    different article ids, however often the listing links to an article
    (image, heading and read-more anchors); there are never more links
    than anchors matched, and each address is on the ARTP site address
    followed by the path of an anchor. *)
Theorem artp_links_have_distinct_ids (html : jsstring) :
  NoDup (map PollArtp.al_id (PollArtp.extractARTPArticleLinks html))
  /\ length (PollArtp.extractARTPArticleLinks html)
     <= length (Regex.matchAll PollArtp.articlePattern html)
  /\ forall link, In link (PollArtp.extractARTPArticleLinks html) ->
       exists m, In m (Regex.matchAll PollArtp.articlePattern html)
                 /\ PollArtp.al_url link
                    = js "https://www.artp.org.uk" ++ default [] (Regex.group m 1)
                 /\ PollArtp.al_id link = default [] (Regex.group m 2).
Proof.
  unfold PollArtp.extractARTPArticleLinks.
  split; [apply articleLoop_ids|].
  generalize (Regex.matchAll PollArtp.articlePattern html) as matches.
  generalize (∅ : gset jsstring) as seen.
  intros seen matches. revert seen.
  induction matches as [|m more IH]; intros seen; cbn [PollArtp.articleLoop].
  - split; [reflexivity | intros link []].
  - destruct (decide (default [] (Regex.group m 2) ∈ seen)) as [Hin|Hout].
    + destruct (IH seen) as [Hlen Hall]. split; [cbn [length]; lia|].
      intros link Hl. destruct (Hall link Hl) as (m' & Hm' & H). exists m'.
      split; [right; exact Hm' | exact H].
    + destruct (IH ({[default [] (Regex.group m 2)]} ∪ seen)) as [Hlen Hall].
      split; [cbn [length]; lia|].
      intros link [<-|Hl].
      * exists m. split; [left; reflexivity | split; reflexivity].
      * destruct (Hall link Hl) as (m' & Hm' & H). exists m'.
        split; [right; exact Hm' | exact H].
Qed.

Lemma chapterLoop_urls (matches : list Regex.found) (seenUrls : gset jsstring) :
  NoDup (map PollRss.ch_url (PollRss.chapterLoop matches seenUrls))
  /\ forall link, In link (PollRss.chapterLoop matches seenUrls) ->
       (PollRss.ch_url link ∉ seenUrls)
       /\ PollRss.ch_title link <> []
       /\ exists m, In m matches
            /\ PollRss.ch_url link = js "https://www.nice.org.uk" ++ default [] (Regex.group m 1).
Proof.
  revert seenUrls. induction matches as [|m more IH]; intros seenUrls; cbn [PollRss.chapterLoop].
  - split; [constructor | intros link []].
  - set (u := js "https://www.nice.org.uk" ++ default [] (Regex.group m 1)).
    assert (Hmore : forall S', seenUrls ⊆ S' ->
              forall link, In link (PollRss.chapterLoop more S') ->
                (PollRss.ch_url link ∉ seenUrls) /\ (PollRss.ch_url link ∉ S')
                /\ PollRss.ch_title link <> []
                /\ exists m', (m = m' \/ In m' more)
                     /\ PollRss.ch_url link
                        = js "https://www.nice.org.uk" ++ default [] (Regex.group m' 1)).
    { intros S' Hsub link Hl. destruct (IH S') as [_ Hall].
      destruct (Hall link Hl) as (H1 & H2 & m' & Hm' & H3).
      repeat split; [intros Hx; apply H1, Hsub, Hx | exact H1 | exact H2 |]. exists m'.
      split; [right; exact Hm' | exact H3]. }
    destruct (decide (u ∈ seenUrls)) as [Hin|Hout].
    + destruct (IH seenUrls) as [Hnd _]. split; [exact Hnd|].
      intros link Hl. destruct (Hmore seenUrls (reflexivity _) link Hl) as (H1 & _ & H2 & H3).
      repeat split; assumption.
    + destruct (IH ({[u]} ∪ seenUrls)) as [Hnd _].
      assert (Hsub : seenUrls ⊆ {[u]} ∪ seenUrls) by apply union_subseteq_r.
      destruct (JS.truthy (Html.plainText (default [] (Regex.group m 2)))) eqn:Ht.
      * split.
        -- cbn [map PollRss.ch_url]. constructor; [|exact Hnd].
           intros Hx. apply list_elem_of_In, in_map_iff in Hx. destruct Hx as (link & Hu & Hl).
           destruct (Hmore _ Hsub link Hl) as (_ & H & _). rewrite Hu in H.
           apply not_in_added in H. destruct H as [H _]. apply H. reflexivity.
        -- intros link [<-|Hl].
           ++ cbn [PollRss.ch_url PollRss.ch_title]. repeat split; [exact Hout | |].
              ** intros E. rewrite E in Ht. discriminate.
              ** exists m. split; [left; reflexivity | reflexivity].
           ++ destruct (Hmore _ Hsub link Hl) as (H1 & _ & H2 & H3).
              repeat split; assumption.
      * split; [exact Hnd|].
        intros link Hl. destruct (Hmore _ Hsub link Hl) as (H1 & _ & H2 & H3).
        repeat split; assumption.
Qed.

(** X9: the chapter links [extractContent] returns.  Only a NICE page has
    any; their addresses are pairwise different, so that no chapter is
    crawled twice for one guideline; every link has a title that is not
    empty; and every address is the NICE site address followed by the
    path of a matched anchor. *)
Theorem chapter_links_are_distinct_and_titled (html : jsstring) (src : Source) :
  (src <> nice -> (PollRss.extractContent html src).2 = [])
  /\ NoDup (map PollRss.ch_url (PollRss.extractContent html src).2)
  /\ forall link, In link (PollRss.extractContent html src).2 ->
       PollRss.ch_title link <> []
       /\ exists m, In m (Regex.matchAll PollRss.chapterPattern html)
            /\ PollRss.ch_url link = js "https://www.nice.org.uk" ++ default [] (Regex.group m 1).
Proof.
  unfold PollRss.extractContent. cbv zeta. cbn [snd].
  destruct src; try (split; [reflexivity | split; [constructor | intros link []]]).
  split; [intros H; destruct H; reflexivity|].
  destruct (chapterLoop_urls (Regex.matchAll PollRss.chapterPattern html) ∅) as [Hnd Hall].
  split; [exact Hnd|]. intros link Hl. destruct (Hall link Hl) as (_ & H1 & H2).
  split; assumption.
Qed.

Lemma chapter_links_witness : (PollRss.extractContent Samples.guidelinePage nhs).2 = [].
Proof.
  apply (chapter_links_are_distinct_and_titled Samples.guidelinePage nhs). discriminate.
Defined.

(** ** Titles and dates of a page *)

Section Absent.
Import Regex.

(** An expression that begins with a literal finds nothing in a text in
    which the literal does not occur. *)
Lemma execFrom_no_literal p r prev s :
  occursCI p s = false -> execFrom (Cat (litCI p) r) prev s = None.
Proof.
  revert prev. induction s as [|x s IH]; intros prev H.
  - cbn [occursCI] in H. apply orb_false_iff in H. destruct H as [H _].
    cbn [execFrom]. unfold matchAt. cbn [rmatch]. rewrite rmatch_litCI, H. reflexivity.
  - cbn [occursCI] in H. apply orb_false_iff in H. destruct H as [H Hs].
    cbn [execFrom]. unfold matchAt. cbn [rmatch]. rewrite rmatch_litCI, H.
    rewrite (IH (Some x) Hs). reflexivity.
Qed.

Lemma exec_no_literal p r s : occursCI p s = false -> exec (Cat (litCI p) r) s = None.
Proof. intros H. unfold exec. rewrite execFrom_no_literal by exact H. reflexivity. Qed.

Lemma beforeSep_no_sep (sep : N) (s : jsstring) : ~ In sep (JS.beforeSep sep s).
Proof.
  induction s as [|c s IH]; simpl; [tauto|].
  destruct (N.eqb_spec c sep) as [->|Hne]; simpl; [tauto|].
  intros [H|H]; [exact (Hne H) | exact (IH H)].
Qed.

End Absent.

(** X10: a page in which neither [<title] nor [<h1] occurs, in any
    letter case, gets the title ['Untitled']. *)
Theorem page_without_title_is_untitled (html : jsstring)
    (Htitle : occursCI (js "<title") html = false)
    (Hh1 : occursCI (js "<h1") html = false) :
  Html.extractTitle html = js "Untitled".
Proof.
  unfold Html.extractTitle.
  change (Html.elementRe (js "title"))
    with (Regex.Cat (Regex.litCI (js "<title"))
            (Regex.seq [Regex.star (Regex.notChr 62); Regex.chr 62;
                        Regex.Grp 1 (Regex.lazy Regex.anyCU); Regex.litCI (js "</title>")])).
  rewrite exec_no_literal by exact Htitle.
  change (Html.elementRe (js "h1"))
    with (Regex.Cat (Regex.litCI (js "<h1"))
            (Regex.seq [Regex.star (Regex.notChr 62); Regex.chr 62;
                        Regex.Grp 1 (Regex.lazy Regex.anyCU); Regex.litCI (js "</h1>")])).
  rewrite exec_no_literal by exact Hh1. reflexivity.
Qed.

Lemma untitled_witness : Html.extractTitle Samples.stubPage = js "Untitled".
Proof. apply page_without_title_is_untitled; vm_compute; reflexivity. Defined.

(** X11: the date [parsePublishedDate] answers never contains the letter
    T, being cut before the first one; and the answer is [null] for a page
    in which neither [<meta] nor [<time] occurs, in any letter case. *)
Theorem published_date_is_cut_at_T (html : jsstring) :
  (forall d, Html.parsePublishedDate html = Some d -> ~ In 84%N d)
  /\ (occursCI (js "<meta") html = false -> occursCI (js "<time") html = false ->
      Html.parsePublishedDate html = None).
Proof.
  split.
  - intros d. unfold Html.parsePublishedDate.
    destruct (Regex.exec Html.metaDateRe html) as [m|].
    { intros [= <-]. apply beforeSep_no_sep. }
    destruct (Regex.exec Html.timeRe html) as [m|]; [|discriminate].
    intros [= <-]. apply beforeSep_no_sep.
  - intros Hmeta Htime. unfold Html.parsePublishedDate.
    change Html.metaDateRe
      with (Regex.Cat (Regex.litCI (js "<meta"))
              (Regex.seq [Regex.star (Regex.notChr 62);
                 Regex.alts [Regex.litCI (js "name"); Regex.litCI (js "property")];
                 Regex.chr 61; Regex.chr Html.quote;
                 Regex.alts [Regex.litCI (js "article:published_time");
                             Regex.litCI (js "datePublished"); Regex.litCI (js "date")];
                 Regex.chr Html.quote; Regex.star (Regex.notChr 62);
                 Regex.litCI (js "content="); Regex.chr Html.quote;
                 Regex.Grp 1 (Regex.plus (Regex.notChr Html.quote)); Regex.chr Html.quote])).
    rewrite exec_no_literal by exact Hmeta.
    change Html.timeRe
      with (Regex.Cat (Regex.litCI (js "<time"))
              (Regex.seq [Regex.star (Regex.notChr 62); Regex.litCI (js "datetime=");
                          Regex.chr Html.quote;
                          Regex.Grp 1 (Regex.plus (Regex.notChr Html.quote));
                          Regex.chr Html.quote])).
    rewrite exec_no_literal by exact Htime. reflexivity.
Qed.

Lemma published_date_witness : Html.parsePublishedDate Samples.chapterPage = None.
Proof. apply published_date_is_cut_at_T; vm_compute; reflexivity. Defined.


(** ** The data client: loading *)

Lemma loadData_outcomes (b : Client.Browser) (force : bool) (t : nat) (c : Client.Cache) :
  pastEpoch b -> coherent c ->
  coherent (Client.loadData b force t c).2
  /\ match (Client.loadData b force t c).1.1 with
     | Normal _ => loaded (Client.loadData b force t c).2
     | Throw e => loadError e
     end.
Proof.
  intros Hclock Hc. unfold Client.loadData.
  destruct (negb force && bool_decide (is_Some (Client._guidance c))
            && (Client.now b t - Client._lastFetch c <? Client.CACHE_TTL)%Z) eqn:Hhit.
  - split; [exact Hc|]. simpl.
    apply andb_true_iff in Hhit. destruct Hhit as [_ Hfresh]. apply Z.ltb_lt in Hfresh.
    destruct Hc as [H0|Hl]; [|exact Hl].
    specialize (Hclock t). rewrite H0 in Hfresh. lia.
  - destruct (Client.isUnreachable _ || Client.isUnreachable _ || Client.isUnreachable _).
    { split; [exact Hc | left; reflexivity]. }
    assert (Hkeep : forall g ch,
              (g = Client._guidance c \/ is_Some g) -> (ch = Client._changes c \/ is_Some ch) ->
              coherent {| Client._guidance := g; Client._changes := ch;
                          Client._config := Client._config c;
                          Client._lastFetch := Client._lastFetch c |}).
    { intros g ch Hg Hch. destruct Hc as [H0|(H1 & H2 & H3)]; [left; exact H0|].
      right. repeat split; simpl; [destruct Hg as [->|]|destruct Hch as [->|]|]; assumption. }
    destruct (Client.guidanceFile b (S t)) as [g| | |];
      try (split; [exact Hc | right; reflexivity]);
      (destruct (Client.changesFile b (S t)) as [ch| | |];
       try (split; [apply Hkeep; [right; eexists; reflexivity | left; reflexivity]
                   | right; reflexivity]);
       (destruct (Client.configFile b (S t)) as [cf| | |];
        try (split; [apply Hkeep; right; eexists; reflexivity | right; reflexivity]);
        (split; [right|]; repeat split; eexists; reflexivity))).
Qed.

(** X12: provided the clock of the browser is at least five minutes past
    the epoch, [loadData] keeps this invariant of the cache: [_lastFetch]
    is 0 unless all three documents are loaded.  From a cache that
    satisfies it (the initial one does) a [loadData] that resolves leaves
    all three documents loaded, whether it fetched them or served the
    cache, and one that rejects does so with a fetch or a parse error. *)
Theorem loadData_resolves_with_documents
    (b : Client.Browser) (force : bool) (t : nat) (c : Client.Cache)
    (Hclock : pastEpoch b) (Hc : coherent c) :
  coherent (Client.loadData b force t c).2
  /\ (forall a, (Client.loadData b force t c).1.1 = Normal a ->
                loaded (Client.loadData b force t c).2)
  /\ (forall e, (Client.loadData b force t c).1.1 = Throw e -> loadError e).
Proof.
  destruct (loadData_outcomes b force t c Hclock Hc) as [H1 H2].
  split; [exact H1|].
  destruct (Client.loadData b force t c).1.1 as [a|e].
  - split; [intros _ _; exact H2 | intros e; discriminate].
  - split; [intros a; discriminate | intros e' [= <-]; exact H2].
Qed.

Lemma loadData_witness :
  loaded (Client.loadData Samples.library false 0 Samples.emptyCache).2.
Proof.
  refine (proj1 (proj2 (loadData_resolves_with_documents Samples.library false 0
                          Samples.emptyCache _ _)) tt _).
  - intros t. vm_compute. discriminate.
  - left. reflexivity.
  - reflexivity.
Defined.

(** ** The data client: what can go wrong *)

Section ApiFailures.
Import Client Dashboard.
Variable rt : Runtime.
Variable b : Browser.
Hypothesis Hclock : pastEpoch b.




End ApiFailures.


(** ** The data client: search *)

Lemma In_take {A : Type} (n : nat) (l : list A) (x : A) : In x (take n l) -> In x l.
Proof.
  revert n. induction l as [|y l IH]; intros [|n]; simpl; try tauto.
  intros [H|H]; [left; exact H | right; exact (IH n H)].
Qed.

Lemma In_drop {A : Type} (n : nat) (l : list A) (x : A) : In x (drop n l) -> In x l.
Proof.
  revert n. induction l as [|y l IH]; intros [|n]; simpl; try tauto.
  intros H. right. exact (IH n H).
Qed.

Section Sorting.
Context {A : Type} (cmp : A -> A -> option Z).

Lemma insertBy_perm (x : A) (l : list A) : Client.insertBy cmp x l ≡ₚ x :: l.
Proof.
  induction l as [|y l IH]; simpl; [reflexivity|].
  destruct (0 <? default 0 (cmp x y))%Z; [|reflexivity].
  rewrite IH. apply perm_swap.
Qed.

Lemma sortBy_perm (l : list A) : Client.sortBy cmp l ≡ₚ l.
Proof.
  unfold Client.sortBy. induction l as [|x l IH]; simpl; [reflexivity|].
  rewrite insertBy_perm, IH. reflexivity.
Qed.

Lemma sortBy_length (l : list A) : length (Client.sortBy cmp l) = length l.
Proof. apply Permutation_length, sortBy_perm. Qed.

Lemma sortBy_In (l : list A) (x : A) : In x (Client.sortBy cmp l) <-> In x l.
Proof.
  split; apply Permutation_in; [apply sortBy_perm | symmetry; apply sortBy_perm].
Qed.

End Sorting.

Section Search.
Import Client.
Variable rt : Runtime.

Lemma passage_length (q content : jsstring) (idx : nat) :
  length ((if Nat.ltb 0 (idx - 100) then js "..." else [])
          ++ JS.substring (idx - 100) (Nat.min (length content) (idx + length q + 100)) content
          ++ (if Nat.ltb (Nat.min (length content) (idx + length q + 100)) (length content)
              then js "..." else []))
  <= length q + 206.
Proof.
  rewrite !length_app. unfold JS.substring. rewrite length_take, length_drop.
  destruct (Nat.ltb 0 (idx - 100)), (Nat.ltb _ (length content)); cbn [length js]; lia.
Qed.

Lemma searchItem_hit (q : jsstring) (wanted : option Source) (item : StoredArticle) :
  match searchItem rt q wanted item with
  | Some i =>
      hit rt q wanted item = true
      /\ r_id i = id item /\ r_url i = url item /\ r_title i = title item
      /\ r_source i = source item
      /\ r_publishedDate i = publishedDate item /\ r_fetchedDate i = fetchedDate item
      /\ (matchType i = byTitle <-> JS.includes q (toLowerCase rt (title item)) = true)
      /\ (excerpt i = description (metadata item)
          \/ length (excerpt i) <= length q + 206)
  | None => hit rt q wanted item = false
  end.
Proof.
  unfold searchItem, hit.
  assert (Hsrc : match wanted with
                 | Some src => bool_decide (source item <> src)
                 | None => false
                 end
                 = negb match wanted with
                        | Some src => bool_decide (source item = src)
                        | None => true
                        end).
  { destruct wanted as [src|]; [|reflexivity].
    repeat case_bool_decide; try reflexivity; contradiction. }
  rewrite Hsrc.
  destruct (match wanted with
            | Some src => bool_decide (source item = src)
            | None => true
            end); cbn [negb andb]; [|reflexivity].
  destruct (JS.includes q (toLowerCase rt (title item))) eqn:Ht,
           (JS.includes q (toLowerCase rt (content item))) eqn:Hc;
    cbn [negb andb orb]; [| | |reflexivity].
  - repeat (split; [reflexivity|]). split; [split; reflexivity|].
    cbn [excerpt]. destruct (JS.truthy (content item)); [right|left; reflexivity].
    apply passage_length.
  - repeat (split; [reflexivity|]). split; [split; reflexivity|].
    left. reflexivity.
  - repeat (split; [reflexivity|]). split; [split; discriminate|].
    cbn [excerpt]. destruct (JS.truthy (content item)); [right|left; reflexivity].
    apply passage_length.
Qed.

Lemma omap_hits (q : jsstring) (wanted : option Source) (docs : list StoredArticle) :
  length (omap (searchItem rt q wanted) docs) = length (List.filter (hit rt q wanted) docs)
  /\ forall i, In i (omap (searchItem rt q wanted) docs) ->
       exists a, In a docs /\ searchItem rt q wanted a = Some i.
Proof.
  induction docs as [|a docs [IHlen IHin]]; [split; [reflexivity | intros i []]|].
  cbn [omap list_omap List.filter].
  pose proof (searchItem_hit q wanted a) as H.
  destruct (searchItem rt q wanted a) as [i|] eqn:E.
  - destruct H as [-> _]. split; [simpl; rewrite <- IHlen; reflexivity|].
    intros i' [<-|Hi'].
    + exists a. split; [left; reflexivity | exact E].
    + destruct (IHin i' Hi') as (a' & Ha' & E'). exists a'. split; [right; exact Ha' | exact E'].
  - rewrite H. split; [exact IHlen|].
    intros i' Hi'. destruct (IHin i' Hi') as (a' & Ha' & E').
    exists a'. split; [right; exact Ha' | exact E'].
Qed.

End Search.

(** X14: what a search that completes answers for a query of at least two
    code units (lowercased and trimmed).  [total] is the number of loaded
    articles of the requested source whose lowercased title or content
    contains the query; every item returned stands for such an article,
    carrying its id, address, title, source and dates; it is marked as a
    title match exactly when the title contains the query; and its excerpt
    is the description of the article or a passage of at most 206 code
    units more than the query. *)
Theorem search_finds_exactly_the_matches
    (rt : Runtime) (b : Client.Browser) (query : jsstring) (wanted : option Source)
    (t t' : nat) (c c' : Client.Cache) (r : Client.SearchResult)
    (Hlong : 2 <= length (JS.trim (toLowerCase rt query)))
    (Hdone : Client.search rt b query wanted t c = (Normal r, t', c')) :
  let q := JS.trim (toLowerCase rt query) in
  let docs := map snd (default [] (Client._guidance c')) in
  Client.query r = query
  /\ Client.total r = length (List.filter (hit rt q wanted) docs)
  /\ forall i, In i (Client.items r) ->
       exists a, In a docs /\ hit rt q wanted a = true
         /\ Client.r_id i = id a /\ Client.r_url i = url a /\ Client.r_title i = title a
         /\ Client.r_source i = source a
         /\ (Client.matchType i = Client.byTitle
             <-> JS.includes q (toLowerCase rt (title a)) = true)
         /\ (Client.excerpt i = description (metadata a)
             \/ length (Client.excerpt i) <= length q + 206).
Proof.
  cbv zeta. unfold Client.search in Hdone.
  destruct (Client.loadData b false t c) as [[[[]|e] t1] c1]; [|discriminate].
  remember (JS.trim (toLowerCase rt query)) as q eqn:Eq.
  assert (Hgo : negb (JS.truthy q) || Nat.ltb (length q) 2 = false).
  { apply orb_false_iff. split.
    - destruct q; [simpl in Hlong; lia | reflexivity].
    - apply Nat.ltb_ge. exact Hlong. }
  rewrite Hgo in Hdone. injection Hdone as <- <- <-. cbn [Client.query Client.total Client.items].
  assert (Homap : omap (fun kv : jsstring * StoredArticle => Client.searchItem rt q wanted kv.2)
                    (default [] (Client._guidance c1))
                  = omap (Client.searchItem rt q wanted)
                      (map snd (default [] (Client._guidance c1)))).
  { generalize (default [] (Client._guidance c1)) as l.
    induction l as [|kv l IH]; [reflexivity|].
    cbn [omap list_omap map]. rewrite <- IH. reflexivity. }
  rewrite Homap.
  destruct (omap_hits rt q wanted (map snd (default [] (Client._guidance c1))))
    as [Hlen Hin].
  split; [reflexivity|]. split; [rewrite sortBy_length; exact Hlen|].
  intros i Hi. apply In_take, sortBy_In, Hin in Hi.
  destruct Hi as (a & Ha & E). exists a. split; [exact Ha|].
  pose proof (searchItem_hit rt q wanted a) as H. rewrite E in H.
  destruct H as (H1 & H2 & H3 & H4 & H5 & _ & _ & H6 & H7). repeat split; try assumption.
  - apply H6.
  - apply H6.
Qed.

Lemma search_matches_witness :
  exists r t' c',
    Client.search Samples.runtime Samples.library (js "Blood ") None 0 Samples.emptyCache
    = (Normal r, t', c')
    /\ Client.total r
       = length (List.filter (hit Samples.runtime (js "blood") None)
                   (map snd (default [] (Client._guidance c')))).
Proof.
  destruct (Client.search Samples.runtime Samples.library (js "Blood ") None 0
              Samples.emptyCache) as [[[r|e] t'] c'] eqn:E.
  - exists r, t', c'. split; [reflexivity|].
    assert (Hlong : 2 <= length (JS.trim (toLowerCase Samples.runtime (js "Blood "))))
      by (vm_compute; lia).
    pose proof (search_finds_exactly_the_matches Samples.runtime Samples.library
                  (js "Blood ") None 0 t' Samples.emptyCache c' r Hlong E) as H.
    cbv zeta in H. apply H.
  - exfalso. vm_compute in E. discriminate E.
Defined.

(** ** The data client: the order of lists *)

Section Ordered.
Context {A : Type} (cmp : A -> A -> option Z) (R : A -> A -> Prop) (P : A -> Prop).
Hypothesis R_trans : forall x y z, R x y -> R y z -> R x z.
Hypothesis cmp_pos : forall x y, P x -> P y -> (0 < default 0 (cmp x y))%Z -> R y x.
Hypothesis cmp_nonpos : forall x y, P x -> P y -> (default 0 (cmp x y) <= 0)%Z -> R x y.

Lemma insertBy_ordered (x : A) (l : list A) :
  P x -> Forall P l -> ordered R l -> ordered R (Client.insertBy cmp x l).
Proof using R_trans cmp_pos cmp_nonpos.
  intros Hx. induction l as [|y l IH]; intros HP Hl; simpl.
  - split; [constructor | exact I].
  - apply Forall_cons in HP. destruct HP as [Hy HP]. destruct Hl as [Hyl Hl].
    destruct (Z.ltb_spec 0 (default 0%Z (cmp x y))) as [Hpos|Hle].
    + simpl. split; [|apply IH; assumption].
      apply Forall_forall. intros z Hz. apply list_elem_of_In in Hz.
      apply (Permutation_in _ (insertBy_perm cmp x l)) in Hz. destruct Hz as [<-|Hz].
      * apply cmp_pos; assumption.
      * rewrite Forall_forall in Hyl. apply Hyl, list_elem_of_In, Hz.
    + simpl. split; [|split; assumption].
      assert (Hxy : R x y) by (apply cmp_nonpos; assumption).
      constructor; [exact Hxy|].
      eapply Forall_impl; [exact Hyl|]. intros z Hz. eapply R_trans; eassumption.
Qed.

Lemma sortBy_ordered (l : list A) : Forall P l -> ordered R (Client.sortBy cmp l).
Proof using R_trans cmp_pos cmp_nonpos.
  unfold Client.sortBy. induction l as [|x l IH]; intros HP; simpl; [exact I|].
  apply Forall_cons in HP. destruct HP as [Hx HP].
  apply insertBy_ordered; [exact Hx | | apply IH; exact HP].
  apply Forall_forall. intros z Hz. apply list_elem_of_In in Hz.
  apply (Permutation_in _ (sortBy_perm cmp l)) in Hz.
  rewrite Forall_forall in HP. apply HP, list_elem_of_In, Hz.
Qed.

End Ordered.

Lemma ordered_drop {A : Type} (R : A -> A -> Prop) (n : nat) (l : list A) :
  ordered R l -> ordered R (drop n l).
Proof.
  revert n. induction l as [|x l IH]; intros [|n] H; simpl; try exact H; try exact I.
  apply IH. apply H.
Qed.

Lemma ordered_take {A : Type} (R : A -> A -> Prop) (n : nat) (l : list A) :
  ordered R l -> ordered R (take n l).
Proof.
  revert n. induction l as [|x l IH]; intros [|n] H; simpl; try exact I.
  destruct H as [Hx Hl]. split; [apply Forall_take; exact Hx | apply IH; exact Hl].
Qed.

Lemma ordered_map {A B : Type} (R : B -> B -> Prop) (f : A -> B) (l : list A) :
  ordered (fun x y => R (f x) (f y)) l -> ordered R (map f l).
Proof.
  induction l as [|x l IH]; simpl; [auto|].
  intros [Hx Hl]. split; [|apply IH; exact Hl].
  apply Forall_map. exact Hx.
Qed.

Lemma notOlder_trans {A : Type} (rt : Runtime) (date : A -> jsstring) (x y z : A) :
  notOlder rt date x y -> notOlder rt date y z -> notOlder rt date x z.
Proof. unfold notOlder. lia. Qed.

Lemma newestFirst_ordered {A : Type} (rt : Runtime) (date : A -> jsstring) (l : list A) :
  Forall (fun x => is_Some (parseDate rt (date x))) l ->
  ordered (notOlder rt date) (Client.sortBy (Dashboard.newestFirst rt date) l).
Proof.
  apply sortBy_ordered.
  - apply notOlder_trans.
  - intros x y [dx Hx] [dy Hy]. unfold Dashboard.newestFirst, notOlder, timeOf.
    rewrite Hx, Hy. simpl. lia.
  - intros x y [dx Hx] [dy Hy]. unfold Dashboard.newestFirst, notOlder, timeOf.
    rewrite Hx, Hy. simpl. lia.
Qed.

Lemma ranksBefore_trans (rt : Runtime) (x y z : Client.SearchItem) :
  ranksBefore rt x y -> ranksBefore rt y z -> ranksBefore rt x z.
Proof.
  unfold ranksBefore, notOlder.
  intros [[H1 H2]|[H1 H2]] [[H3 H4]|[H3 H4]].
  - congruence.
  - left. split; congruence.
  - left. split; congruence.
  - right. split; [congruence | lia].
Qed.

Lemma byRelevance_ordered (rt : Runtime) (l : list Client.SearchItem) :
  Forall (fun x => is_Some (Client.dateOf rt x)) l ->
  ordered (ranksBefore rt) (Client.sortBy (Client.byRelevance rt) l).
Proof.
  apply sortBy_ordered.
  - apply ranksBefore_trans.
  - intros x y [dx Hx] [dy Hy]. unfold Client.byRelevance, ranksBefore, notOlder, timeOf.
    unfold Client.dateOf in *. cbv beta. rewrite Hx, Hy.
    destruct (Client.matchType x), (Client.matchType y); simpl; intros H;
      first [lia | left; split; reflexivity | right; split; [reflexivity | lia]].
  - intros x y [dx Hx] [dy Hy]. unfold Client.byRelevance, ranksBefore, notOlder, timeOf.
    unfold Client.dateOf in *. cbv beta. rewrite Hx, Hy.
    destruct (Client.matchType x), (Client.matchType y); simpl; intros H;
      first [lia | left; split; reflexivity | right; split; [reflexivity | lia]].
Qed.

(** X15: the order of the results of a search, when the dates of the
    loaded articles all parse (the comparator is then a consistent order):
    every title match stands before every match in the content only, and
    among matches of the same kind none stands before a newer one. *)
Theorem search_ranks_title_matches_first
    (rt : Runtime) (b : Client.Browser) (query : jsstring) (wanted : option Source)
    (t t' : nat) (c c' : Client.Cache) (r : Client.SearchResult)
    (Hdone : Client.search rt b query wanted t c = (Normal r, t', c'))
    (Hdates : datesParse rt (map snd (default [] (Client._guidance c')))) :
  ordered (ranksBefore rt) (Client.items r).
Proof.
  unfold Client.search in Hdone.
  destruct (Client.loadData b false t c) as [[[[]|e] t1] c1]; [|discriminate].
  destruct (negb _ || Nat.ltb _ _); injection Hdone as <- <- <-; [exact I|].
  cbn [Client.items]. apply ordered_take, byRelevance_ordered.
  apply Forall_forall. intros i Hi. apply list_elem_of_In in Hi.
  set (q := JS.trim (toLowerCase rt query)) in *.
  assert (Hin : exists a, In a (map snd (default [] (Client._guidance c1)))
                          /\ Client.searchItem rt q wanted a = Some i).
  { revert Hi. generalize (default [] (Client._guidance c1)) as l.
    induction l as [|kv l IH]; [intros []|].
    cbn [omap list_omap map].
    destruct (Client.searchItem rt q wanted kv.2) as [i'|] eqn:E.
    - intros [<-|Hi].
      + exists kv.2. split; [left; reflexivity | exact E].
      + destruct (IH Hi) as (a & Ha & Ea). exists a. split; [right; exact Ha | exact Ea].
    - intros Hi. destruct (IH Hi) as (a & Ha & Ea). exists a. split; [right; exact Ha | exact Ea]. }
  destruct Hin as (a & Ha & Ea).
  pose proof (searchItem_hit rt q wanted a) as H. rewrite Ea in H.
  destruct H as (_ & _ & _ & _ & _ & Hp & Hf & _).
  unfold Client.dateOf. rewrite Hp, Hf. apply Hdates. exact Ha.
Qed.

Lemma search_ranks_witness :
  exists r t' c',
    Client.search Desk.runtime Desk.browser (js "hypertension") None 0 Samples.emptyCache
    = (Normal r, t', c')
    /\ ordered (ranksBefore Desk.runtime) (Client.items r)
    /\ map Client.matchType (Client.items r) = [Client.byTitle; Client.byContent].
Proof.
  destruct (Client.search Desk.runtime Desk.browser (js "hypertension") None 0
              Samples.emptyCache) as [[[r|e] t'] c'] eqn:E.
  - exists r, t', c'. split; [reflexivity|]. split.
    + apply (search_ranks_title_matches_first Desk.runtime Desk.browser (js "hypertension")
               None 0 t' Samples.emptyCache c' r E).
      intros a _. eexists. reflexivity.
    + vm_compute in E. injection E as <- _ _. reflexivity.
  - exfalso. vm_compute in E. discriminate E.
Defined.

(** ** The data client: what the methods answer *)

Lemma filter_perm_length {A : Type} (f : A -> bool) (l l' : list A) :
  l ≡ₚ l' -> length (List.filter f l) = length (List.filter f l').
Proof.
  induction 1 as [|x l l' _ IH|x y l|l1 l2 l3 _ IH1 _ IH2]; simpl.
  - reflexivity.
  - destruct (f x); simpl; rewrite IH; reflexivity.
  - destruct (f x), (f y); reflexivity.
  - rewrite IH1. exact IH2.
Qed.

Lemma filter_length_le {A : Type} (f : A -> bool) (l : list A) :
  length (List.filter f l) <= length l.
Proof. induction l as [|x l IH]; simpl; [lia|]. destruct (f x); simpl; lia. Qed.

Section Answers.
Import Client Dashboard.
Variable rt : Runtime.
Variable b : Browser.

Lemma load_result t s r t' s' :
  load b t s = (r, t', s') ->
  cgm_acknowledged s' = cgm_acknowledged s /\ cgm_saved s' = cgm_saved s.
Proof.
  unfold load. destruct (loadData b false t (cache s)) as [[r1 t1] c1].
  intros [= <- <- <-]. split; reflexivity.
Qed.

Lemma getGuidance_result wanted limit offset t s p t' s' :
  getGuidance rt b wanted limit offset t s = (Normal p, t', s') ->
  exists g,
    _guidance (cache s') = Some g
    /\ g_items p
       = slice offset limit
           (map summary (sortBy (newestFirst rt articleDate) (ofSource wanted (map snd g))))
    /\ g_total p = length (ofSource wanted (map snd g))
    /\ g_limit p = limit /\ g_offset p = offset.
Proof.
  unfold getGuidance. unfold bind at 1. unfold load.
  destruct (loadData b false t (cache s)) as [[[[]|e] t1] c1]; [|discriminate].
  unfold bind, get. cbv beta iota. cbn [cache setCache].
  destruct (_guidance c1) as [g|] eqn:Eg; [|discriminate].
  unfold entriesOf, ret. cbv beta iota. intros [= <- <- <-].
  exists g. cbn [cache setCache g_items g_total g_limit g_offset].
  repeat split; [exact Eg|]. rewrite length_map, sortBy_length. reflexivity.
Qed.

Lemma unread_after_merge (ack : gmap jsstring bool) (l : list ChangeEvent) :
  List.filter (fun i => negb (acknowledged i)) (map (merged ack) l)
  = map (merged ack) (List.filter (isUnread ack) l).
Proof.
  induction l as [|x l IH]; [reflexivity|].
  cbn [map List.filter]. rewrite IH. unfold isUnread. cbn [merged acknowledged].
  rewrite negb_orb. destruct (negb (acknowledged x) && negb (flagged ack (ce_id x))); reflexivity.
Qed.

Lemma getChanges_result limit offset t s p t' s' :
  getChanges rt b limit offset t s = (Normal p, t', s') ->
  exists ch,
    _changes (cache s') = Some ch
    /\ c_items p
       = slice offset limit
           (sortBy (newestFirst rt detectedAt)
              (map (merged (default ∅ (cgm_acknowledged s))) (map snd ch)))
    /\ c_total p = length ch
    /\ c_unread p
       = length (List.filter (isUnread (default ∅ (cgm_acknowledged s))) (map snd ch))
    /\ c_limit p = limit /\ c_offset p = offset.
Proof.
  unfold getChanges. unfold bind at 1. unfold load.
  destruct (loadData b false t (cache s)) as [[[[]|e] t1] c1]; [|discriminate].
  unfold bind, getAcknowledged, get. cbv beta iota. cbn [cache setCache cgm_acknowledged].
  destruct (_changes c1) as [ch|] eqn:Ech; [|discriminate].
  unfold entriesOf, ret. cbv beta iota. intros [= <- <- <-].
  exists ch. cbn [cache setCache c_items c_total c_unread c_limit c_offset].
  repeat split; [exact Ech | |].
  - rewrite sortBy_length, !length_map. reflexivity.
  - rewrite (filter_perm_length _ _ _ (sortBy_perm _ _)), unread_after_merge, length_map.
    reflexivity.
Qed.

Lemma getSavedGuidance_result t s p t' s' :
  getSavedGuidance rt b t s = (Normal p, t', s') ->
  exists g,
    _guidance (cache s') = Some g
    /\ sv_items p
       = sortBy (newestFirst rt articleDate)
           (List.filter (fun item => flagged (default ∅ (cgm_saved s)) (id item)) (map snd g))
    /\ sv_total p = length (sv_items p).
Proof.
  unfold getSavedGuidance. unfold bind at 1. unfold load.
  destruct (loadData b false t (cache s)) as [[[[]|e] t1] c1]; [|discriminate].
  unfold bind, getSavedIds, get. cbv beta iota. cbn [cache setCache cgm_saved].
  destruct (_guidance c1) as [g|] eqn:Eg; [|discriminate].
  unfold entriesOf, ret. cbv beta iota. intros [= <- <- <-].
  exists g. cbn [cache setCache sv_items sv_total]. repeat split. exact Eg.
Qed.

Lemma countChange_fold (ack : gmap jsstring bool) (l : list ChangeEvent) (n : nat * nat) :
  fold_left (countChange ack) l n
  = (n.1 + length l, n.2 + length (List.filter (isUnread ack) l)).
Proof.
  revert n. induction l as [|x l IH]; intros [a u]; simpl.
  - f_equal; lia.
  - rewrite IH. unfold countChange, isUnread. simpl.
    destruct (negb (acknowledged x) && negb (flagged ack (ce_id x))); simpl; f_equal; lia.
Qed.

Lemma countItem_fold (l : list StoredArticle) (n : GuidanceCount) :
  n_total n = n_nice n + n_ncl n + n_nhs n + n_artp n ->
  n_total (fold_left countItem l n) = n_total n + length l
  /\ n_total (fold_left countItem l n)
     = n_nice (fold_left countItem l n) + n_ncl (fold_left countItem l n)
       + n_nhs (fold_left countItem l n) + n_artp (fold_left countItem l n).
Proof.
  revert n. induction l as [|x l IH]; intros n Hn; simpl; [split; [lia | exact Hn]|].
  destruct (IH (countItem n x)) as [H1 H2].
  { unfold countItem. destruct (source x); simpl; lia. }
  split; [|exact H2]. rewrite H1. unfold countItem. destruct (source x); simpl; lia.
Qed.

Lemma getStats_result t s st t' s' :
  getStats b t s = (Normal st, t', s') ->
  exists g ch,
    _guidance (cache s') = Some g /\ _changes (cache s') = Some ch
    /\ n_total (guidanceCount st) = length g
    /\ n_total (guidanceCount st)
       = n_nice (guidanceCount st) + n_ncl (guidanceCount st)
         + n_nhs (guidanceCount st) + n_artp (guidanceCount st)
    /\ totalChanges st = length ch
    /\ st_unreadChanges st
       = length (List.filter (isUnread (default ∅ (cgm_acknowledged s))) (map snd ch)).
Proof.
  unfold getStats. unfold bind at 1. unfold load.
  destruct (loadData b false t (cache s)) as [[[[]|e] t1] c1]; [|discriminate].
  unfold bind, getAcknowledged, get. cbv beta iota. cbn [cache setCache cgm_acknowledged].
  destruct (_guidance c1) as [g|] eqn:Eg; [|discriminate].
  unfold entriesOf at 1. unfold ret at 1. cbv beta iota.
  destruct (_changes c1) as [ch|] eqn:Ech; [|discriminate].
  unfold entriesOf, ret. cbv beta iota.
  destruct (_config c1) as [cf|]; [|discriminate].
  intros [= <- <- <-]. exists g, ch.
  cbn [cache setCache guidanceCount totalChanges st_unreadChanges].
  rewrite countChange_fold. cbn [fst snd].
  destruct (countItem_fold (map snd g)
              {| n_nice := 0; n_ncl := 0; n_nhs := 0; n_artp := 0; n_total := 0 |} eq_refl)
    as [H1 H2].
  rewrite length_map in H1.
  repeat split; [exact Eg | exact Ech | exact H1 | exact H2 | rewrite length_map; reflexivity].
Qed.

End Answers.

Lemma ofSource_In (wanted : option Source) (items : list StoredArticle) (a : StoredArticle) :
  In a (ofSource wanted items) ->
  In a items /\ match wanted with Some src => source a = src | None => True end.
Proof.
  unfold ofSource. destruct wanted as [src|]; [|auto].
  intros H. apply filter_In in H. destruct H as [H1 H2].
  apply bool_decide_eq_true in H2. auto.
Qed.

Lemma ordered_slice {A : Type} (R : A -> A -> Prop) (offset limit : nat) (l : list A) :
  ordered R l -> ordered R (Dashboard.slice offset limit l).
Proof. intros H. apply ordered_take, ordered_drop, H. Qed.

(** X16: the lists of the dashboard show the newest first.  When the
    dates of the loaded articles all parse, no article on a page of
    [getGuidance], and none in the list of [getSavedGuidance], stands
    before one with a later date (the publication date, or the fetch date
    when there is none); when the detection times of the loaded change
    events all parse, no event on a page of [getChanges] stands before one
    detected later. *)
Theorem lists_show_the_newest_first
    (rt : Runtime) (b : Client.Browser) (wanted : option Source) (limit offset : nat)
    (t t' : nat) (s s' : Dashboard.Tab) :
  (forall p,
     Dashboard.getGuidance rt b wanted limit offset t s = (Normal p, t', s') ->
     datesParse rt (map snd (default [] (Client._guidance (Dashboard.cache s')))) ->
     ordered (notOlder rt summaryDate) (Dashboard.g_items p))
  /\ (forall p,
        Dashboard.getSavedGuidance rt b t s = (Normal p, t', s') ->
        datesParse rt (map snd (default [] (Client._guidance (Dashboard.cache s')))) ->
        ordered (notOlder rt Dashboard.articleDate) (Dashboard.sv_items p))
  /\ (forall p,
        Dashboard.getChanges rt b limit offset t s = (Normal p, t', s') ->
        (forall e, In e (map snd (default [] (Client._changes (Dashboard.cache s')))) ->
                   is_Some (parseDate rt (detectedAt e))) ->
        ordered (notOlder rt detectedAt) (Dashboard.c_items p)).
Proof.
  split; [|split].
  - intros p Hp Hdates.
    destruct (getGuidance_result rt b wanted limit offset t s p t' s' Hp)
      as (g & Eg & -> & _).
    rewrite Eg in Hdates. simpl in Hdates.
    apply ordered_slice, ordered_map.
    change (ordered (notOlder rt Dashboard.articleDate)
              (Client.sortBy (Dashboard.newestFirst rt Dashboard.articleDate)
                 (ofSource wanted (map snd g)))).
    apply newestFirst_ordered, Forall_forall. intros a Ha.
    apply list_elem_of_In, ofSource_In in Ha. apply Hdates, Ha.
  - intros p Hp Hdates.
    destruct (getSavedGuidance_result rt b t s p t' s' Hp) as (g & Eg & -> & _).
    rewrite Eg in Hdates. simpl in Hdates.
    apply newestFirst_ordered, Forall_forall. intros a Ha.
    apply list_elem_of_In, filter_In in Ha. apply Hdates, Ha.
  - intros p Hp Hdates.
    destruct (getChanges_result rt b limit offset t s p t' s' Hp) as (ch & Ech & -> & _).
    rewrite Ech in Hdates. simpl in Hdates.
    apply ordered_slice, newestFirst_ordered, Forall_forall. intros e He.
    apply list_elem_of_In, in_map_iff in He. destruct He as (e0 & <- & He0).
    change (is_Some (parseDate rt (detectedAt e0))). apply Hdates, He0.
Qed.

Lemma lists_newest_first_witness :
  exists p t' s',
    Dashboard.getGuidance Desk.runtime Desk.browser None 20 0 0 Desk.tab = (Normal p, t', s')
    /\ ordered (notOlder Desk.runtime summaryDate) (Dashboard.g_items p)
    /\ map Dashboard.s_publishedDate (Dashboard.g_items p) = [js "2026-11-02"; js "2026-10-01"].
Proof.
  destruct (Dashboard.getGuidance Desk.runtime Desk.browser None 20 0 0 Desk.tab)
    as [[[p|e] t'] s'] eqn:E.
  - exists p, t', s'. split; [reflexivity|]. split.
    + apply (lists_show_the_newest_first Desk.runtime Desk.browser None 20 0 0 t' Desk.tab s');
        [exact E|].
      intros a _. eexists. reflexivity.
    + vm_compute in E. injection E as <- _ _. reflexivity.
  - exfalso. vm_compute in E. discriminate E.
Defined.

(** X17: the numbers of [getStats] and of [getChanges] agree.  For the
    same loaded change events and the same acknowledgements in
    [localStorage], both report the same total and the same number of
    unread events, namely the events that neither carry the flag
    [acknowledged] in the file nor have their id acknowledged locally;
    unread never exceeds the total.  And [getStats] counts every loaded
    article once: its total is the number of articles and the sum of the
    counts of the four sources. *)
Theorem stats_and_changes_agree
    (rt : Runtime) (b : Client.Browser) (limit offset : nat)
    (t1 t1' t2 t2' : nat) (s1 s1' s2 s2' : Dashboard.Tab)
    (st : Dashboard.Stats) (p : Dashboard.ChangesPage)
    (Hstats : Dashboard.getStats b t1 s1 = (Normal st, t1', s1'))
    (Hchanges : Dashboard.getChanges rt b limit offset t2 s2 = (Normal p, t2', s2'))
    (Hdocs : Client._changes (Dashboard.cache s1') = Client._changes (Dashboard.cache s2'))
    (Hack : Dashboard.cgm_acknowledged s1 = Dashboard.cgm_acknowledged s2) :
  Dashboard.totalChanges st = Dashboard.c_total p
  /\ Dashboard.st_unreadChanges st = Dashboard.c_unread p
  /\ Dashboard.c_unread p <= Dashboard.c_total p
  /\ Dashboard.n_total (Dashboard.guidanceCount st)
     = length (default [] (Client._guidance (Dashboard.cache s1')))
  /\ Dashboard.n_total (Dashboard.guidanceCount st)
     = Dashboard.n_nice (Dashboard.guidanceCount st)
       + Dashboard.n_ncl (Dashboard.guidanceCount st)
       + Dashboard.n_nhs (Dashboard.guidanceCount st)
       + Dashboard.n_artp (Dashboard.guidanceCount st).
Proof.
  destruct (getStats_result b t1 s1 st t1' s1' Hstats)
    as (g & ch & Eg & Ech & Hn & Hsum & Htotal & Hunread).
  destruct (getChanges_result rt b limit offset t2 s2 p t2' s2' Hchanges)
    as (ch' & Ech' & _ & Htotal' & Hunread' & _).
  rewrite Ech, Ech' in Hdocs. injection Hdocs as <-.
  rewrite Htotal, Htotal', Hunread, Hunread', Hack, Eg.
  repeat split; try assumption.
  rewrite <- (length_map snd ch). apply filter_length_le.
Qed.

Lemma stats_and_changes_witness :
  exists st p t1 s1 t2 s2,
    Dashboard.getStats Desk.browser 0 Desk.tab = (Normal st, t1, s1)
    /\ Dashboard.getChanges Desk.runtime Desk.browser 50 0 0 Desk.tab = (Normal p, t2, s2)
    /\ Dashboard.st_unreadChanges st = Dashboard.c_unread p
    /\ Dashboard.c_unread p = 1.
Proof.
  destruct (Dashboard.getStats Desk.browser 0 Desk.tab) as [[[st|e] t1] s1] eqn:E1;
    [|exfalso; vm_compute in E1; discriminate E1].
  destruct (Dashboard.getChanges Desk.runtime Desk.browser 50 0 0 Desk.tab)
    as [[[p|e] t2] s2] eqn:E2; [|exfalso; vm_compute in E2; discriminate E2].
  exists st, p, t1, s1, t2, s2. split; [reflexivity|]. split; [reflexivity|]. split.
  - apply (stats_and_changes_agree Desk.runtime Desk.browser 50 0 0 t1 0 t2
             Desk.tab s1 Desk.tab s2 st p E1 E2); [|reflexivity].
    vm_compute in E1. injection E1 as _ _ <-.
    vm_compute in E2. injection E2 as _ _ <-. reflexivity.
  - vm_compute in E2. injection E2 as <- _ _. reflexivity.
Defined.

(** X18: the pages of [getGuidance].  [total] is the number of loaded
    articles of the requested source, whatever the page; a page holds
    [limit] items or what is left after [offset], if that is less; every
    item is the summary of a loaded article of the requested source; and
    the page that starts where another ends continues it: together they
    are the page of both limits, which is how [loadMore] extends the
    feed. *)
Theorem guidance_pages_continue_each_other
    (rt : Runtime) (b : Client.Browser) (wanted : option Source) (limit limit2 offset : nat)
    (t1 t1' t2 t2' : nat) (s1 s1' s2 s2' : Dashboard.Tab) (p1 p2 : Dashboard.GuidancePage)
    (Hfirst : Dashboard.getGuidance rt b wanted limit offset t1 s1 = (Normal p1, t1', s1'))
    (Hnext : Dashboard.getGuidance rt b wanted limit2 (offset + limit) t2 s2
             = (Normal p2, t2', s2'))
    (Hdocs : Client._guidance (Dashboard.cache s1') = Client._guidance (Dashboard.cache s2')) :
  let docs := map snd (default [] (Client._guidance (Dashboard.cache s1'))) in
  Dashboard.g_total p1 = length (ofSource wanted docs)
  /\ Dashboard.g_total p2 = Dashboard.g_total p1
  /\ length (Dashboard.g_items p1) = Nat.min limit (Dashboard.g_total p1 - offset)
  /\ (forall i, In i (Dashboard.g_items p1) ->
        exists a, In a docs /\ i = Dashboard.summary a
                  /\ match wanted with Some src => source a = src | None => True end)
  /\ exists all,
       length all = Dashboard.g_total p1
       /\ Dashboard.g_items p1 = Dashboard.slice offset limit all
       /\ Dashboard.g_items p2 = Dashboard.slice (offset + limit) limit2 all
       /\ Dashboard.g_items p1 ++ Dashboard.g_items p2
          = Dashboard.slice offset (limit + limit2) all.
Proof.
  cbv zeta.
  destruct (getGuidance_result rt b wanted limit offset t1 s1 p1 t1' s1' Hfirst)
    as (g & Eg & Hi1 & Ht1 & _).
  destruct (getGuidance_result rt b wanted limit2 (offset + limit) t2 s2 p2 t2' s2' Hnext)
    as (g' & Eg' & Hi2 & Ht2 & _).
  rewrite Eg, Eg' in Hdocs. injection Hdocs as <-. rewrite Eg. simpl default.
  set (all := map Dashboard.summary
                (Client.sortBy (Dashboard.newestFirst rt Dashboard.articleDate)
                   (ofSource wanted (map snd g)))) in *.
  assert (Hall : length all = Dashboard.g_total p1).
  { unfold all. rewrite length_map, sortBy_length, Ht1. reflexivity. }
  split; [exact Ht1|]. split; [rewrite Ht1, Ht2; reflexivity|]. split; [|split].
  - rewrite Hi1. unfold Dashboard.slice. rewrite length_take, length_drop, Hall. reflexivity.
  - intros i Hi. rewrite Hi1 in Hi. unfold Dashboard.slice in Hi.
    apply In_take, In_drop in Hi. unfold all in Hi. apply in_map_iff in Hi.
    destruct Hi as (a & <- & Ha). apply sortBy_In, ofSource_In in Ha.
    exists a. split; [apply Ha|]. split; [reflexivity | apply Ha].
  - exists all. split; [exact Hall|]. split; [exact Hi1|]. split; [exact Hi2|].
    rewrite Hi1, Hi2. unfold Dashboard.slice.
    rewrite <- drop_drop. apply take_take_drop.
Qed.

Lemma guidance_pages_witness :
  exists p1 p2 t1 s1 t2 s2,
    Dashboard.getGuidance Desk.runtime Desk.browser None 1 0 0 Desk.tab = (Normal p1, t1, s1)
    /\ Dashboard.getGuidance Desk.runtime Desk.browser None 1 1 0 Desk.tab = (Normal p2, t2, s2)
    /\ Dashboard.g_total p2 = Dashboard.g_total p1
    /\ length (Dashboard.g_items p1) = Nat.min 1 (Dashboard.g_total p1 - 0).
Proof.
  destruct (Dashboard.getGuidance Desk.runtime Desk.browser None 1 0 0 Desk.tab)
    as [[[p1|e] t1] s1] eqn:E1; [|exfalso; vm_compute in E1; discriminate E1].
  destruct (Dashboard.getGuidance Desk.runtime Desk.browser None 1 1 0 Desk.tab)
    as [[[p2|e] t2] s2] eqn:E2; [|exfalso; vm_compute in E2; discriminate E2].
  exists p1, p2, t1, s1, t2, s2. split; [reflexivity|]. split; [reflexivity|].
  assert (Hdocs : Client._guidance (Dashboard.cache s1) = Client._guidance (Dashboard.cache s2)).
  { vm_compute in E1. injection E1 as _ _ <-.
    vm_compute in E2. injection E2 as _ _ <-. reflexivity. }
  pose proof (guidance_pages_continue_each_other Desk.runtime Desk.browser None 1 1 0
                0 t1 0 t2 Desk.tab s1 Desk.tab s2 p1 p2 E1 E2 Hdocs) as H.
  cbv zeta in H. destruct H as (_ & H2 & H3 & _). split; assumption.
Defined.



(** ** The data client: acknowledging changes *)

Lemma acknowledged_all (keys : list jsstring) (ack : gmap jsstring bool) (k : jsstring) :
  In k keys \/ Dashboard.flagged ack k = true ->
  Dashboard.flagged (fold_left (fun ack key => <[key := true]> ack) keys ack) k = true.
Proof.
  revert ack. induction keys as [|key keys IH]; intros ack H; simpl.
  - destruct H as [[]|H]. exact H.
  - apply IH. unfold Dashboard.flagged in *.
    destruct (decide (key = k)) as [->|Hne].
    + right. rewrite lookup_insert_eq. reflexivity.
    + rewrite lookup_insert_ne by exact Hne.
      destruct H as [[H|H]|H]; [contradiction | left; exact H | right; exact H].
Qed.

Lemma acknowledgeAll_result (b : Client.Browser) (t t' : nat) (s s' : Dashboard.Tab) :
  Dashboard.acknowledgeAll b t s = (Normal tt, t', s') ->
  exists ch,
    Client._changes (Dashboard.cache s') = Some ch
    /\ Dashboard.cgm_acknowledged s'
       = Some (fold_left (fun ack key => <[key := true]> ack) (map fst ch)
                 (default ∅ (Dashboard.cgm_acknowledged s)))
    /\ Dashboard.cgm_saved s' = Dashboard.cgm_saved s
    /\ Client._lastFetch (Dashboard.cache s') = 0%Z.
Proof.
  unfold Dashboard.acknowledgeAll. unfold bind at 1. unfold Dashboard.load.
  destruct (Client.loadData b false t (Dashboard.cache s)) as [[[[]|e] t1] c1]; [|discriminate].
  unfold bind, Dashboard.getAcknowledged, get. cbv beta iota.
  cbn [Dashboard.cache Dashboard.setCache Dashboard.cgm_acknowledged].
  destruct (Client._changes c1) as [ch|] eqn:Ech; [|discriminate].
  unfold Dashboard.entriesOf, ret, Dashboard.setAcknowledged, Dashboard.forceRefresh, modify.
  cbv beta iota. intros [= <- <-]. exists ch.
  cbn [Dashboard.cache Dashboard.setCache Dashboard.cgm_acknowledged Dashboard.cgm_saved
       Client._changes Client._lastFetch].
  repeat split; first [exact Ech | reflexivity].
Qed.

(** X20: acknowledging marks changes as read.  After [acknowledgeAll] a
    call of [getChanges] that finds the same change events loaded reports
    no unread event and shows every event as acknowledged, provided each
    event carries its key as its [id] (as the pollers write them: the
    keys are what [acknowledgeAll] marks, the ids what [getChanges]
    looks up).  After [acknowledgeChange(id)] every event with this id
    that [getChanges] shows is acknowledged, and events that were
    acknowledged stay so. *)
Theorem acknowledging_marks_changes_read
    (rt : Runtime) (b : Client.Browser) (limit offset : nat) (key : jsstring)
    (t t1 t2 : nat) (s s1 s2 : Dashboard.Tab) (p : Dashboard.ChangesPage) :
  (Dashboard.acknowledgeAll b t s = (Normal tt, t1, s1) ->
   Dashboard.getChanges rt b limit offset t1 s1 = (Normal p, t2, s2) ->
   Client._changes (Dashboard.cache s2) = Client._changes (Dashboard.cache s1) ->
   (forall k e, In (k, e) (default [] (Client._changes (Dashboard.cache s1))) -> ce_id e = k) ->
   Dashboard.c_unread p = 0
   /\ forall e, In e (Dashboard.c_items p) -> acknowledged e = true)
  /\ (Dashboard.acknowledgeChange key t s = (Normal tt, t1, s1) ->
      Dashboard.getChanges rt b limit offset t1 s1 = (Normal p, t2, s2) ->
      (forall e, In e (Dashboard.c_items p) -> ce_id e = key -> acknowledged e = true)
      /\ (forall k, Dashboard.flagged (default ∅ (Dashboard.cgm_acknowledged s)) k = true ->
                    Dashboard.flagged (default ∅ (Dashboard.cgm_acknowledged s1)) k = true)).
Proof.
  split.
  - intros Hall Hp Hsame Hids.
    destruct (acknowledgeAll_result b t t1 s s1 Hall) as (ch & Ech & Hack & _).
    destruct (getChanges_result rt b limit offset t1 s1 p t2 s2 Hp)
      as (ch' & Ech' & Hitems & _ & Hunread & _).
    rewrite Ech, Ech' in Hsame. injection Hsame as ->.
    rewrite Ech in Hids. simpl in Hids. rewrite Hack in Hitems, Hunread.
    cbn [from_option Datatypes.id] in Hitems, Hunread.
    set (ack := fold_left (fun ack key => <[key := true]> ack) (map fst ch)
                  (default ∅ (Dashboard.cgm_acknowledged s))) in *.
    assert (Hread : forall e, In e (map snd ch) -> Dashboard.flagged ack (ce_id e) = true).
    { intros e He. apply in_map_iff in He. destruct He as ([k e'] & <- & Hin).
      cbn [snd]. unfold ack. apply acknowledged_all. left.
      rewrite (Hids k e' Hin). apply in_map_iff.
      exists (k, e'). split; [reflexivity | exact Hin]. }
    split.
    + rewrite Hunread.
      assert (Hnone : List.filter (isUnread ack) (map snd ch) = []).
      { generalize Hread. generalize (map snd ch) as l.
        induction l as [|e l IH]; intros Hl; [reflexivity|].
        cbn [List.filter]. unfold isUnread at 1.
        rewrite (Hl e (or_introl eq_refl)), andb_false_r.
        apply IH. intros e' He'. apply Hl. right. exact He'. }
      rewrite Hnone. reflexivity.
    + intros e He. rewrite Hitems in He. unfold Dashboard.slice in He.
      apply In_take, In_drop, sortBy_In, in_map_iff in He.
      destruct He as (e0 & <- & He0). cbn [Dashboard.merged acknowledged].
      rewrite (Hread e0 He0). apply orb_true_r.
  - intros Hone Hp.
    assert (Hack : Dashboard.cgm_acknowledged s1
                   = Some (<[key := true]> (default ∅ (Dashboard.cgm_acknowledged s)))).
    { revert Hone. unfold Dashboard.acknowledgeChange, bind, Dashboard.getAcknowledged,
        Dashboard.setAcknowledged, Dashboard.forceRefresh, modify.
      cbv beta iota. intros [= _ <-]. reflexivity. }
    destruct (getChanges_result rt b limit offset t1 s1 p t2 s2 Hp)
      as (ch' & Ech' & Hitems & _).
    rewrite Hack in Hitems. cbn [from_option Datatypes.id] in Hitems.
    split.
    + intros e He Hid. rewrite Hitems in He. unfold Dashboard.slice in He.
      apply In_take, In_drop, sortBy_In, in_map_iff in He.
      destruct He as (e0 & <- & He0). cbn [Dashboard.merged acknowledged ce_id] in *.
      unfold Dashboard.flagged. rewrite Hid, lookup_insert_eq. apply orb_true_r.
    + intros k Hk. rewrite Hack. cbn [from_option Datatypes.id].
      unfold Dashboard.flagged in *. destruct (decide (key = k)) as [->|Hne].
      * rewrite lookup_insert_eq. reflexivity.
      * rewrite lookup_insert_ne by exact Hne. exact Hk.
Qed.

Lemma acknowledging_witness :
  exists s1 t1 p t2 s2,
    Dashboard.acknowledgeAll Desk.browser 0 Desk.tab = (Normal tt, t1, s1)
    /\ Dashboard.getChanges Desk.runtime Desk.browser 50 0 t1 s1 = (Normal p, t2, s2)
    /\ Dashboard.c_unread p = 0.
Proof.
  destruct (Dashboard.acknowledgeAll Desk.browser 0 Desk.tab) as [[[[]|e] t1] s1] eqn:E1;
    [|exfalso; vm_compute in E1; discriminate E1].
  destruct (Dashboard.getChanges Desk.runtime Desk.browser 50 0 t1 s1)
    as [[[p|e] t2] s2] eqn:E2.
  2:{ exfalso. vm_compute in E1. injection E1 as <- <-. vm_compute in E2. discriminate E2. }
  exists s1, t1, p, t2, s2. split; [reflexivity|]. split; [exact E2|].
  apply (acknowledging_marks_changes_read Desk.runtime Desk.browser 50 0 [] 0 t1 t2
           Desk.tab s1 s2 p); [exact E1 | exact E2 | |].
  - vm_compute in E1. injection E1 as <- <-. vm_compute in E2. injection E2 as _ _ <-.
    reflexivity.
  - vm_compute in E1. injection E1 as _ <-. intros k e Hin. vm_compute in Hin.
    destruct Hin as [[= <- <-]|[[= <- <-]|[]]]; reflexivity.
Defined.

(** ** What a check of the ARTP listing records *)

(** A loop whose every round ends normally and re-establishes [Q], which
    may count the rounds. *)
Lemma forEachWith_total {St A B : Type} (Q : nat -> B -> St -> Prop)
    (f : A -> B -> Eff St B) (l : list A) :
  (forall i x b t s, Q i b s ->
     exists b' t' s', f x b t s = (Normal b', t', s') /\ Q (S i) b' s') ->
  forall i b t s, Q i b s ->
    exists b' t' s', forEachWith f l b t s = (Normal b', t', s') /\ Q (i + length l) b' s'.
Proof.
  intros Hf. induction l as [|x l IH]; intros i b t s HQ; simpl.
  - exists b, t, s. split; [reflexivity|]. rewrite Nat.add_0_r. exact HQ.
  - destruct (Hf i x b t s HQ) as (b1 & t1 & s1 & E1 & HQ1).
    unfold bind. rewrite E1.
    destruct (IH (S i) b1 t1 s1 HQ1) as (b2 & t2 & s2 & E2 & HQ2).
    exists b2, t2, s2. split; [exact E2|]. rewrite Nat.add_succ_r. exact HQ2.
Qed.

Lemma artp_untouched rt w u title date t s :
  exists t' s', PollArtp.crawlAndStoreARTP rt w u title date t s = (Normal tt, t', s')
                /\ untouched s s'.
Proof.
  pose proof (normal_unit _ t s (completes_artp rt w u title date)) as Hn.
  assert (Hk : untouched s (PollArtp.crawlAndStoreARTP rt w u title date t s).2).
  { apply (keeps_artp rt w untouched); [apply untouched_refl | intros; repeat split]. }
  destruct (PollArtp.crawlAndStoreARTP rt w u title date t s) as [[c t'] s'].
  simpl in Hn, Hk. subst c. exists t', s'. split; [reflexivity | exact Hk].
Qed.

Lemma crawl_untouched rt w gap u src ty meta parent t s :
  exists t' s', PollRss.crawlAndStoreGap rt w gap u src ty meta parent t s = (Normal tt, t', s')
                /\ untouched s s'.
Proof.
  pose proof (normal_unit _ t s (completes_crawl rt w gap u src ty meta parent)) as Hn.
  assert (Hk : untouched s (PollRss.crawlAndStoreGap rt w gap u src ty meta parent t s).2).
  { apply (keeps_crawl rt w untouched (fun _ => True)); try exact I;
      [apply untouched_refl | apply untouched_trans | intros; repeat split]. }
  destruct (PollRss.crawlAndStoreGap rt w gap u src ty meta parent t s) as [[c t'] s'].
  simpl in Hn, Hk. subst c. exists t', s'. split; [reflexivity | exact Hk].
Qed.

Lemma absent_of_not_seen (m : gmap jsstring SeenEntry) (k : jsstring) :
  ~ is_Some (m !! k) -> m !! k = None.
Proof. intros H. destruct (m !! k) eqn:E; [exfalso; apply H; eexists; reflexivity | reflexivity]. Qed.

Section ArtpCheck.
Variable rt : Runtime.
Variable w : World.

#[local] Opaque PollArtp.crawlAndStoreARTP hashString.

Lemma artpItem_counted s0 excludeKeywords now i article n t s :
  counted s0 i n s ->
  exists n' t' s',
    PollArtp.artpItem rt w excludeKeywords now article n t s = (Normal n', t', s')
    /\ counted s0 (S i) n' s'.
Proof.
  intros (Hp & Hs & Hn). unfold PollArtp.artpItem. unfold bind at 1. unfold get.
  cbv beta iota.
  case_bool_decide as Hseen.
  { exists n, t, s. split; [reflexivity|]. repeat split; [assumption..|lia]. }
  apply absent_of_not_seen in Hseen.
  destruct (someKeyword _ _ _).
  { exists n, t, s. split; [reflexivity|]. repeat split; [assumption..|lia]. }
  unfold bind at 1. unfold modify. unfold bind at 1.
  match goal with |- context [PollArtp.crawlAndStoreARTP rt w ?u ?ti ?d ?t0 ?s0'] =>
    destruct (artp_untouched rt w u ti d t0 s0') as (t' & s' & E & Hsame & Hpages & _)
  end.
  rewrite E. exists (S n), t', s'. split; [reflexivity|].
  repeat split.
  - rewrite Hpages. exact Hp.
  - rewrite Hsame. cbn [seen setSeen]. rewrite map_size_insert_None by exact Hseen. lia.
  - lia.
Qed.

Lemma check_changed excluded t s html :
  respond w t (js "https://www.artp.org.uk/news") = Page html ->
  PollArtp.listingUnchanged (PollArtp.cachedHash (pageHashes s !! PollArtp.pageKey))
    (PollArtp.listingHash (PollArtp.extractARTPArticleLinks html)) = false ->
  excluded
  = match sourceConfig (config s) artp with
    | Some sc => default PollArtp.PA_EXCLUDE_KEYWORDS (excludeKeywords sc)
    | None => PollArtp.PA_EXCLUDE_KEYWORDS
    end ->
  PollArtp.checkARTPNews rt w t s
  = bind (forEachWith (PollArtp.artpItem rt w excluded
                         (toISOString rt (clock w (S t))))
            (PollArtp.extractARTPArticleLinks html) 0)
      (fun newCount =>
         modify (setPageHashes (insert PollArtp.pageKey
           {| pf_url := js "https://www.artp.org.uk/news";
              pf_hash := PollArtp.listingHash (PollArtp.extractARTPArticleLinks html);
              lastChecked := toISOString rt (clock w (S t));
              lastChanged :=
                if Nat.ltb 0 newCount then toISOString rt (clock w (S t))
                else match pageHashes s !! PollArtp.pageKey with
                     | Some pf => JS.or (lastChanged pf) (toISOString rt (clock w (S t)))
                     | None => toISOString rt (clock w (S t))
                     end;
              articlesFound := length (PollArtp.extractARTPArticleLinks html);
              newArticlesFound := newCount |})))
      (S (S t)) s.
Proof.
  intros Hfetch Hchanged ->.
  unfold PollArtp.checkARTPNews. cbv zeta.
  unfold bind at 1. unfold tryCatch, bind, fetchPage, ret. rewrite Hfetch. cbv beta iota.
  unfold get, nowISO. cbv beta iota. rewrite Hchanged.
  destruct (pageHashes s !! PollArtp.pageKey); reflexivity.
Qed.

End ArtpCheck.

Section ArtpOutcome.
Variable rt : Runtime.
Variable w : World.

#[local] Opaque PollArtp.crawlAndStoreARTP hashString PollArtp.extractARTPArticleLinks.

(** The two ways a check of a listing that could be fetched ends. *)
Lemma check_outcome t s html :
  respond w t (js "https://www.artp.org.uk/news") = Page html ->
  (exists pf0,
     pageHashes s !! PollArtp.pageKey = Some pf0
     /\ pf_hash pf0 = PollArtp.listingHash (PollArtp.extractARTPArticleLinks html)
     /\ PollArtp.checkARTPNews rt w t s
        = (Normal tt, S (S t),
           setPageHashes (insert PollArtp.pageKey
                            (PollArtp.touch pf0 (toISOString rt (clock w (S t))))) s))
  \/ (PollArtp.listingUnchanged (PollArtp.cachedHash (pageHashes s !! PollArtp.pageKey))
        (PollArtp.listingHash (PollArtp.extractARTPArticleLinks html)) = false
      /\ exists n t' s1,
           counted s (length (PollArtp.extractARTPArticleLinks html)) n s1
           /\ PollArtp.checkARTPNews rt w t s
              = (Normal tt, t',
                 setPageHashes (insert PollArtp.pageKey
                   {| pf_url := js "https://www.artp.org.uk/news";
                      pf_hash := PollArtp.listingHash (PollArtp.extractARTPArticleLinks html);
                      lastChecked := toISOString rt (clock w (S t));
                      lastChanged :=
                        if Nat.ltb 0 n then toISOString rt (clock w (S t))
                        else match pageHashes s !! PollArtp.pageKey with
                             | Some pf =>
                                 JS.or (lastChanged pf) (toISOString rt (clock w (S t)))
                             | None => toISOString rt (clock w (S t))
                             end;
                      articlesFound := length (PollArtp.extractARTPArticleLinks html);
                      newArticlesFound := n |}) s1)).
Proof.
  intros Hfetch.
  destruct (PollArtp.listingUnchanged (PollArtp.cachedHash (pageHashes s !! PollArtp.pageKey))
              (PollArtp.listingHash (PollArtp.extractARTPArticleLinks html))) eqn:Hsame.
  - left. unfold PollArtp.listingUnchanged, PollArtp.cachedHash in Hsame.
    destruct (pageHashes s !! PollArtp.pageKey) as [pf0|] eqn:Hstored; [|discriminate].
    destruct (JS.truthy (pf_hash pf0)) eqn:Htruthy; [|discriminate].
    apply bool_decide_eq_true in Hsame.
    exists pf0. split; [reflexivity|]. split; [symmetry; exact Hsame|].
    unfold PollArtp.checkARTPNews. cbv zeta.
    unfold bind, tryCatch, fetchPage, ret, get, nowISO. rewrite Hfetch. cbv beta iota.
    rewrite Hstored. unfold PollArtp.cachedHash. rewrite Htruthy.
    unfold PollArtp.listingUnchanged. rewrite bool_decide_eq_true_2 by exact Hsame.
    reflexivity.
  - right. split; [reflexivity|].
    rewrite (check_changed rt w _ t s html Hfetch Hsame eq_refl).
    destruct (forEachWith_total (counted s) (PollArtp.artpItem rt w
                 match sourceConfig (config s) artp with
                 | Some sc => default PollArtp.PA_EXCLUDE_KEYWORDS (excludeKeywords sc)
                 | None => PollArtp.PA_EXCLUDE_KEYWORDS
                 end (toISOString rt (clock w (S t))))
                (PollArtp.extractARTPArticleLinks html)
                (fun i x n t0 s0 H => artpItem_counted rt w s _ _ i x n t0 s0 H)
                0 0 (S (S t)) s)
      as (n & t' & s1 & E & HQ).
    { unfold counted. split; [reflexivity | split; lia]. }
    exists n, t', s1. split; [exact HQ|].
    unfold bind. rewrite E. reflexivity.
Qed.

End ArtpOutcome.

(** X21: what [checkARTPNews] records for a listing that could be
    fetched.  It ends normally with a fingerprint entry for the news page
    that carries the fingerprint of the links just extracted and the
    current time as [lastChecked]; no other fingerprint entry changes.
    When the listing is not recognised as unchanged, the entry moreover
    counts the links extracted as [articlesFound], and [newArticlesFound],
    which never exceeds them, is exactly the number of seen entries the
    check added; [lastChanged] is the current time if that number is
    positive. *)
Theorem artp_check_records_the_listing
    (rt : Runtime) (w : World) (t : nat) (s : Store) (html : jsstring)
    (Hfetch : respond w t (js "https://www.artp.org.uk/news") = Page html) :
  let links := PollArtp.extractARTPArticleLinks html in
  let now := toISOString rt (clock w (S t)) in
  exists t' s' pf,
    PollArtp.checkARTPNews rt w t s = (Normal tt, t', s')
    /\ pageHashes s' = <[PollArtp.pageKey := pf]> (pageHashes s)
    /\ pf_hash pf = PollArtp.listingHash links
    /\ lastChecked pf = now
    /\ (PollArtp.listingUnchanged (PollArtp.cachedHash (pageHashes s !! PollArtp.pageKey))
          (PollArtp.listingHash links) = false ->
        articlesFound pf = length links
        /\ newArticlesFound pf <= length links
        /\ size (seen s') = size (seen s) + newArticlesFound pf
        /\ (0 < newArticlesFound pf -> lastChanged pf = now)).
Proof.
  cbv zeta.
  destruct (check_outcome rt w t s html Hfetch)
    as [(pf0 & Hstored & Hhash & ->)|(Hchanged & n & t' & s1 & (Hp & Hs & Hn) & ->)].
  - eexists; eexists; eexists. split; [reflexivity|].
    split; [reflexivity|]. split; [exact Hhash|]. split; [reflexivity|].
    intros Hchanged. exfalso.
    unfold PollArtp.listingUnchanged, PollArtp.cachedHash in Hchanged.
    rewrite Hstored, Hhash in Hchanged. unfold PollArtp.listingHash in Hchanged at 1.
    rewrite hashString_truthy in Hchanged.
    rewrite bool_decide_eq_true_2 in Hchanged by reflexivity. discriminate Hchanged.
  - eexists; eexists; eexists. split; [reflexivity|].
    cbn [pageHashes setPageHashes seen pf_hash lastChecked articlesFound newArticlesFound
         lastChanged].
    split; [rewrite Hp; reflexivity|]. split; [reflexivity|]. split; [reflexivity|].
    intros _. split; [reflexivity|]. split; [exact Hn|]. split; [exact Hs|].
    intros Hpos. cbn [newArticlesFound lastChanged] in *.
    apply Nat.ltb_lt in Hpos. rewrite Hpos. reflexivity.
Qed.

Lemma artp_check_witness :
  exists t' s' pf,
    PollArtp.checkARTPNews Samples.runtime Samples.artpWorld 0 Samples.emptyStore
    = (Normal tt, t', s')
    /\ pageHashes s' = <[PollArtp.pageKey := pf]> (pageHashes Samples.emptyStore)
    /\ pf_hash pf = PollArtp.listingHash (PollArtp.extractARTPArticleLinks Samples.listing).
Proof.
  destruct (artp_check_records_the_listing Samples.runtime Samples.artpWorld 0
              Samples.emptyStore Samples.listing eq_refl)
    as (t' & s' & pf & H1 & H2 & H3 & _).
  exists t', s', pf. repeat split; assumption.
Defined.

(** X22: two checks in a row of a listing that has not changed in
    between: whatever the first check did, it leaves a fingerprint entry
    for the news page, and the second check, served the same listing,
    ends after that one fetch; it evaluates no link and changes nothing
    but [lastChecked] of that entry. *)
Theorem second_check_of_the_same_listing_crawls_nothing
    (rt : Runtime) (w : World) (t t2 : nat) (s : Store) (html : jsstring)
    (Hfirst : respond w t (js "https://www.artp.org.uk/news") = Page html)
    (Hsecond : respond w t2 (js "https://www.artp.org.uk/news") = Page html) :
  exists pf,
    pageHashes (PollArtp.checkARTPNews rt w t s).2 !! PollArtp.pageKey = Some pf
    /\ PollArtp.checkARTPNews rt w t2 (PollArtp.checkARTPNews rt w t s).2
       = (Normal tt, S (S t2),
          setPageHashes (insert PollArtp.pageKey
                           (PollArtp.touch pf (toISOString rt (clock w (S t2)))))
            (PollArtp.checkARTPNews rt w t s).2).
Proof.
  assert (Hrecorded : exists pf,
            pageHashes (PollArtp.checkARTPNews rt w t s).2 !! PollArtp.pageKey = Some pf
            /\ pf_hash pf = PollArtp.listingHash (PollArtp.extractARTPArticleLinks html)).
  { destruct (check_outcome rt w t s html Hfirst)
      as [(pf0 & _ & Hhash & ->)|(_ & n & t' & s1 & _ & ->)];
      eexists; (split; [apply lookup_insert_eq|]); [exact Hhash | reflexivity]. }
  destruct Hrecorded as (pf & Hpf & Hhash). exists pf. split; [exact Hpf|].
  destruct (check_outcome rt w t2 (PollArtp.checkARTPNews rt w t s).2 html Hsecond)
    as [(pf0 & Hstored & _ & ->)|(Hchanged & _)].
  - rewrite Hpf in Hstored. injection Hstored as <-. reflexivity.
  - exfalso. unfold PollArtp.listingUnchanged, PollArtp.cachedHash in Hchanged.
    rewrite Hpf, Hhash in Hchanged. unfold PollArtp.listingHash in Hchanged at 1.
    rewrite hashString_truthy in Hchanged.
    rewrite bool_decide_eq_true_2 in Hchanged by reflexivity. discriminate Hchanged.
Qed.

Lemma second_check_witness :
  exists pf,
    pageHashes Samples.afterListing !! PollArtp.pageKey = Some pf
    /\ PollArtp.checkARTPNews Samples.runtime Samples.artpWorld 9 Samples.afterListing
       = (Normal tt, 11,
          setPageHashes (insert PollArtp.pageKey
                           (PollArtp.touch pf (toISOString Samples.runtime
                                                 (clock Samples.artpWorld 10))))
            Samples.afterListing).
Proof.
  exact (second_check_of_the_same_listing_crawls_nothing Samples.runtime Samples.artpWorld
           0 9 Samples.emptyStore Samples.listing eq_refl eq_refl).
Defined.

(** ** What the pipelines report *)

Section Reports.
Variable rt : Runtime.
Variable w : World.

#[local] Opaque PollRss.crawlAndStoreGap hashString PollRss.parseItem Html.plainText.

Lemma niceItem_counted s0 keywords i m loc t s :
  counted s0 i loc.2 s ->
  exists loc' t' s',
    PollRss.niceItem rt w keywords m loc t s = (Normal loc', t', s')
    /\ counted s0 (S i) loc'.2 s'.
Proof.
  destruct loc as [seenUrls count]. cbn [snd]. intros (Hp & Hs & Hn).
  assert (Hskip : forall (urls : gset jsstring),
            exists loc' t' s',
              ret (St := Store) (urls, count) t s = (Normal loc', t', s')
              /\ counted s0 (S i) loc'.2 s').
  { intros urls. exists (urls, count), t, s. split; [reflexivity|].
    repeat split; [assumption..|simpl; lia]. }
  unfold PollRss.niceItem.
  destruct (decide _); [apply Hskip|].
  destruct (negb (JS.truthy _)); [apply Hskip|].
  destruct (Nat.ltb _ _ && negb _); [apply Hskip|].
  unfold bind at 1. unfold get. cbv beta iota.
  case_bool_decide as Hseen; [apply Hskip|].
  apply absent_of_not_seen in Hseen.
  unfold bind at 1. unfold nowISO. cbv beta iota.
  unfold bind at 1. unfold modify. cbv beta iota. unfold bind at 1.
  unfold PollRss.crawlAndStore.
  match goal with |- context [PollRss.crawlAndStoreGap rt w ?g ?u ?sr ?ty ?me ?pa ?t0 ?s0'] =>
    destruct (crawl_untouched rt w g u sr ty me pa t0 s0') as (t' & s' & E & Hsame & Hpages & _)
  end.
  rewrite E. eexists; exists t', s'. split; [reflexivity|].
  cbn [snd]. repeat split.
  - rewrite Hpages. exact Hp.
  - rewrite Hsame. cbn [seen setSeen]. rewrite map_size_insert_None by exact Hseen. lia.
  - lia.
Qed.

Lemma rssItem_counted s0 src includeKeywords excludeKeywords i itemMatch n t s :
  counted s0 i n s ->
  exists n' t' s',
    PollRss.rssItem rt w src includeKeywords excludeKeywords false itemMatch n t s
    = (Normal n', t', s')
    /\ counted s0 (S i) n' s'.
Proof.
  intros (Hp & Hs & Hn).
  assert (Hskip : exists n' t' s',
            ret (St := Store) n t s = (Normal n', t', s') /\ counted s0 (S i) n' s').
  { exists n, t, s. split; [reflexivity|]. repeat split; [assumption..|lia]. }
  unfold PollRss.rssItem.
  destruct (negb _ || negb _); [apply Hskip|].
  destruct (negb (PollRss.relevant _ _ _ _)); [apply Hskip|].
  unfold bind at 1. unfold get. cbv beta iota.
  case_bool_decide as Hseen; [apply Hskip|].
  apply absent_of_not_seen in Hseen.
  unfold bind at 1. unfold nowISO. cbv beta iota.
  unfold bind at 1. unfold modify. cbv beta iota. unfold bind at 1.
  unfold PollRss.crawlAndStore.
  match goal with |- context [PollRss.crawlAndStoreGap rt w ?g ?u ?sr ?ty ?me ?pa ?t0 ?s0'] =>
    destruct (crawl_untouched rt w g u sr ty me pa t0 s0') as (t' & s' & E & Hsame & Hpages & _)
  end.
  rewrite E. exists (S n), t', s'. split; [reflexivity|].
  repeat split.
  - rewrite Hpages. exact Hp.
  - rewrite Hsame. cbn [seen setSeen]. rewrite map_size_insert_None by exact Hseen. lia.
  - lia.
Qed.

Lemma fetched_cases {A : Type} (u : jsstring) (k : option jsstring -> M A) (t : nat) (s : Store) :
  bind (tryCatch (bind (fetchPage w u) (fun html => ret (Some html))) (fun _ => ret None)) k t s
  = k (match respond w t u with Page body => Some body | _ => None end) (S t) s.
Proof.
  unfold bind, tryCatch, fetchPage, ret. destruct (respond w t u); reflexivity.
Qed.

Lemma nice_counts t s :
  exists n t' s',
    PollRss.fetchNICEGuidance rt w t s = (Normal n, t', s')
    /\ size (seen s') = size (seen s) + n.
Proof.
  unfold PollRss.fetchNICEGuidance. rewrite fetched_cases.
  destruct (respond w t _) as [html| |];
    try (exists 0, (S t), s; split; [reflexivity | lia]).
  unfold bind at 1. unfold get. cbv beta iota.
  match goal with |- context [forEachWith ?f ?l ?b0] =>
    destruct (forEachWith_total (fun i loc s' => counted s i loc.2 s') f l
                (fun i x loc t0 s0 H => niceItem_counted s _ i x loc t0 s0 H)
                0 b0 (S t) s) as (loc & t' & s' & E & (_ & Hs & _))
  end.
  { unfold counted. cbn [snd]. split; [reflexivity | split; lia]. }
  unfold bind. rewrite E. exists loc.2, t', s'. split; [reflexivity | exact Hs].
Qed.

Lemma rss_counts u src t s :
  storesFeedOnly (config s) src = false ->
  exists n t' s',
    PollRss.fetchRSSSource rt w u src t s = (Normal n, t', s')
    /\ size (seen s') = size (seen s) + n.
Proof.
  intros Hmode. unfold PollRss.fetchRSSSource. rewrite fetched_cases.
  destruct (respond w t u) as [xml| |];
    try (exists 0, (S t), s; split; [reflexivity | lia]).
  unfold bind at 1. unfold get. cbv beta iota.
  fold (storesFeedOnly (config s) src). rewrite Hmode.
  match goal with |- context [forEachWith ?f ?l 0] =>
    destruct (forEachWith_total (counted s) f l
                (fun i x n t0 s0 H => rssItem_counted s src _ _ i x n t0 s0 H)
                0 0 (S t) s) as (n & t' & s' & E & (_ & Hs & _))
  end.
  { unfold counted. split; [reflexivity | split; lia]. }
  exists n, t', s'. split; [exact E | exact Hs].
Qed.

End Reports.

Section RunReports.
Variable rt : Runtime.
Variable w : World.

#[local] Opaque PollRss.fetchNICEGuidance PollRss.fetchRSSSource.

Lemma nice_step (on : bool) t s :
  exists n t' s',
    (if on then PollRss.fetchNICEGuidance rt w else ret 0) t s = (Normal n, t', s')
    /\ size (seen s') = size (seen s) + n /\ tidy s s'.
Proof.
  destruct on.
  - destruct (nice_counts rt w t s) as (n & t' & s' & E & Hs).
    exists n, t', s'. split; [exact E|]. split; [exact Hs|].
    pose proof (run_keeps_fetchNICEGuidance rt w tidy tidy_refl tidy_trans tidy_modify_seen
                  tidy_afterStoring t s) as K.
    rewrite E in K. exact K.
  - exists 0, t, s. split; [reflexivity|]. split; [lia | apply tidy_refl].
Qed.

Lemma rss_step (on : bool) u src t s :
  storesFeedOnly (config s) src = false ->
  exists n t' s',
    (if on then PollRss.fetchRSSSource rt w u src else ret 0) t s = (Normal n, t', s')
    /\ size (seen s') = size (seen s) + n /\ tidy s s'.
Proof.
  intros Hmode. destruct on.
  - destruct (rss_counts rt w u src t s Hmode) as (n & t' & s' & E & Hs).
    exists n, t', s'. split; [exact E|]. split; [exact Hs|].
    pose proof (run_keeps_fetchRSSSource rt w tidy tidy_refl tidy_trans tidy_modify_seen
                  tidy_afterStoring u src t s) as K.
    rewrite E in K. exact K.
  - exists 0, t, s. split; [reflexivity|]. split; [lia | apply tidy_refl].
Qed.

End RunReports.

(** X23: the numbers a run of the RSS script reports are the numbers of
    items it discovered.  [fetchNICEGuidance], and [fetchRSSSource] for a
    feed whose pages are fetched, always end normally, and the count they
    return is the number of seen entries they added.  Hence, when neither
    feed is configured as [rssOnly], a run ends normally with
    [rssPollerResults] recorded in the statistics, whose [total] is the
    sum of the three counts and the number of seen entries the run
    added. *)
Theorem run_statistics_count_the_discoveries (rt : Runtime) (w : World) (t : nat) (s : Store) :
  (exists n t' s',
     PollRss.fetchNICEGuidance rt w t s = (Normal n, t', s')
     /\ size (seen s') = size (seen s) + n)
  /\ (forall u src,
        storesFeedOnly (config s) src = false ->
        exists n t' s',
          PollRss.fetchRSSSource rt w u src t s = (Normal n, t', s')
          /\ size (seen s') = size (seen s) + n)
  /\ (fetchesPages s ->
      exists t' s' stats results,
        PollRss.run rt w t s = (Normal tt, t', s')
        /\ lastRunStats (config s') = Some stats
        /\ rssPollerResults stats = Some results
        /\ res_total results = res_nice results + res_ncl results + res_nhs results
        /\ size (seen s') = size (seen s) + res_total results).
Proof.
  split; [apply nice_counts|]. split; [intros u src; apply rss_counts|].
  intros Hcfg. unfold PollRss.run.
  unfold bind at 1. unfold nowISO at 1. cbv beta iota.
  unfold bind at 1. unfold get at 1. cbv beta iota.
  destruct (nice_step rt w (isEnabled (config s) nice) (S t) s)
    as (n1 & t1 & s1 & E1 & Hs1 & Ht1).
  unfold bind at 1. rewrite E1.
  pose proof (tidy_fetchesPages _ _ Ht1 Hcfg) as Hcfg1.
  unfold bind at 1. unfold get at 1. cbv beta iota.
  destruct (rss_step rt w (isEnabled (config s1) ncl)
              (js "https://gps.northcentrallondon.icb.nhs.uk/news/rss") ncl t1 s1
              (proj1 Hcfg1))
    as (n2 & t2 & s2 & E2 & Hs2 & Ht2).
  unfold bind at 1. rewrite E2.
  pose proof (tidy_fetchesPages _ _ Ht2 Hcfg1) as Hcfg2.
  unfold bind at 1. unfold get at 1. cbv beta iota.
  destruct (rss_step rt w (isEnabled (config s2) nhs)
              (js "https://www.england.nhs.uk/feed/") nhs t2 s2 (proj2 Hcfg2))
    as (n3 & t3 & s3 & E3 & Hs3 & Ht3).
  unfold bind at 1. rewrite E3.
  unfold bind, nowISO, modify. cbv beta iota.
  eexists; eexists; eexists; eexists. split; [reflexivity|].
  cbn [config setConfig lastRunStats rssPollerResults seen res_total res_nice res_ncl res_nhs].
  split; [reflexivity|]. split; [reflexivity|]. split; [reflexivity|].
  cbn [res_total]. lia.
Qed.

Lemma run_statistics_witness :
  exists t' s' stats results,
    PollRss.run Samples.runtime Samples.feedWorld 0 Samples.emptyStore = (Normal tt, t', s')
    /\ lastRunStats (config s') = Some stats
    /\ rssPollerResults stats = Some results
    /\ size (seen s') = size (seen Samples.emptyStore) + res_total results.
Proof.
  destruct (run_statistics_count_the_discoveries Samples.runtime Samples.feedWorld 0
              Samples.emptyStore) as (_ & _ & H).
  destruct H as (t' & s' & stats & results & H1 & H2 & H3 & _ & H5).
  { split; reflexivity. }
  exists t', s', stats, results. repeat split; assumption.
Defined.
